(** * speechbox: sequence partitioning, utterance windows and dataset splits

    A shallow embedding of [speechbox/preprocess/transformations.py] and of
    [patch_feature_dim] from [speechbox/commands/e2e.py].

    Conventions.
    - A numpy array is a shape together with its entries in C (row-major)
      order.  Entries are exact integers; the floating point rounding of
      numpy is not modelled.
    - A waveform is the list of its samples.
    - A Python generator is the list of the values it yields, in order,
      together with the exception that ended it, if any.
    - Code that lives outside the two files (sklearn, [speechbox.system],
      [speechbox.preprocess.features]) is a class of parameters; the
      theorems hold for every instance.
    - [int(rate * ms * 1e-3)] is floating point arithmetic; it is a
      parameter too, so that no theorem depends on how it rounds. *)

From Stdlib Require Import ZArith QArith Qround Lia.
From stdpp Require Import base option list gmap strings.
From Equations Require Import Equations.

Local Open Scope Z_scope.
Local Open Scope nat_scope.

(** ** Exceptions and results *)

Inductive exn : Type :=
| AssertionError
| KeyError
| TypeError
| ValueError
| IndexError
| ZeroDivisionError.

Global Instance exn_eq_dec : EqDecision exn.
Proof. solve_decision. Defined.

Inductive result (A : Type) : Type :=
| Ok (a : A)
| Raise (e : exn).
Arguments Ok {A} a.
Arguments Raise {A} e.

(** Statements in sequence: the first exception ends the computation. *)
Definition and_then {A B : Type} (r : result A) (f : A → result B) : result B :=
  match r with
  | Ok a => f a
  | Raise e => Raise e
  end.

Notation "'let!' x := e 'in' k" := (and_then e (λ x, k))
  (at level 10, x pattern, e at level 100, k at level 200,
   format "'[v' 'let!'  x  := e  'in' '/' k ']'").

(** A generator that has been run to its end: what it yielded, and the
    exception that stopped it ([None] when it returned normally). *)
Definition gen (A : Type) : Type := (list A * option exn)%type.

Definition gen_done {A} (ys : list A) : gen A := (ys, None).
Definition gen_raise {A} (ys : list A) (e : exn) : gen A := (ys, Some e).

(** ** numpy arrays *)

Record ndarray : Type := mk_ndarray {
  shape : list nat;
  data : list Z
}.

Definition ndim (a : ndarray) : nat := length (shape a).

Definition size_of_shape (s : list nat) : nat := foldr Nat.mul 1 s.

(** The arrays numpy can build: as many entries as the shape says. *)
Definition wf_ndarray (a : ndarray) : Prop :=
  length (data a) = size_of_shape (shape a).

(** [a[i, j]] for a 2-D array and [a[i, j, k]] for a 3-D array, C order. *)
Definition get2 (a : ndarray) (i j : nat) : option Z :=
  match shape a with
  | [r; c] => if decide (i < r ∧ j < c) then data a !! (i * c + j) else None
  | _ => None
  end.

Definition get3 (a : ndarray) (i j k : nat) : option Z :=
  match shape a with
  | [n; l; c] =>
      if decide (i < n ∧ j < l ∧ k < c)
      then data a !! ((i * l + j) * c + k) else None
  | _ => None
  end.

(** [ndarray.resize(new_shape)] on an array that owns its data: the entries
    are kept in C order, cut off or filled up with zeros; a negative
    dimension is a [ValueError].  numpy reads the dimensions in order and
    stops reading at the first 0, so that a negative dimension behind a 0
    is not refused there; the result has no meaning as an array, and the
    theorems stay away from such shapes. *)
Definition ndarray_resize (a : ndarray) (new_shape : list Z) : result ndarray :=
  if decide (Forall (λ d, (0 <= d)%Z) new_shape) then
    let s := Z.to_nat <$> new_shape in
    Ok (mk_ndarray s (resize (size_of_shape s) 0%Z (data a)))
  else Raise ValueError.

(** [partition_into_sequences(data, sequence_length)] *)
Definition partition_into_sequences (d : ndarray) (sequence_length : Z)
  : result ndarray :=
  if decide (ndim d = 2) then
    let shape0 := Z.of_nat (shape d !!! 0) in
    let shape1 := Z.of_nat (shape d !!! 1) in
    if decide (sequence_length = 0%Z) then Raise ZeroDivisionError
    else
      let num_sequences := ((shape0 + sequence_length - 1) / sequence_length)%Z in
      let resized := d in
      ndarray_resize resized [num_sequences; sequence_length; shape1]
  else Raise AssertionError.

(** Sum of the squares of the entries, the square of the Frobenius norm. *)
Definition sum_squares (l : list Z) : Z := foldr (λ x acc, (x * x + acc)%Z) 0%Z l.

Definition frobenius_sq (a : ndarray) : Z := sum_squares (data a).

(** The number of sequences in the words of the specification,
    [ceil(r / L)], on rationals. *)
Definition ceil_ratio (r l : nat) : nat :=
  Z.to_nat (Qceiling (inject_Z (Z.of_nat r) / inject_Z (Z.of_nat l))).

(** ** Python values, for configuration dictionaries *)

#[local] Set Warnings "-register-all".
Inductive pyval : Type :=
| PNone
| PBool (b : bool)
| PInt (z : Z)
| PFloat (q : Q)
| PStr (s : string)
| PList (l : list pyval)
| PDict (d : gmap string pyval).

(** [d[key]] *)
Definition py_getitem (d : pyval) (key : string) : result pyval :=
  match d with
  | PDict m => match m !! key with Some v => Ok v | None => Raise KeyError end
  | _ => Raise TypeError
  end.

(** [d.get(key, default)] *)
Definition py_get (d : pyval) (key : string) (dflt : pyval) : result pyval :=
  match d with
  | PDict m => Ok (default dflt (m !! key))
  | _ => Raise TypeError
  end.

(** ** Waveforms and utterances *)

Abbreviation wav_t := (list Z) (only parsing).

(** A signal with its sample rate: the pair [(wav, rate)]. *)
Definition utterance : Type := (wav_t * Z)%type.

(** What [transformations.py] takes from [speechbox.system], and the one
    floating point expression of the module, [int(rate * ms * 1e-3)]. *)
Class System : Type := {
  read_wavfile : string → utterance;
  remove_silence : utterance → utterance;
  int_rate_ms : Z → Q → Z
}.

(** The [while] loop of [speech_dataset_to_utterances]:
<<
    while wav.size > utterance_boundary:
        yield label, (wav[:utterance_boundary], rate)
        wav = wav[utterance_offset:]
>>
    It runs after both assertions, so the offset is a positive number.  The
    result is the list of the yielded windows and the value of [wav] when
    the loop ends. *)
Equations? window_loop (utterance_boundary : nat) (utterance_offset : positive)
  (wav : wav_t) : list wav_t * wav_t by wf (length wav) lt :=
window_loop b o wav with decide (b < length wav) => {
  | left _ =>
      let r := window_loop b o (drop (Pos.to_nat o) wav) in
      (take b wav :: r.1, r.2)
  | right _ => ([], wav)
}.
Proof. rewrite length_drop. lia. Qed.

Section utterances.
Context {sys : System}.

(** The body of the [for] loop, for one [(label, wavpath)] and the carry
    buffers [label_to_wav]: what it yields, and the buffers afterwards or
    the exception. *)
Definition file_to_utterances
    (utterance_length_ms utterance_offset_ms : Q)
    (apply_vad slide_over_all : bool)
    (label_to_wav : gmap string wav_t) (label wavpath : string)
  : list (string * utterance) * result (gmap string wav_t) :=
  let '(wav, rate) := read_wavfile wavpath in
  let wav := if apply_vad then (remove_silence (wav, rate)).1 else wav in
  let merged :=
    if slide_over_all then
      match label_to_wav !! label with
      | Some rest => Ok (rest ++ wav)
      | None => Raise KeyError
      end
    else Ok wav in
  match merged with
  | Raise e => ([], Raise e)
  | Ok wav =>
      let utterance_boundary := int_rate_ms rate utterance_length_ms in
      let utterance_offset := int_rate_ms rate utterance_offset_ms in
      if decide (utterance_boundary > 0)%Z then
        match utterance_offset with
        | Zpos offset =>
            let r := window_loop (Z.to_nat utterance_boundary) offset wav in
            ((λ u, (label, (u, rate))) <$> r.1,
             Ok (<[label := if slide_over_all then r.2 else []]> label_to_wav))
        | _ => ([], Raise AssertionError)
        end
      else ([], Raise AssertionError)
  end.

(** The [for] loop over [zip(labels, paths)]. *)
Fixpoint files_to_utterances
    (utterance_length_ms utterance_offset_ms : Q)
    (apply_vad slide_over_all : bool)
    (label_to_wav : gmap string wav_t) (files : list (string * string))
  : gen (string * utterance) :=
  match files with
  | [] => gen_done []
  | (label, wavpath) :: files' =>
      let '(ys, r) :=
        file_to_utterances utterance_length_ms utterance_offset_ms
          apply_vad slide_over_all label_to_wav label wavpath in
      match r with
      | Raise e => gen_raise ys e
      | Ok label_to_wav' =>
          let '(zs, e) :=
            files_to_utterances utterance_length_ms utterance_offset_ms
              apply_vad slide_over_all label_to_wav' files' in
          (ys ++ zs, e)
      end
  end.

(** [speech_dataset_to_utterances(labels, paths, utterance_length_ms,
    utterance_offset_ms, apply_vad, print_progress, slide_over_all)].
    [print_progress] only prints and is left out. *)
Definition speech_dataset_to_utterances (labels paths : list string)
    (utterance_length_ms utterance_offset_ms : Q)
    (apply_vad slide_over_all : bool) : gen (string * utterance) :=
  let label_to_wav : gmap string wav_t :=
    gset_to_gmap [] (list_to_set labels) in
  files_to_utterances utterance_length_ms utterance_offset_ms
    apply_vad slide_over_all label_to_wav (zip labels paths).

(** [label_to_wav] before the first file: an empty buffer for every label. *)
Definition initial_buffers (labels : list string) : gmap string wav_t :=
  gset_to_gmap [] (list_to_set labels).

(** The value of [label_to_wav] when the [for] loop has run over [files],
    or the exception that ended the loop. *)
Fixpoint buffers_after
    (utterance_length_ms utterance_offset_ms : Q)
    (apply_vad slide_over_all : bool)
    (label_to_wav : gmap string wav_t) (files : list (string * string))
  : result (gmap string wav_t) :=
  match files with
  | [] => Ok label_to_wav
  | (label, wavpath) :: files' =>
      let! label_to_wav' :=
        (file_to_utterances utterance_length_ms utterance_offset_ms
           apply_vad slide_over_all label_to_wav label wavpath).2 in
      buffers_after utterance_length_ms utterance_offset_ms
        apply_vad slide_over_all label_to_wav' files'
  end.
End utterances.

(** [wav[i:j]] for [0 <= i <= j] *)
Definition py_slice (i j : nat) (wav : wav_t) : wav_t := take (j - i) (drop i wav).

Section utterance_files.
Context {sys : System}.

(** The sample rate of a file, and the signal that the window slides
    over when nothing is carried from earlier files. *)
Definition file_rate (wavpath : string) : Z := (read_wavfile wavpath).2.

Definition file_wav (apply_vad : bool) (wavpath : string) : wav_t :=
  if apply_vad then (remove_silence (read_wavfile wavpath)).1
  else (read_wavfile wavpath).1.

(** The window or the step of a file rounds down to no samples. *)
Definition empty_window (utterance_length_ms utterance_offset_ms : Q)
    (wavpath : string) : Prop :=
  (int_rate_ms (file_rate wavpath) utterance_length_ms ≤ 0
   ∨ int_rate_ms (file_rate wavpath) utterance_offset_ms ≤ 0)%Z.
End utterance_files.

(** A small instance for examples: [int(rate * ms * 1e-3)] in exact
    arithmetic, files whose samples are 1, 2, ..., one for each character
    of the path, at 2 samples per second, and silence removal that drops
    the zero samples. *)
Definition exact_rate_ms (rate : Z) (ms : Q) : Z :=
  let q := (inject_Z rate * ms * (1 # 1000))%Q in
  (Qnum q ÷ Zpos (Qden q))%Z.

Definition example_system : System := {|
  read_wavfile := λ wavpath, (Z.of_nat <$> seq 1 (String.length wavpath), 2%Z);
  remove_silence := λ u, (filter (λ x, x ≠ 0%Z) u.1, u.2);
  int_rate_ms := exact_rate_ms
|}.

(** ** Features of utterances *)

Global Instance ndarray_eq_dec : EqDecision ndarray.
Proof. solve_decision. Defined.

(** [np.zeros(n, dtype=np.float32)] *)
Definition np_zeros (n : nat) : ndarray := mk_ndarray [n] (replicate n 0%Z).

(** [a[i] = v] on a 1-D array; a negative index counts from the end. *)
Definition ndarray_setitem (a : ndarray) (i : Z) (v : Z) : result ndarray :=
  let n := Z.of_nat (length (data a)) in
  if decide (0 <= i < n)%Z then
    Ok (mk_ndarray (shape a) (<[Z.to_nat i := v]> (data a)))
  else if decide (- n <= i < 0)%Z then
    Ok (mk_ndarray (shape a) (<[Z.to_nat (n + i) := v]> (data a)))
  else Raise IndexError.

(** [a[i]] on a 1-D array, with the same index rule. *)
Definition ndarray_getitem (a : ndarray) (i : Z) : result Z :=
  let n := Z.of_nat (length (data a)) in
  if decide (0 <= i < n)%Z then Ok (data a !!! Z.to_nat i)
  else if decide (- n <= i < 0)%Z then Ok (data a !!! Z.to_nat (n + i))
  else Raise IndexError.

(** [for x in a]: the sub-arrays along the first axis. *)
Definition ndarray_iter (a : ndarray) : result (list ndarray) :=
  match shape a with
  | [] => Raise TypeError
  | n :: rest =>
      let sz := size_of_shape rest in
      Ok ((λ i, mk_ndarray rest (take sz (drop (i * sz) (data a)))) <$> seq 0 n)
  end.

(** [np.array(arrays)] for a list of arrays of one shape. *)
Definition np_array (arrays : list ndarray) : ndarray :=
  mk_ndarray (length arrays :: default [] (shape <$> head arrays))
             (concat (data <$> arrays)).

(** What [transformations.py] takes from [speechbox.preprocess.features]. *)
Class Features : Type := {
  extract_features : utterance → pyval → pyval → result ndarray
}.

Section features.
Context {feat : Features}.

(** The body of the [for] loop of [utterances_to_features]: the pairs
    yielded for one utterance.  Nothing is yielded before the partition
    is complete, so an exception leaves no pair behind. *)
Definition utterance_to_features (label_to_index : gmap string Z)
    (extractors : list pyval) (sequence_length : Z)
    (label : string) (utt : utterance) : result (list (ndarray * ndarray)) :=
  let onehot := np_zeros (size label_to_index) in
  let! index := from_option Ok (Raise KeyError) (label_to_index !! label) in
  let! onehot := ndarray_setitem onehot index 1 in
  let! extractor := from_option Ok (Raise IndexError) (head extractors) in
  let! name := py_getitem extractor "name" in
  let! kwargs := py_get extractor "kwargs" PNone in
  let! feats := extract_features utt name kwargs in
  let! sequences := partition_into_sequences feats sequence_length in
  let! seqs := ndarray_iter sequences in
  Ok ((λ sequence, (sequence, onehot)) <$> seqs).

(** The [for] loop over the utterances; [upstream] is how the generator
    of utterances ended. *)
Fixpoint utterances_loop (label_to_index : gmap string Z)
    (extractors : list pyval) (sequence_length : Z)
    (us : list (string * utterance)) (upstream : option exn)
  : gen (ndarray * ndarray) :=
  match us with
  | [] => ([], upstream)
  | (label, utt) :: us' =>
      match utterance_to_features label_to_index extractors sequence_length
              label utt with
      | Raise e => gen_raise [] e
      | Ok ys =>
          let '(zs, e) :=
            utterances_loop label_to_index extractors sequence_length
              us' upstream in
          (ys ++ zs, e)
      end
  end.

(** [utterances_to_features(utterances, label_to_index, extractors,
    sequence_length)] *)
Definition utterances_to_features (utterances : gen (string * utterance))
    (label_to_index : gmap string Z) (extractors : list pyval)
    (sequence_length : Z) : gen (ndarray * ndarray) :=
  if decide (0 < length extractors) then
    utterances_loop label_to_index extractors sequence_length
      utterances.1 utterances.2
  else gen_raise [] AssertionError.
(** What one yielded pair is, for the utterance it comes from. *)
Definition yielded_from (label_to_index : gmap string Z) (extractors : list pyval)
    (sequence_length : Z) (label : string) (utt : utterance)
    (sequence onehot : ndarray) : Prop :=
  ∃ (extractor name kwargs : pyval) (feats sequences : ndarray) (index : Z),
    head extractors = Some extractor
    ∧ py_getitem extractor "name" = Ok name
    ∧ py_get extractor "kwargs" PNone = Ok kwargs
    ∧ extract_features utt name kwargs = Ok feats
    ∧ partition_into_sequences feats sequence_length = Ok sequences
    ∧ (∃ n c i : nat,
         shape sequences = [n; Z.to_nat sequence_length; c] ∧ i < n
         ∧ sequence
           = mk_ndarray [Z.to_nat sequence_length; c]
               (take (size_of_shape [Z.to_nat sequence_length; c])
                  (drop (i * size_of_shape [Z.to_nat sequence_length; c])
                     (data sequences))))
    ∧ label_to_index !! label = Some index
    ∧ shape onehot = [size label_to_index]
    ∧ length (data onehot) = size label_to_index
    ∧ ∃ pos : nat,
        pos < size label_to_index
        ∧ (Z.of_nat pos = index
           ∨ Z.of_nat pos = (Z.of_nat (size label_to_index) + index)%Z)
        ∧ ndarray_getitem onehot index = Ok 1%Z
        ∧ ∀ j : nat, j < size label_to_index →
            data onehot !! j = Some (if decide (j = pos) then 1%Z else 0%Z).

End features.

(** An extractor for examples: every sample is a frame with one
    coefficient. *)
Definition example_features : Features := {|
  extract_features := λ utt name kwargs,
    Ok (mk_ndarray [length utt.1; 1] utt.1)
|}.

(** ** Features of files *)

(** The experiment config as [files_to_features] reads it: the keys it
    indexes are fields, the keys it reads with [config.get] are options.
    A value of this type is a well-formed config. *)
Record experiment_config : Type := {
  utterance_length_ms : Q;
  utterance_offset_ms : Q;
  apply_vad : option bool;
  print_progress : option Z;
  resample_to : option Z;
  extractors : list pyval;
  sequence_length : Z
}.

(** The parameters of [speech_dataset_to_utterances], in order, and those
    of them that have a default value. *)
Definition speech_dataset_to_utterances_params : list string :=
  ["labels"; "paths"; "utterance_length_ms"; "utterance_offset_ms";
   "apply_vad"; "print_progress"; "slide_over_all"].

Definition speech_dataset_to_utterances_defaults : list string :=
  ["slide_over_all"].

(** Binding the arguments of a call [f(a1, ..., an, k1=..., ..., km=...)] to
    the parameters of [f]: every keyword names a parameter that no
    positional argument has taken, and every parameter without a default
    gets a value; otherwise the call is a [TypeError]. *)
Definition bind_arguments (params defaults : list string)
    (positional : nat) (keywords : list string) : result () :=
  if decide (positional ≤ length params
             ∧ Forall (λ k, k ∈ drop positional params) keywords
             ∧ Forall (λ p, p ∈ keywords ∨ p ∈ defaults) (drop positional params))
  then Ok ()
  else Raise TypeError.

Section files.
Context {sys : System} {feat : Features}.

(** The body of the [for] loop of [files_to_features]: the triple yielded
    for one file, if any.  The only [yield] is the last statement, so an
    exception leaves nothing behind. *)
Definition file_to_features (config : experiment_config)
    (label_to_index : gmap string Z) (path label : string)
  : result (option (string * ndarray * ndarray)) :=
  let! _ :=
    bind_arguments speech_dataset_to_utterances_params
      speech_dataset_to_utterances_defaults 2
      ["utterance_length_ms"; "utterance_offset_ms"; "apply_vad";
       "print_progress"; "resample_to"] in
  let utterance_chunks :=
    speech_dataset_to_utterances [label] [path]
      (utterance_length_ms config) (utterance_offset_ms config)
      (default false (apply_vad config)) true in
  let iter_features :=
    utterances_to_features utterance_chunks label_to_index
      (extractors config) (sequence_length config) in
  match iter_features.2 with
  | Some e => Raise e
  | None =>
      let features := fst <$> iter_features.1 in
      let targets := snd <$> iter_features.1 in
      match targets with
      | [] => Ok None
      | target0 :: _ =>
          if decide (Forall (λ t, t = target0) targets)
          then Ok (Some (path, np_array features, target0))
          else Raise AssertionError
      end
  end.

(** [files_to_features(paths, labels, config, label_to_index)] *)
Fixpoint files_to_features (paths labels : list string)
    (config : experiment_config) (label_to_index : gmap string Z)
  : gen (string * ndarray * ndarray) :=
  match paths, labels with
  | path :: paths', label :: labels' =>
      match file_to_features config label_to_index path label with
      | Raise e => gen_raise [] e
      | Ok y =>
          let '(zs, e) :=
            files_to_features paths' labels' config label_to_index in
          (option_list y ++ zs, e)
      end
  | _, _ => gen_done []
  end.
End files.

(** ** Dataset splits *)

(** [sklearn.model_selection.train_test_split(xs, random_state=...,
    test_size=...)].  It draws from a random number generator, whose state
    goes in and comes out; it raises for sizes it cannot serve. *)
Class Sklearn : Type := {
  rng_state : Type;
  train_test_split :
    ∀ {A : Type}, rng_state → list A → option Z → Q →
                  result (list A * list A * rng_state)
}.

(** The dictionary with the keys "training", "validation" and "test". *)
Record split (A : Type) : Type := mk_split {
  training : list A;
  validation : list A;
  test : list A
}.
Arguments mk_split {A} _ _ _.
Arguments training {A} _.
Arguments validation {A} _.
Arguments test {A} _.

(** [x / y] on floats *)
Definition float_div (x y : Q) : result Q :=
  if Qeq_bool y 0 then Raise ZeroDivisionError else Ok (x / y)%Q.

Section splits.
Context {sk : Sklearn}.

(** [dataset_split_samples(samples, validation_ratio, test_ratio,
    random_state)] *)
Definition dataset_split_samples {A : Type} (g : rng_state)
    (samples : list A) (validation_ratio test_ratio : Q)
    (random_state : option Z) : result (split A * rng_state) :=
  let! (training_samples, test_samples, g) :=
    train_test_split g samples random_state test_ratio in
  let! test_size := float_div validation_ratio (1 - test_ratio)%Q in
  let! (training_samples, validation_samples, g) :=
    train_test_split g training_samples random_state test_size in
  Ok (mk_split training_samples validation_samples test_samples, g).

(** [dataset_split_samples_by_speaker(samples, parse_speaker_id,
    validation_ratio, test_ratio, random_state)]; a sample is a tuple and
    the speaker is parsed from its first component.  [list(set(...))]
    is the list of the elements of the set, in the order of the
    representation. *)
Definition dataset_split_samples_by_speaker {A B K : Type}
    `{Countable K} (g : rng_state)
    (samples : list (A * B)) (parse_speaker_id : A → K)
    (validation_ratio test_ratio : Q) (random_state : option Z)
  : result (split (A * B) * rng_state) :=
  let speakers : list K :=
    elements (list_to_set ((λ sample, parse_speaker_id sample.1) <$> samples)
                : gset K) in
  let! (training_speakers, test_speakers, g) :=
    train_test_split g speakers random_state test_ratio in
  let! test_size := float_div validation_ratio (1 - test_ratio)%Q in
  let! (training_speakers, validation_speakers, g) :=
    train_test_split g training_speakers random_state test_size in
  let select (split_speakers : list K) : list (A * B) :=
    filter (λ sample, parse_speaker_id sample.1
                      ∈ (list_to_set split_speakers : gset K)) samples in
  Ok (mk_split (select training_speakers) (select validation_speakers)
                 (select test_speakers), g).
End splits.

(** What the proofs take from sklearn: a split is a rearrangement of its
    input into a training part and a test part. *)
Definition split_is_partition (sk : Sklearn) : Prop :=
  ∀ (A : Type) (g g' : rng_state) (xs tr te : list A)
    (random_state : option Z) (test_size : Q),
    train_test_split g xs random_state test_size = Ok (tr, te, g') →
    tr ++ te ≡ₚ xs.

Definition exactly_one (P Q R : Prop) : Prop :=
  (P ∧ ¬ Q ∧ ¬ R) ∨ (¬ P ∧ Q ∧ ¬ R) ∨ (¬ P ∧ ¬ Q ∧ R).

(** A splitter for examples: the state counts the calls, the list is
    rotated by the state, the first [ceil(test_size * n)] elements are
    the test part, and a split with an empty part is refused. *)
Definition example_sklearn : Sklearn := {|
  rng_state := nat;
  train_test_split := λ A g xs random_state test_size,
    let n_test :=
      Z.to_nat (Qceiling (test_size * inject_Z (Z.of_nat (length xs)))) in
    if decide (0 < n_test < length xs) then
      let shuffled := rotate g xs in
      Ok (drop n_test shuffled, take n_test shuffled, S g)
    else Raise ValueError
|}.

(** A speaker id for examples: the first two characters of an utterance
    id. *)
Definition speaker_prefix (utt : string) : string := String.substring 0 2 utt.

(** ** The feature dimension of a feature config ([commands/e2e.py]) *)

(** [d[key] = v] *)
Definition py_setitem (d : pyval) (key : string) (v : pyval) : result pyval :=
  match d with
  | PDict m => Ok (PDict (<[key := v]> m))
  | _ => Raise TypeError
  end.

(** [key in d] *)
Definition py_contains (d : pyval) (key : string) : result bool :=
  match d with
  | PDict m => Ok (bool_decide (is_Some (m !! key)))
  | _ => Raise TypeError
  end.

(** [v == s] for a string literal [s] *)
Definition py_eq_str (v : pyval) (s : string) : bool :=
  match v with
  | PStr s' => bool_decide (s' = s)
  | _ => false
  end.

(** The numbers of Python: [int] (with [bool]) and [float]. *)
Definition py_number (v : pyval) : option (Z + Q) :=
  match v with
  | PInt z => Some (inl z)
  | PBool b => Some (inl (if b then 1 else 0)%Z)
  | PFloat q => Some (inr q)
  | _ => None
  end.

Definition to_float (n : Z + Q) : Q :=
  match n with
  | inl z => inject_Z z
  | inr q => q
  end.

(** [a // b]: floor division on numbers, a [TypeError] on anything else. *)
Definition py_floordiv (a b : pyval) : result pyval :=
  match py_number a, py_number b with
  | Some (inl x), Some (inl y) =>
      if decide (y = 0)%Z then Raise ZeroDivisionError else Ok (PInt (x / y))
  | Some x, Some y =>
      if Qeq_bool (to_float y) 0 then Raise ZeroDivisionError
      else Ok (PFloat (inject_Z (Qfloor (to_float x / to_float y))))
  | _, _ => Raise TypeError
  end.

(** [a + b] on numbers; the config never adds strings or lists. *)
Definition py_add (a b : pyval) : result pyval :=
  match py_number a, py_number b with
  | Some (inl x), Some (inl y) => Ok (PInt (x + y))
  | Some x, Some y => Ok (PFloat (to_float x + to_float y))
  | _, _ => Raise TypeError
  end.

(** [patch_feature_dim(config)]; the dictionary is updated in place and
    returned, so the result is the new value of [config]. *)
Definition patch_feature_dim (config : pyval) : result pyval :=
  let! type := py_getitem config "type" in
  if py_eq_str type "mfcc" then
    let! mfcc := py_getitem config "mfcc" in
    let! num_coefs := py_getitem mfcc "num_coefs" in
    py_setitem config "feature_dim" num_coefs
  else if py_eq_str type "melspectrogram" || py_eq_str type "logmelspectrogram" then
    let! melspectrogram := py_getitem config "melspectrogram" in
    let! num_mel_bins := py_getitem melspectrogram "num_mel_bins" in
    py_setitem config "feature_dim" num_mel_bins
  else if py_eq_str type "spectrogram" then
    let! spectrogram := py_getitem config "spectrogram" in
    let! half := py_floordiv spectrogram (PInt 2) in
    let! feature_dim := py_add half (PInt 1) in
    py_setitem config "feature_dim" feature_dim
  else if py_eq_str type "sparsespeech" then
    let! present := py_contains config "feature_dim" in
    if present then Ok config else Raise AssertionError
  else Raise AssertionError.

(** [Train.train] after [patch_feature_dim] (lines 193 to 196):
<<
    if "spectrogram" in feat_config:
        for k in ("frame_length", "frame_step"):
            if k in feat_config["spectrogram"]:
                feat_config["voice_activity_detection"][k] = feat_config["spectrogram"][k]
>>
    The value under "spectrogram" is used as a dictionary here. *)
Definition copy_spectrogram_frames (feat_config : pyval) : result pyval :=
  let! present := py_contains feat_config "spectrogram" in
  if present then
    foldl (λ (acc : result pyval) (k : string),
             let! feat_config := acc in
             let! spectrogram := py_getitem feat_config "spectrogram" in
             let! has_k := py_contains spectrogram k in
             if has_k then
               let! v := py_getitem spectrogram k in
               let! vad := py_getitem feat_config "voice_activity_detection" in
               let! vad := py_setitem vad k v in
               py_setitem feat_config "voice_activity_detection" vad
             else Ok feat_config)
          (Ok feat_config) ["frame_length"; "frame_step"]
  else Ok feat_config.

(** A feature config for spectrograms, with the sub-config a dictionary
    as [Train.train] reads it. *)
Definition spectrogram_config : pyval :=
  PDict (<["type" := PStr "spectrogram"]>
         (<["spectrogram" :=
              PDict (<["frame_length" := PInt 400]>
                     (<["frame_step" := PInt 160]>
                      {["fft_length" := PInt 512]}))]>
          {["voice_activity_detection" := PDict ∅]})).

(** An experiment config for examples. *)
Definition example_config : experiment_config := {|
  utterance_length_ms := 2000;
  utterance_offset_ms := 1000;
  apply_vad := None;
  print_progress := None;
  resample_to := None;
  extractors := [PDict {["name" := PStr "mfcc"]}];
  sequence_length := 2
|}.

(** ** The feature config in [Train.train] ([commands/e2e.py], lines 177 to 196) *)

(** [k in s] for two strings: [k] occurs in [s]. *)
Fixpoint is_substring (k s : string) : bool :=
  String.prefix k s
  || match s with
     | String _ s' => is_substring k s'
     | EmptyString => false
     end.

(** [key in d] for a string [key]: a key of a dictionary, an element of a
    list, a part of a string; the other values are not containers. *)
Definition py_in (key : string) (d : pyval) : result bool :=
  match d with
  | PDict m => Ok (bool_decide (is_Some (m !! key)))
  | PList l => Ok (existsb (λ v, py_eq_str v key) l)
  | PStr s => Ok (is_substring key s)
  | _ => Raise TypeError
  end.

(** Lines 193 to 196:
<<
    if "spectrogram" in feat_config:
        for k in ("frame_length", "frame_step"):
            if k in feat_config["spectrogram"]:
                feat_config["voice_activity_detection"][k] = feat_config["spectrogram"][k]
>> *)
Definition spectrogram_frames_to_vad (feat_config : pyval) : result pyval :=
  let! present := py_in "spectrogram" feat_config in
  if present then
    foldl (λ (acc : result pyval) (k : string),
             let! feat_config := acc in
             let! spectrogram := py_getitem feat_config "spectrogram" in
             let! has_k := py_in k spectrogram in
             if has_k then
               let! spectrogram := py_getitem feat_config "spectrogram" in
               let! v := py_getitem spectrogram k in
               let! vad := py_getitem feat_config "voice_activity_detection" in
               let! vad := py_setitem vad k v in
               py_setitem feat_config "voice_activity_detection" vad
             else Ok feat_config)
          (Ok feat_config) ["frame_length"; "frame_step"]
  else Ok feat_config.

(** One round of the loop over ("frame_length", "frame_step"). *)
Definition copy_frame (feat_config : pyval) (k : string) : result pyval :=
  let! spectrogram := py_getitem feat_config "spectrogram" in
  let! has_k := py_in k spectrogram in
  if has_k then
    let! spectrogram := py_getitem feat_config "spectrogram" in
    let! v := py_getitem spectrogram k in
    let! vad := py_getitem feat_config "voice_activity_detection" in
    let! vad := py_setitem vad k v in
    py_setitem feat_config "voice_activity_detection" vad
  else Ok feat_config.

(** Lines 188 to 192:
<<
    if feat_config["type"] in ("melspectrogram", "logmelspectrogram", "mfcc"):
        assert "sample_rate" in self.experiment_config["dataset"], ...
        if "melspectrogram" not in feat_config:
            feat_config["melspectrogram"] = {}
        feat_config["melspectrogram"]["sample_rate"] = self.experiment_config["dataset"]["sample_rate"]
>> *)
Definition melspectrogram_sample_rate (experiment_config feat_config : pyval)
  : result pyval :=
  let! type := py_getitem feat_config "type" in
  if py_eq_str type "melspectrogram" || py_eq_str type "logmelspectrogram"
     || py_eq_str type "mfcc" then
    let! dataset := py_getitem experiment_config "dataset" in
    let! has_rate := py_in "sample_rate" dataset in
    if has_rate then
      let! has_mel := py_in "melspectrogram" feat_config in
      let! feat_config :=
        if has_mel then Ok feat_config
        else py_setitem feat_config "melspectrogram" (PDict ∅) in
      let! dataset := py_getitem experiment_config "dataset" in
      let! sample_rate := py_getitem dataset "sample_rate" in
      let! melspectrogram := py_getitem feat_config "melspectrogram" in
      let! melspectrogram := py_setitem melspectrogram "sample_rate" sample_rate in
      py_setitem feat_config "melspectrogram" melspectrogram
    else Raise AssertionError
  else Ok feat_config.

(** What [Train.train] does to the feature config before it builds the
    model: lines 177 and 178 read the two sub-configs, line 187 patches
    the feature dimension, lines 188 to 196 are the two blocks above.  The
    result is the value of [feat_config] after line 196. *)
Definition train_feature_config (experiment_config : pyval) : result pyval :=
  let! training_config := py_getitem experiment_config "experiment" in
  let! feat_config := py_getitem experiment_config "features" in
  let! feat_config := patch_feature_dim feat_config in
  let! feat_config := melspectrogram_sample_rate experiment_config feat_config in
  spectrogram_frames_to_vad feat_config.

(** An experiment config for examples. *)
Definition mfcc_experiment : pyval :=
  PDict (<["experiment" := PDict {["name" := PStr "lstm"]}]>
         (<["dataset" := PDict (<["sample_rate" := PInt 16000]>
                                {["labels" := PList [PStr "en"; PStr "fi"]]})]>
          {["features" :=
              PDict (<["type" := PStr "mfcc"]>
                     (<["mfcc" := PDict {["num_coefs" := PInt 20]}]>
                      (<["spectrogram" := PDict (<["frame_length" := PInt 400]>
                                                 {["frame_step" := PInt 160]})]>
                       {["voice_activity_detection" :=
                           PDict {["aggressiveness" := PInt 3]}]})))]})).

(** A second splitter for examples, which reads a test size of 1 or more
    as a number of samples, as sklearn reads an [int]. *)
Definition count_sklearn : Sklearn := {|
  rng_state := ();
  train_test_split := λ A g xs random_state test_size,
    let n_test :=
      if Qle_bool 1 test_size then Z.to_nat (Qfloor test_size)
      else Z.to_nat (Qceiling (test_size * inject_Z (Z.of_nat (length xs)))) in
    if decide (0 < n_test < length xs) then
      Ok (drop n_test xs, take n_test xs, g)
    else Raise ValueError
|}.

(** ** Files of space separated columns ([commands/e2e.py], lines 28 to 33) *)

(** A string is the list of its characters, and [isspace] tells which
    characters are whitespace: [str.strip()] and [str.split()] use the
    same notion. *)
Section text.
Context {char : Type} (isspace : char → bool).

Fixpoint lstrip (s : list char) : list char :=
  match s with
  | [] => []
  | c :: s' => if isspace c then lstrip s' else s
  end.

(** [s.strip()] *)
Definition py_strip (s : list char) : list char :=
  reverse (lstrip (reverse (lstrip s))).

(** [s.split()], reading [s] from the left; [word] holds the characters
    of the word that is being read. *)
Fixpoint split_from (word s : list char) : list (list char) :=
  match s with
  | [] => match word with [] => [] | _ => [word] end
  | c :: s' =>
      if isspace c then
        match word with
        | [] => split_from [] s'
        | _ => word :: split_from [] s'
        end
      else split_from (word ++ [c]) s'
  end.

Definition py_split (s : list char) : list (list char) := split_from [] s.

(** [parse_space_separated(path)], for the lines of the file at [path]:
<<
    for l in f:
        l = l.strip()
        if l:
            yield l.split()
>> *)
Fixpoint parse_space_separated (lines : list (list char))
  : list (list (list char)) :=
  match lines with
  | [] => []
  | l :: lines' =>
      let l := py_strip l in
      match l with
      | [] => parse_space_separated lines'
      | _ => py_split l :: parse_space_separated lines'
      end
  end.

(** The characters of a line that are not whitespace. *)
Definition visible (s : list char) : list char :=
  filter (λ c, isspace c = false) s.
End text.

(** ** The files of a datagroup ([Train.extract_features], lines 129 to 156) *)

(** The command line options that [extract_features] reads. *)
Record train_args : Type := {
  shuffle_file_list : bool;
  file_limit : option Z
}.

(** [l[:n]]: the first n elements, or all but the last -n when n is
    negative. *)
Definition py_prefix {A : Type} (n : Z) (l : list A) : list A :=
  if decide (0 ≤ n)%Z then take (Z.to_nat n) l
  else take (length l - Z.to_nat (- n)) l.

Section select.
Context {T : Type} `{EqDecision T}.

(** An [OrderedDict] is the list of its items in the order of insertion,
    no key twice.  [d[k] = v] keeps the place of a key that is there. *)
Fixpoint od_set (d : list (T * T)) (k v : T) : list (T * T) :=
  match d with
  | [] => [(k, v)]
  | (k', v') :: d' =>
      if decide (k' = k) then (k, v) :: d' else (k', v') :: od_set d' k v
  end.

(** [d[k]] *)
Fixpoint od_get (d : list (T * T)) (k : T) : result T :=
  match d with
  | [] => Raise KeyError
  | (k', v') :: d' => if decide (k' = k) then Ok v' else od_get d' k
  end.

(** [collections.OrderedDict(row[:2] for row in rows)], starting from the
    items [d]: a row of less than two columns is a [ValueError]. *)
Fixpoint ordered_dict_from (d : list (T * T)) (rows : list (list T))
  : result (list (T * T)) :=
  match rows with
  | [] => Ok d
  | row :: rows' =>
      match take 2 row with
      | [k; v] => ordered_dict_from (od_set d k v) rows'
      | _ => Raise ValueError
      end
  end.

Definition ordered_dict (rows : list (list T)) : result (list (T * T)) :=
  ordered_dict_from [] rows.

(** What the loop of lines 150 to 156 builds. *)
Record selection : Type := mk_selection {
  sel_paths : list T;
  sel_paths_meta : list (T * T);
  sel_num_dropped : nat
}.

(** Lines 150 to 156:
<<
    for utt in keys:
        label = utt2label[utt]
        if label not in labels_set:
            num_dropped += 1
            continue
        paths.append(utt2path[utt])
        paths_meta.append((utt, label))
>> *)
Fixpoint select_loop (utt2path utt2label : list (T * T)) (labels : list T)
    (keys : list T) (acc : selection) : result selection :=
  match keys with
  | [] => Ok acc
  | utt :: keys' =>
      let! label := od_get utt2label utt in
      if decide (label ∈ labels) then
        let! path := od_get utt2path utt in
        select_loop utt2path utt2label labels keys'
          (mk_selection (sel_paths acc ++ [path])
                        (sel_paths_meta acc ++ [(utt, label)])
                        (sel_num_dropped acc))
      else
        select_loop utt2path utt2label labels keys'
          (mk_selection (sel_paths acc) (sel_paths_meta acc)
                        (S (sel_num_dropped acc)))
  end.

(** Lines 129 to 156 of [Train.extract_features], for the rows of the
    files utt2path and utt2label, the labels of the dataset config and
    what [random.shuffle] makes of a list. *)
Definition select_paths (shuffle : list T → list T) (args : train_args)
    (labels : list T) (utt2path_rows utt2label_rows : list (list T))
  : result selection :=
  let! utt2path := ordered_dict utt2path_rows in
  let! utt2label := ordered_dict utt2label_rows in
  if decide (utt2path.*1 ⊆ utt2label.*1 ∧ utt2label.*1 ⊆ utt2path.*1) then
    let keys := utt2path.*1 in
    let keys := if shuffle_file_list args then shuffle keys else keys in
    let keys :=
      match file_limit args with
      | Some n => if decide (n = 0%Z) then keys else py_prefix n keys
      | None => keys
      end in
    select_loop utt2path utt2label labels keys (mk_selection [] [] 0)
  else Raise AssertionError.

(** The value that the rows give to a key: the second column of the last
    row that has the key in its first column. *)
Definition last_value (rows : list (list T)) (k : T) : option T :=
  last (omap (λ row, match row with
                     | k' :: v :: _ => if decide (k' = k) then Some v else None
                     | _ => None
                     end) rows).
End select.

(** ** One-hot labels ([make_label2onehot], lines 35 to 47 and 199) *)

(** [label2int.lookup(label)]: the table maps the labels to
    [range(len(labels))], and a label that it does not have to
    [len(labels)], one past the last index. *)
Definition label2int (labels : list string) (label : string) : nat :=
  from_option fst (length labels) (list_find (λ l, l = label) labels).

(** [tf.one_hot(tf.range(n), n)]: row i has a 1 at i and 0 elsewhere. *)
Definition one_hot_rows (n : nat) : list (list Z) :=
  (λ i, (λ j, if decide (j = i) then 1%Z else 0%Z) <$> seq 0 n) <$> seq 0 n.

(** [make_label2onehot(labels)] gives the table and the rows; the table
    cannot be made when a label is there twice. *)
Definition make_label2onehot (labels : list string)
  : option ((string → nat) * list (list Z)) :=
  if decide (NoDup labels) then Some (label2int labels, one_hot_rows (length labels))
  else None.

(** [label2onehot = lambda label: OH[label2int.lookup(label)]]; an index
    out of bounds is an error of the slice. *)
Definition label2onehot (labels : list string) (label : string)
  : option (list Z) :=
  '(label2int, OH) ← make_label2onehot labels;
  OH !! label2int label.

(** ** The callbacks of the model ([Train.create_model], lines 86 to 113) *)

(** The keys of the experiment config that [create_model] reads, the
    sub-configs dictionaries when they are there. *)
Record model_config : Type := mk_model_config {
  cfg_tensorboard : option (gmap string pyval);
  cfg_checkpoints : option (gmap string pyval);
  cfg_early_stopping : option pyval
}.

Record callbacks : Type := mk_callbacks {
  cb_checkpoints : gmap string pyval;
  cb_early_stopping : pyval;
  cb_tensorboard : gmap string pyval
}.

Section create_model.
(** [os.path.join] of two paths. *)
Variable path_join : string → string → string.

(** [get_checkpoint_dir()] *)
Definition get_checkpoint_dir (cache_dir model_id : string) : string :=
  let model_cache_dir := path_join cache_dir model_id in
  path_join model_cache_dir "checkpoints".

(** [dict(defaults, **given)] *)
Definition dict_with (defaults given : gmap string pyval) : gmap string pyval :=
  given ∪ defaults.

(** Lines 91 to 113 of [create_model]: the arguments for the callbacks of
    the model, and the config afterwards, for [now_str], the time as a
    string. *)
Definition callbacks_kwargs (cache_dir model_id now_str : string)
    (config : model_config) : result (callbacks * model_config) :=
  let model_cache_dir := path_join cache_dir model_id in
  let tensorboard_log_dir :=
    path_join (path_join model_cache_dir "tensorboard") "logs" in
  let tensorboard_dir := path_join tensorboard_log_dir now_str in
  let default_tensorboard_config : gmap string pyval :=
    <["log_dir" := PStr tensorboard_dir]>
      (<["profile_batch" := PInt 0]> {["histogram_freq" := PInt 1]}) in
  let tensorboard_config :=
    dict_with default_tensorboard_config (default ∅ (cfg_tensorboard config)) in
  let checkpoint_dir := get_checkpoint_dir cache_dir model_id in
  let popped :=
    match cfg_checkpoints config with
    | Some checkpoints =>
        match checkpoints !! "format" with
        | Some format => (format, Some (delete "format" checkpoints))
        | None => (PStr "epoch{epoch:06d}.hdf5", Some checkpoints)
        end
    | None => (PStr "epoch{epoch:06d}.hdf5", None)
    end in
  match popped.1 with
  | PStr checkpoint_format =>
      let default_checkpoints_config : gmap string pyval :=
        {["filepath" := PStr (path_join checkpoint_dir checkpoint_format)]} in
      let checkpoints_config :=
        dict_with default_checkpoints_config (default ∅ popped.2) in
      Ok (mk_callbacks checkpoints_config
                       (default PNone (cfg_early_stopping config))
                       tensorboard_config,
          mk_model_config (cfg_tensorboard config) popped.2
                          (cfg_early_stopping config))
  | _ => Raise TypeError
  end.
End create_model.

(** Whitespace for examples: the space and the line feed. *)
Definition example_isspace (c : Ascii.ascii) : bool :=
  bool_decide (c = Ascii.ascii_of_nat 32 ∨ c = Ascii.ascii_of_nat 10).

Example partition_11_3 :
  partition_into_sequences (mk_ndarray [3; 2] [1; 2; 3; 4; 5; 6]%Z) 2
  = Ok (mk_ndarray [2; 2; 2] [1; 2; 3; 4; 5; 6; 0; 0]%Z).
Proof. reflexivity. Qed.

(** ** Sequence partition *)

Lemma Zdiv_round_up (a b : Z) :
  (0 < b)%Z → (- (- a / b) = (a + b - 1) / b)%Z.
Proof.
  intros Hb.
  pose proof (Z.div_mod (- a) b ltac:(lia)) as H1.
  pose proof (Z.mod_pos_bound (- a) b Hb) as H2.
  apply Z.div_unique with (r := (b - 1 - (- a) mod b)%Z); [lia|].
  nia.
Qed.

Lemma Qceiling_ratio (a : Z) (p : positive) :
  Qceiling (inject_Z a / inject_Z (Zpos p)) = ((a + Zpos p - 1) / Zpos p)%Z.
Proof.
  unfold Qceiling, Qdiv, Qmult, Qinv, inject_Z, Qopp, Qfloor. simpl.
  rewrite Z.mul_1_r. apply Zdiv_round_up. lia.
Qed.

Lemma num_sequences_ceil (r : nat) (l : Z) :
  (1 ≤ l)%Z →
  Z.to_nat ((Z.of_nat r + l - 1) / l) = ceil_ratio r (Z.to_nat l).
Proof.
  intros Hl. unfold ceil_ratio. rewrite Z2Nat.id by lia.
  destruct l as [|p|p]; try lia.
  by rewrite Qceiling_ratio.
Qed.

Lemma ceil_ratio_covers (r : nat) (l : Z) :
  (1 ≤ l)%Z → r ≤ ceil_ratio r (Z.to_nat l) * Z.to_nat l.
Proof.
  intros Hl. rewrite <- num_sequences_ceil by done.
  pose proof (Z.div_mod (Z.of_nat r + l - 1) l ltac:(lia)) as H1.
  pose proof (Z.mod_pos_bound (Z.of_nat r + l - 1) l ltac:(lia)) as H2.
  assert (0 ≤ (Z.of_nat r + l - 1) / l)%Z by (apply Z.div_pos; lia).
  nia.
Qed.

Lemma ceil_ratio_least (r : nat) (l : Z) (m : nat) :
  (1 ≤ l)%Z → r ≤ m * Z.to_nat l → ceil_ratio r (Z.to_nat l) ≤ m.
Proof.
  intros Hl Hm. rewrite <- num_sequences_ceil by done.
  assert ((Z.of_nat r + l - 1) / l ≤ Z.of_nat m)%Z; [|lia].
  apply Z.lt_succ_r, Z.div_lt_upper_bound; nia.
Qed.

Lemma sum_squares_app (l1 l2 : list Z) :
  sum_squares (l1 ++ l2) = (sum_squares l1 + sum_squares l2)%Z.
Proof.
  induction l1 as [|x l1 IH]; simpl; [done|]. rewrite IH. lia.
Qed.

Lemma sum_squares_zeros (n : nat) : sum_squares (replicate n 0%Z) = 0%Z.
Proof. induction n as [|n IH]; simpl; [done|]. by rewrite IH. Qed.

(** C1.  For a matrix of r rows and c columns and a sequence length
    L >= 1, [partition_into_sequences] returns an array of shape
    (ceil(r/L), L, c) whose entries in row-major order are the entries of
    the matrix in row-major order followed by zeros: entry (i, j, k) is
    entry (i*L + j, k) of the matrix where that row exists and zero
    elsewhere.  The sum of squares is that of the matrix, and the last
    dimension of the result is the number of columns of the matrix. *)
Theorem partition_into_sequences_spec (d : ndarray) (r c : nat) (l : Z) :
  shape d = [r; c] → wf_ndarray d → (1 ≤ l)%Z →
  ∃ p : ndarray,
    partition_into_sequences d l = Ok p
    ∧ shape p = [ceil_ratio r (Z.to_nat l); Z.to_nat l; c]
    ∧ wf_ndarray p
    ∧ data p = data d ++ replicate (length (data p) - r * c) 0%Z
    ∧ (∀ i j k : nat,
         i < ceil_ratio r (Z.to_nat l) → j < Z.to_nat l → k < c →
         get3 p i j k =
           if decide (i * Z.to_nat l + j < r)
           then get2 d (i * Z.to_nat l + j) k else Some 0%Z)
    ∧ frobenius_sq p = frobenius_sq d
    ∧ shape p !! 2 = shape d !! 1.
Proof.
  intros Hshape Hwf Hl.
  assert (length (data d) = r * c) as Hlen.
  { unfold wf_ndarray in Hwf. rewrite Hshape in Hwf. simpl in Hwf. lia. }
  pose proof (ceil_ratio_covers r l Hl) as Hcover.
  set (n := ceil_ratio r (Z.to_nat l)) in *.
  set (ln := Z.to_nat l) in *.
  assert (partition_into_sequences d l
          = Ok (mk_ndarray [n; ln; c] (resize (n * (ln * (c * 1))) 0%Z (data d))))
    as Hrun.
  { unfold partition_into_sequences, ndim, ndarray_resize.
    rewrite Hshape. simpl.
    rewrite decide_False by lia.
    rewrite decide_True.
    - simpl. rewrite num_sequences_ceil by done. by rewrite Nat2Z.id.
    - repeat constructor; try lia. apply Z.div_pos; lia. }
  eexists. split; [exact Hrun|]. simpl.
  assert (r * c ≤ n * (ln * (c * 1))) as Hsize by nia.
  assert (resize (n * (ln * (c * 1))) 0%Z (data d)
          = data d ++ replicate (n * (ln * (c * 1)) - r * c) 0%Z) as Hdata.
  { rewrite resize_ge by lia. by rewrite Hlen. }
  split_and!.
  - done.
  - unfold wf_ndarray. simpl. by rewrite length_resize.
  - by rewrite length_resize.
  - intros i j k Hi Hj Hk. unfold get3, get2. simpl. rewrite Hshape.
    rewrite decide_True by done. rewrite Hdata.
    destruct (decide (i * ln + j < r)) as [Hin|Hout].
    + rewrite decide_True by done. apply lookup_app_l. nia.
    + assert (i * ln + j + 1 ≤ n * ln) as Hrow by nia.
      assert ((i * ln + j + 1) * c ≤ n * ln * c) as Hflat
        by (apply Nat.mul_le_mono_r; exact Hrow).
      rewrite lookup_app_r by nia. apply lookup_replicate_2. nia.
  - unfold frobenius_sq. simpl. rewrite Hdata, sum_squares_app, sum_squares_zeros. lia.
  - by rewrite Hshape.
Qed.

(** The first dimension of C1 is the ceiling: the least number of
    sequences of length L that hold r rows. *)
Lemma ceil_ratio_is_least_cover (r : nat) (l : Z) :
  (1 ≤ l)%Z →
  r ≤ ceil_ratio r (Z.to_nat l) * Z.to_nat l
  ∧ ∀ m : nat, r ≤ m * Z.to_nat l → ceil_ratio r (Z.to_nat l) ≤ m.
Proof.
  intros Hl. split; [by apply ceil_ratio_covers|].
  intros m. by apply ceil_ratio_least.
Qed.

Lemma partition_into_sequences_witness :
  ∃ p : ndarray,
    partition_into_sequences (mk_ndarray [3; 2] [1; 2; 3; 4; 5; 6]%Z) 2 = Ok p
    ∧ shape p = [2; 2; 2]
    ∧ data p = [1; 2; 3; 4; 5; 6; 0; 0]%Z.
Proof.
  destruct (partition_into_sequences_spec
              (mk_ndarray [3; 2] [1; 2; 3; 4; 5; 6]%Z) 3 2 2)
    as (p & Hp & Hs & _ & Hd & _); [reflexivity | reflexivity | lia |].
  exists p. split; [exact Hp|].
  vm_compute in Hp. injection Hp as <-. split; reflexivity.
Defined.

(** ** The sliding window *)

Lemma window_loop_yield (b : nat) (o : positive) (wav : wav_t) :
  b < length wav →
  window_loop b o wav
  = (take b wav :: (window_loop b o (drop (Pos.to_nat o) wav)).1,
     (window_loop b o (drop (Pos.to_nat o) wav)).2).
Proof.
  intros Hlt. rewrite (window_loop_equation_1 b o wav).
  destruct (decide (b < length wav)); [done | lia].
Qed.

Lemma window_loop_stop (b : nat) (o : positive) (wav : wav_t) :
  length wav ≤ b → window_loop b o wav = ([], wav).
Proof.
  intros Hle. rewrite (window_loop_equation_1 b o wav).
  destruct (decide (b < length wav)); [lia | done].
Qed.

(** The loop yields the windows that start at 0, o, 2o, ... for as long as
    more than b samples remain, and leaves what remains then. *)
Lemma window_loop_spec (b : nat) (o : positive) (wav : wav_t) :
  ∃ n : nat,
    (window_loop b o wav).1
    = (λ k, py_slice (k * Pos.to_nat o) (k * Pos.to_nat o + b) wav) <$> seq 0 n
    ∧ (window_loop b o wav).2 = drop (n * Pos.to_nat o) wav
    ∧ (∀ k, k < n → b < length (drop (k * Pos.to_nat o) wav))
    ∧ length (drop (n * Pos.to_nat o) wav) ≤ b.
Proof.
  remember (length wav) as m eqn:Hm. revert wav Hm.
  induction m as [m IH] using lt_wf_ind. intros wav ->.
  destruct (decide (b < length wav)) as [Hlt|Hge].
  - destruct (IH (length (drop (Pos.to_nat o) wav))) with (wav := drop (Pos.to_nat o) wav)
      as (n & Hys & Hrest & Hmore & Hlast); [rewrite length_drop; lia | done |].
    exists (S n). rewrite window_loop_yield by done. simpl.
    split_and!.
    + f_equal.
      * unfold py_slice. simpl. by rewrite Nat.sub_0_r.
      * rewrite Hys, <- fmap_S_seq, <- list_fmap_compose.
        apply list_fmap_ext. intros _ k _. simpl. unfold py_slice.
        rewrite drop_drop. f_equal; lia.
    + rewrite Hrest, drop_drop. f_equal; lia.
    + intros [|k] Hk; [done|].
      specialize (Hmore k ltac:(lia)). rewrite drop_drop in Hmore.
      by replace (S k * Pos.to_nat o) with (Pos.to_nat o + k * Pos.to_nat o) by lia.
    + rewrite drop_drop in Hlast.
      by replace (S n * Pos.to_nat o) with (Pos.to_nat o + n * Pos.to_nat o) by lia.
  - exists 0. rewrite window_loop_stop by lia. simpl. split_and!; [done | done | intros; lia | rewrite drop_0; lia].
Qed.

Lemma window_loop_lengths (b : nat) (o : positive) (wav : wav_t) :
  Forall (λ u, length u = b) (window_loop b o wav).1.
Proof.
  destruct (window_loop_spec b o wav) as (n & -> & _ & Hmore & _).
  apply Forall_fmap, Forall_forall. intros k Hk.
  apply elem_of_seq in Hk. simpl. unfold py_slice.
  rewrite length_take. specialize (Hmore k ltac:(lia)). lia.
Qed.

Lemma window_loop_rest (b : nat) (o : positive) (wav : wav_t) :
  length (window_loop b o wav).2 ≤ b.
Proof.
  by destruct (window_loop_spec b o wav) as (n & _ & -> & _ & Hlast).
Qed.

(** X5.  When the step is not longer than the window, no sample is lost:
    the sample at position j is in the window that starts at (j / o) * o,
    or it is in what remains when the loop ends. *)
Lemma window_loop_covers (b : nat) (o : positive) (wav : wav_t) (j : nat) (x : Z) :
  Pos.to_nat o ≤ b →
  wav !! j = Some x →
  (∃ u : wav_t,
     (window_loop b o wav).1 !! (j / Pos.to_nat o) = Some u
     ∧ u !! (j mod Pos.to_nat o) = Some x)
  ∨ (window_loop b o wav).2
      !! (j - length (window_loop b o wav).1 * Pos.to_nat o) = Some x
    ∧ length (window_loop b o wav).1 * Pos.to_nat o ≤ j.
Proof.
  intros Hstep Hj.
  destruct (window_loop_spec b o wav) as (n & Hys & Hrest & _ & _).
  rewrite Hys, Hrest, length_fmap, length_seq.
  pose proof (Pos2Nat.is_pos o) as Ho.
  pose proof (Nat.div_mod j (Pos.to_nat o) ltac:(lia)) as Hdiv.
  pose proof (Nat.mod_upper_bound j (Pos.to_nat o) ltac:(lia)) as Hmod.
  destruct (decide (j < n * Pos.to_nat o)) as [Hin|Hout].
  - left.
    exists (py_slice (j / Pos.to_nat o * Pos.to_nat o)
                     (j / Pos.to_nat o * Pos.to_nat o + b) wav).
    split.
    + rewrite list_lookup_fmap, lookup_seq_lt; [done|].
      apply Nat.Div0.div_lt_upper_bound; lia.
    + unfold py_slice. rewrite lookup_take_lt by lia.
      rewrite lookup_drop, <- Hj. f_equal. lia.
  - right. split; [|lia]. rewrite lookup_drop, <- Hj. f_equal. lia.
Qed.

(** ** Utterances of a dataset *)

Section utterances_facts.
Context {sys : System}.

(** One file, by cases: the buffer that is merged with the signal, the two
    assertions, the windows. *)
Lemma file_to_utterances_cases (len off : Q) (vad slide : bool)
    (st : gmap string wav_t) (label path : string) :
  file_to_utterances len off vad slide st label path
  = match (if slide then st !! label else Some []) with
    | None => ([], Raise KeyError)
    | Some carry =>
        let b := int_rate_ms (file_rate path) len in
        let o := int_rate_ms (file_rate path) off in
        if decide (0 < b ∧ 0 < o)%Z then
          let r := window_loop (Z.to_nat b) (Z.to_pos o) (carry ++ file_wav vad path) in
          ((λ u, (label, (u, file_rate path))) <$> r.1,
           Ok (<[label := if slide then r.2 else []]> st))
        else ([], Raise AssertionError)
    end.
Proof.
  unfold file_to_utterances, file_rate, file_wav.
  destruct (read_wavfile path) as [wav rate] eqn:Hread. simpl.
  destruct slide; [destruct (st !! label) as [carry|]; [|done]|]; simpl.
  all: destruct (int_rate_ms rate len) as [|b|b] eqn:Hb;
    destruct (int_rate_ms rate off) as [|o|o] eqn:Ho; simpl;
    repeat case_decide; try lia; try done.
  all: by destruct vad.
Qed.

Lemma file_to_utterances_yields (len off : Q) (vad slide : bool)
    (st : gmap string wav_t) (label path : string) (y : string * utterance) :
  y ∈ (file_to_utterances len off vad slide st label path).1 →
  y.1 = label ∧ y.2.2 = file_rate path
  ∧ Z.of_nat (length y.2.1) = int_rate_ms (file_rate path) len.
Proof.
  rewrite file_to_utterances_cases.
  destruct (if slide then st !! label else Some []) as [carry|]; simpl;
    [|by intros ?%elem_of_nil].
  case_decide as Hpos; simpl; [|by intros ?%elem_of_nil].
  intros (u & -> & Hu)%list_elem_of_fmap. simpl.
  pose proof (window_loop_lengths (Z.to_nat (int_rate_ms (file_rate path) len))
                (Z.to_pos (int_rate_ms (file_rate path) off))
                (carry ++ file_wav vad path)) as Hall.
  rewrite Forall_forall in Hall. rewrite (Hall u Hu). split_and!; [done | done | lia].
Qed.

Lemma files_to_utterances_yields (len off : Q) (vad slide : bool)
    (files : list (string * string)) (st : gmap string wav_t)
    (y : string * utterance) :
  y ∈ (files_to_utterances len off vad slide st files).1 →
  ∃ (i : nat) (path : string),
    files !! i = Some (y.1, path)
    ∧ y.2.2 = file_rate path
    ∧ Z.of_nat (length y.2.1) = int_rate_ms (file_rate path) len.
Proof.
  revert st. induction files as [|[label path] files IH]; intros st; simpl.
  - by intros ?%elem_of_nil.
  - destruct (file_to_utterances len off vad slide st label path) as [ys r] eqn:Hfile.
    assert (y ∈ ys → ∃ (i : nat) (path0 : string),
               ((label, path) :: files) !! i = Some (y.1, path0)
               ∧ y.2.2 = file_rate path0
               ∧ Z.of_nat (length y.2.1) = int_rate_ms (file_rate path0) len) as Hhere.
    { intros Hy. exists 0, path.
      destruct (file_to_utterances_yields len off vad slide st label path y)
        as (-> & ? & ?); [by rewrite Hfile | done]. }
    destruct r as [st'|e]; simpl; [|done].
    specialize (IH st').
    destruct (files_to_utterances len off vad slide st' files) as [zs e]. simpl in *.
    intros [Hy|Hy]%elem_of_app; [by apply Hhere|].
    destruct (IH Hy) as (i & path0 & ? & ? & ?). by exists (S i), path0.
Qed.

End utterances_facts.


Section window_facts.
Context {sys : System}.

Lemma files_to_utterances_one (len off : Q) (vad slide : bool)
    (st : gmap string wav_t) (label path : string) :
  files_to_utterances len off vad slide st [(label, path)]
  = match file_to_utterances len off vad slide st label path with
    | (ys, Ok _) => gen_done ys
    | (ys, Raise e) => gen_raise ys e
    end.
Proof.
  simpl. destruct (file_to_utterances len off vad slide st label path) as [ys [st'|e]];
    [|done].
  unfold gen_done. by rewrite app_nil_r.
Qed.

(** C4.  With [slide_over_all=False] and both assertions passing, the
    utterances yielded from a file are, in order, the windows
    wav[k*o : k*o + b] for k = 0, 1, ..., n - 1, where every remaining
    signal wav[k*o:] with k < n has more than b samples and wav[n*o:] has
    at most b samples, which are not yielded.  This holds for the file
    wherever it stands in the dataset, and for a dataset of one file these
    are all the utterances. *)
Theorem windows_of_file (len off : Q) (vad : bool)
    (st : gmap string wav_t) (label path : string) :
  let rate := file_rate path in
  let wav := file_wav vad path in
  let b := Z.to_nat (int_rate_ms rate len) in
  let o := Z.to_nat (int_rate_ms rate off) in
  (0 < int_rate_ms rate len)%Z → (0 < int_rate_ms rate off)%Z →
  ∃ n : nat,
    (file_to_utterances len off vad false st label path).1
    = (λ k, (label, (py_slice (k * o) (k * o + b) wav, rate))) <$> seq 0 n
    ∧ speech_dataset_to_utterances [label] [path] len off vad false
      = gen_done ((λ k, (label, (py_slice (k * o) (k * o + b) wav, rate))) <$> seq 0 n)
    ∧ (∀ k, k < n → b < length (drop (k * o) wav))
    ∧ length (drop (n * o) wav) ≤ b.
Proof.
  intros rate wav b o Hb Ho.
  assert (∀ st0, file_to_utterances len off vad false st0 label path
          = ((λ u, (label, (u, rate)))
               <$> (window_loop b (Z.to_pos (int_rate_ms rate off)) wav).1,
             Ok (<[label := []]> st0))) as Hfile.
  { intros st0. rewrite file_to_utterances_cases. simpl.
    by rewrite decide_True by done. }
  destruct (window_loop_spec b (Z.to_pos (int_rate_ms rate off)) wav)
    as (n & Hys & _ & Hmore & Hlast).
  assert (Pos.to_nat (Z.to_pos (int_rate_ms rate off)) = o) as Hstep.
  { subst o. by destruct (int_rate_ms rate off). }
  rewrite Hstep in *.
  assert ((λ u, (label, (u, rate)))
            <$> (window_loop b (Z.to_pos (int_rate_ms rate off)) wav).1
          = (λ k, (label, (py_slice (k * o) (k * o + b) wav, rate))) <$> seq 0 n)
    as Hlist.
  { rewrite Hys, <- list_fmap_compose. done. }
  exists n. split_and!; [| |done|done].
  - by rewrite Hfile.
  - unfold speech_dataset_to_utterances. simpl zip.
    rewrite files_to_utterances_one, Hfile. by rewrite Hlist.
Qed.
End window_facts.

Lemma windows_of_file_witness :
  ∃ n : nat,
    (file_to_utterances (sys := example_system) 2000 1000 false false ∅
       "en" "speech.wav").1
    = (λ k, ("en", (py_slice (k * 2) (k * 2 + 4) [1; 2; 3; 4; 5; 6; 7; 8; 9; 10]%Z,
                    2%Z))) <$> seq 0 n
    ∧ n = 3.
Proof.
  destruct (windows_of_file (sys := example_system) 2000 1000 false ∅
              "en" "speech.wav") as (n & Hys & _ & Hmore & Hlast);
    [reflexivity | reflexivity |].
  exists n. split; [exact Hys|].
  vm_compute in Hlast. pose proof (Hmore 2) as H2. vm_compute in H2.
  destruct n as [|[|[|[|n]]]]; try reflexivity; exfalso.
  - vm_compute in Hlast. lia.
  - vm_compute in Hlast. lia.
  - vm_compute in Hlast. lia.
  - specialize (Hmore 3 ltac:(lia)). vm_compute in Hmore. lia.
Defined.

(** With a step that is not longer than the window the loop loses no
    sample: the signal is the first o samples of every window, in order,
    followed by what remains. *)
Lemma window_loop_reassemble (b : nat) (o : positive) (wav : wav_t) :
  Pos.to_nat o ≤ b →
  concat (take (Pos.to_nat o) <$> (window_loop b o wav).1) ++ (window_loop b o wav).2
  = wav.
Proof.
  intros Hstep.
  remember (length wav) as m eqn:Hm. revert wav Hm.
  induction m as [m IH] using lt_wf_ind. intros wav ->.
  pose proof (Pos2Nat.is_pos o) as Ho.
  destruct (decide (b < length wav)) as [Hlt|Hge].
  - rewrite window_loop_yield by done. simpl.
    rewrite take_take, Nat.min_l by lia.
    rewrite <- app_assoc.
    rewrite (IH (length (drop (Pos.to_nat o) wav))); [apply take_drop | | done].
    rewrite length_drop. lia.
  - by rewrite window_loop_stop by lia.
Qed.

Section buffer_facts.
Context {sys : System}.

Lemma speech_dataset_to_utterances_unfold (labels paths : list string)
    (len off : Q) (vad slide : bool) :
  speech_dataset_to_utterances labels paths len off vad slide
  = files_to_utterances len off vad slide (initial_buffers labels) (zip labels paths).
Proof. reflexivity. Qed.

(** One file whose window and step are positive, and whose label has a
    buffer: the windows over the merged signal, and the new buffers. *)
Lemma file_to_utterances_Ok (len off : Q) (vad slide : bool)
    (st : gmap string wav_t) (label path : string) (carry : wav_t) :
  (if slide then st !! label else Some []) = Some carry →
  (0 < int_rate_ms (file_rate path) len)%Z →
  (0 < int_rate_ms (file_rate path) off)%Z →
  file_to_utterances len off vad slide st label path
  = let r := window_loop (Z.to_nat (int_rate_ms (file_rate path) len))
               (Z.to_pos (int_rate_ms (file_rate path) off))
               (carry ++ file_wav vad path) in
    ((λ u, (label, (u, file_rate path))) <$> r.1,
     Ok (<[label := if slide then r.2 else []]> st)).
Proof.
  intros Hcarry Hb Ho. rewrite file_to_utterances_cases, Hcarry. simpl.
  by rewrite decide_True.
Qed.

Lemma buffers_after_app (len off : Q) (vad slide : bool)
    (fs1 fs2 : list (string * string)) (st : gmap string wav_t) :
  buffers_after len off vad slide st (fs1 ++ fs2)
  = let! st1 := buffers_after len off vad slide st fs1 in
    buffers_after len off vad slide st1 fs2.
Proof.
  revert st. induction fs1 as [|[label path] fs1 IH]; intros st; simpl; [done|].
  destruct (file_to_utterances len off vad slide st label path).2 as [st'|e];
    simpl; [apply IH | done].
Qed.

(** The files behind a part of the list that ran without exception start
    from the buffers that part has left. *)
Lemma files_to_utterances_app (len off : Q) (vad slide : bool)
    (fs1 fs2 : list (string * string)) (st st1 : gmap string wav_t) :
  buffers_after len off vad slide st fs1 = Ok st1 →
  files_to_utterances len off vad slide st (fs1 ++ fs2)
  = ((files_to_utterances len off vad slide st fs1).1
       ++ (files_to_utterances len off vad slide st1 fs2).1,
     (files_to_utterances len off vad slide st1 fs2).2).
Proof.
  revert st. induction fs1 as [|[label path] fs1 IH]; intros st; simpl.
  - intros [= ->]. by destruct (files_to_utterances len off vad slide st1 fs2).
  - destruct (file_to_utterances len off vad slide st label path)
      as [ys [st'|e]]; simpl; [|done].
    intros Hrest. rewrite (IH _ Hrest).
    destruct (files_to_utterances len off vad slide st' fs1) as [zs e1]. simpl.
    by rewrite app_assoc.
Qed.

Lemma buffers_after_is_Some (len off : Q) (vad slide : bool)
    (fs : list (string * string)) (st st' : gmap string wav_t) (l : string) :
  buffers_after len off vad slide st fs = Ok st' →
  is_Some (st !! l) → is_Some (st' !! l).
Proof.
  revert st. induction fs as [|[label path] fs IH]; intros st; simpl.
  - by intros [= ->].
  - rewrite file_to_utterances_cases.
    destruct (if slide then st !! label else Some []) as [carry|]; [|done].
    simpl. case_decide; simpl; [|done].
    intros Hrest Hl. apply (IH _ Hrest).
    destruct (decide (l = label)) as [->|Hne].
    + by rewrite lookup_insert_eq.
    + by rewrite lookup_insert_ne.
Qed.

(** Files of other labels leave the buffer of a label as it is. *)
Lemma buffers_after_frame (len off : Q) (vad slide : bool)
    (fs : list (string * string)) (st st' : gmap string wav_t) (l : string) :
  l ∉ fs.*1 →
  buffers_after len off vad slide st fs = Ok st' →
  st' !! l = st !! l.
Proof.
  revert st. induction fs as [|[label path] fs IH]; intros st; simpl.
  - by intros _ [= ->].
  - intros [Hne Hnotin]%not_elem_of_cons.
    rewrite file_to_utterances_cases.
    destruct (if slide then st !! label else Some []) as [carry|]; [|done].
    simpl. case_decide; simpl; [|done].
    intros Hrest. rewrite (IH _ Hnotin Hrest). by rewrite lookup_insert_ne.
Qed.

(** C9, with the step at most the window for its last part.  Take a file
    of the dataset, [(label, path)], that the loop reaches without an
    exception, with the buffers [st], and whose window b and step o are
    positive.  Then the loop gets through the file, and:
    - the window slides over [carry ++ signal], where carry is the buffer
      of the label when [slide_over_all] is true, and empty when it is
      false;
    - afterwards the buffer of the label is [rest]: what the window loop
      has left of the merged signal when [slide_over_all] is true, at most
      b samples, and the empty array when it is false; the other buffers
      are as before;
    - the run of the whole dataset yields what the files before yield,
      then the windows of this file, then what the files behind yield
      from the new buffers;
    - the next file of the label, whatever files of other labels come
      before it, finds [rest] as the buffer of its label, so that [rest] is
      what is put in front of its signal;
    - when [slide_over_all] is true and o <= b, nothing of the merged
      signal is lost: it is the first o samples of every yielded window,
      followed by [rest]. *)
Theorem carry_buffer_invariant (len off : Q) (vad slide : bool)
    (labels paths : list string) (pre post : list (string * string))
    (label path : string) (st : gmap string wav_t) :
  zip labels paths = pre ++ (label, path) :: post →
  buffers_after len off vad slide (initial_buffers labels) pre = Ok st →
  (0 < int_rate_ms (file_rate path) len)%Z →
  (0 < int_rate_ms (file_rate path) off)%Z →
  ∃ carry rest : wav_t,
    let b := Z.to_nat (int_rate_ms (file_rate path) len) in
    let o := Z.to_pos (int_rate_ms (file_rate path) off) in
    let windows := (window_loop b o (carry ++ file_wav vad path)).1 in
    (if slide then st !! label else Some []) = Some carry
    ∧ rest = (if slide then (window_loop b o (carry ++ file_wav vad path)).2
              else [])
    ∧ length rest ≤ b
    ∧ buffers_after len off vad slide (initial_buffers labels)
        (pre ++ [(label, path)]) = Ok (<[label := rest]> st)
    ∧ speech_dataset_to_utterances labels paths len off vad slide
      = ((files_to_utterances len off vad slide (initial_buffers labels) pre).1
           ++ ((λ u, (label, (u, file_rate path))) <$> windows)
           ++ (files_to_utterances len off vad slide (<[label := rest]> st) post).1,
         (files_to_utterances len off vad slide (<[label := rest]> st) post).2)
    ∧ (∀ (mid : list (string * string)) (st2 : gmap string wav_t),
         label ∉ mid.*1 →
         buffers_after len off vad slide (initial_buffers labels)
           (pre ++ (label, path) :: mid) = Ok st2 →
         st2 !! label = Some rest)
    ∧ (slide = true → Pos.to_nat o ≤ b →
       concat (take (Pos.to_nat o) <$> windows) ++ rest
       = carry ++ file_wav vad path).
Proof.
  intros Hzip Hpre Hb Ho.
  assert (∃ carry, (if slide then st !! label else Some []) = Some carry)
    as [carry Hcarry].
  { destruct slide; [|eauto].
    apply (buffers_after_is_Some _ _ _ _ _ _ _ _ Hpre).
    exists []. apply lookup_gset_to_gmap_Some. split; [|done].
    apply elem_of_list_to_set, (elem_of_zip_l label path labels paths).
    rewrite Hzip. apply elem_of_app. right. by left. }
  pose proof (file_to_utterances_Ok len off vad slide st label path carry
                Hcarry Hb Ho) as Hfile. simpl in Hfile.
  set (b := Z.to_nat (int_rate_ms (file_rate path) len)) in *.
  set (o := Z.to_pos (int_rate_ms (file_rate path) off)) in *.
  set (r := window_loop b o (carry ++ file_wav vad path)) in *.
  exists carry, (if slide then r.2 else []). simpl.
  assert (buffers_after len off vad slide (initial_buffers labels)
            (pre ++ [(label, path)])
          = Ok (<[label := if slide then r.2 else []]> st)) as Hafter.
  { rewrite buffers_after_app, Hpre. simpl. by rewrite Hfile. }
  split_and!; try done.
  - destruct slide; simpl; [apply window_loop_rest | lia].
  - rewrite speech_dataset_to_utterances_unfold, Hzip.
    rewrite (files_to_utterances_app _ _ _ _ _ _ _ _ Hpre). simpl.
    rewrite Hfile.
    destruct (files_to_utterances len off vad slide
                (<[label := if slide then r.2 else []]> st) post) as [zs e].
    done.
  - intros mid st2 Hmid Hrun.
    replace (pre ++ (label, path) :: mid) with ((pre ++ [(label, path)]) ++ mid)
      in Hrun by by rewrite <- app_assoc.
    rewrite buffers_after_app, Hafter in Hrun. simpl in Hrun.
    rewrite (buffers_after_frame _ _ _ _ _ _ _ _ Hmid Hrun).
    by rewrite lookup_insert_eq.
  - intros -> Hstep. apply (window_loop_reassemble b o _ Hstep).
Qed.
End buffer_facts.

Lemma carry_buffer_invariant_witness :
  ∃ carry rest : wav_t,
    let windows :=
      (window_loop 4 2 (carry ++ file_wav (sys := example_system) false "klmnop")).1 in
    let st : gmap string wav_t :=
      <["fi" := [1; 2; 3]%Z]>
        (<["en" := [7; 8; 9; 10]%Z]> (initial_buffers ["en"; "fi"; "en"])) in
    st !! "en" = Some carry
    ∧ rest = (window_loop 4 2
                (carry ++ file_wav (sys := example_system) false "klmnop")).2
    ∧ length rest ≤ 4
    ∧ buffers_after (sys := example_system) 2000 1000 false true
        (initial_buffers ["en"; "fi"; "en"])
        ([("en", "abcdefghij"); ("fi", "xyz")] ++ [("en", "klmnop")])
      = Ok (<["en" := rest]> st)
    ∧ speech_dataset_to_utterances (sys := example_system)
        ["en"; "fi"; "en"] ["abcdefghij"; "xyz"; "klmnop"] 2000 1000 false true
      = ((files_to_utterances (sys := example_system) 2000 1000 false true
            (initial_buffers ["en"; "fi"; "en"])
            [("en", "abcdefghij"); ("fi", "xyz")]).1
           ++ ((λ u, ("en", (u, file_rate (sys := example_system) "klmnop")))
                 <$> windows)
           ++ (files_to_utterances (sys := example_system) 2000 1000 false true
                 (<["en" := rest]> st) []).1,
         (files_to_utterances (sys := example_system) 2000 1000 false true
            (<["en" := rest]> st) []).2)
    ∧ (∀ (mid : list (string * string)) (st2 : gmap string wav_t),
         "en" ∉ mid.*1 →
         buffers_after (sys := example_system) 2000 1000 false true
           (initial_buffers ["en"; "fi"; "en"])
           ([("en", "abcdefghij"); ("fi", "xyz")] ++ ("en", "klmnop") :: mid)
         = Ok st2 →
         st2 !! "en" = Some rest)
    ∧ (true = true → Pos.to_nat 2 ≤ 4 →
       concat (take (Pos.to_nat 2) <$> windows) ++ rest
       = carry ++ file_wav (sys := example_system) false "klmnop").
Proof.
  exact (carry_buffer_invariant (sys := example_system) 2000 1000 false true
           ["en"; "fi"; "en"] ["abcdefghij"; "xyz"; "klmnop"]
           [("en", "abcdefghij"); ("fi", "xyz")] [] "en" "klmnop"
           (<["fi" := [1; 2; 3]%Z]>
              (<["en" := [7; 8; 9; 10]%Z]> (initial_buffers ["en"; "fi"; "en"])))
           eq_refl eq_refl eq_refl eq_refl).
Defined.

(** C9 as it is written fails when the step is longer than the window.
    With a window of 4 samples and a step of 10, a file of 6 samples gives
    one utterance, samples 1 to 4; [wav[10:]] is empty, so the buffer of
    the label is empty when the next file of the label is read, and
    samples 5 and 6 are in no utterance and in no buffer. *)
Lemma carry_buffer_drops_audio :
  speech_dataset_to_utterances (sys := example_system)
    ["en"; "en"] ["abcdef"; "wxyz"] 2000 5000 false true
  = gen_done [("en", ([1; 2; 3; 4]%Z, 2%Z))]
  ∧ buffers_after (sys := example_system) 2000 5000 false true
      (initial_buffers ["en"; "en"]) [("en", "abcdef")]
    = Ok {["en" := []]}
  ∧ ¬ (∀ x : Z,
         x ∈ file_wav (sys := example_system) false "abcdef" →
         (∃ y : string * utterance,
            y ∈ (speech_dataset_to_utterances (sys := example_system)
                   ["en"; "en"] ["abcdef"; "wxyz"] 2000 5000 false true).1
            ∧ x ∈ y.2.1)
         ∨ (∃ (st : gmap string wav_t) (rest : wav_t),
              buffers_after (sys := example_system) 2000 5000 false true
                (initial_buffers ["en"; "en"]) [("en", "abcdef")] = Ok st
              ∧ st !! "en" = Some rest
              ∧ x ∈ rest)).
Proof.
  assert (speech_dataset_to_utterances (sys := example_system)
            ["en"; "en"] ["abcdef"; "wxyz"] 2000 5000 false true
          = gen_done [("en", ([1; 2; 3; 4]%Z, 2%Z))]) as Hrun
    by (vm_compute; reflexivity).
  assert (buffers_after (sys := example_system) 2000 5000 false true
            (initial_buffers ["en"; "en"]) [("en", "abcdef")]
          = Ok {["en" := []]}) as Hbuf
    by (vm_compute; reflexivity).
  split_and!; [done | done |].
  intros Hall. rewrite Hrun, Hbuf in Hall.
  destruct (Hall 5%Z) as [(y & Hy & Hx) | (st & rest & Hst & Hrest & Hx)].
  - change (5%Z ∈ [1; 2; 3; 4; 5; 6]%Z). rewrite !elem_of_cons. tauto.
  - apply list_elem_of_singleton in Hy as ->. simpl in Hx.
    rewrite !elem_of_cons, elem_of_nil in Hx.
    destruct Hx as [?|[?|[?|[?|[]]]]]; discriminate.
  - injection Hst as <-. rewrite lookup_singleton_eq in Hrest.
    injection Hrest as <-. by apply elem_of_nil in Hx.
Qed.

Section assertion_facts.
Context {sys : System}.

Lemma file_to_utterances_outcome (len off : Q) (vad slide : bool)
    (st : gmap string wav_t) (label path : string) :
  is_Some (st !! label) →
  (empty_window len off path
   ∧ file_to_utterances len off vad slide st label path = ([], Raise AssertionError))
  ∨ (¬ empty_window len off path
     ∧ ∃ ys w, file_to_utterances len off vad slide st label path
               = (ys, Ok (<[label := w]> st))).
Proof.
  intros [carry Hcarry]. rewrite file_to_utterances_cases. unfold empty_window.
  replace (if slide then st !! label else Some [])
    with (Some (if slide then carry else [])) by (destruct slide; done).
  simpl. case_decide as Hpos.
  - right. split; [lia|]. eauto.
  - left. split; [lia|done].
Qed.

Lemma files_to_utterances_outcome (len off : Q) (vad slide : bool)
    (files : list (string * string)) (st : gmap string wav_t) :
  Forall (λ f, is_Some (st !! f.1)) files →
  ((files_to_utterances len off vad slide st files).2 = Some AssertionError
   ↔ Exists (λ f, empty_window len off f.2) files)
  ∧ ((files_to_utterances len off vad slide st files).2 = None
     ↔ Forall (λ f, ¬ empty_window len off f.2) files).
Proof.
  revert st. induction files as [|[label path] files IH]; intros st Hdom; simpl.
  - split; split; try done. by intros ?%Exists_nil.
  - apply Forall_cons in Hdom as [Hlabel Hdom]. simpl in Hlabel.
    rewrite Exists_cons, Forall_cons. simpl.
    destruct (file_to_utterances_outcome len off vad slide st label path Hlabel)
      as [[Hbad ->]|[Hgood (ys & w & ->)]]; simpl.
    + split; split; try done; [by left | by intros [? _]].
    + destruct (IH (<[label := w]> st)) as [IH1 IH2].
      { eapply Forall_impl; [exact Hdom|]. simpl. intros f Hf.
        apply lookup_insert_is_Some. destruct (decide (label = f.1)); auto. }
      destruct (files_to_utterances len off vad slide (<[label := w]> st) files)
        as [zs e]. simpl in *.
      split.
      * rewrite IH1. split; [by right | by intros [?|?]].
      * rewrite IH2. split; [done | by intros [_ ?]].
Qed.

(** C10.  [speech_dataset_to_utterances] ends in an [AssertionError]
    exactly when, for some file and its sample rate,
    int(rate * utterance_length_ms * 1e-3) <= 0 or
    int(rate * utterance_offset_ms * 1e-3) <= 0; when both are positive for
    every file it ends without an exception, and it raises nothing else.
    The file that is being processed raises exactly when its own two
    values are not both positive. *)
Theorem assertion_error_iff (labels paths : list string) (len off : Q)
    (vad slide : bool) :
  let r := speech_dataset_to_utterances labels paths len off vad slide in
  (r.2 = Some AssertionError
   ↔ Exists (λ f, empty_window len off f.2) (zip labels paths))
  ∧ (r.2 = None ↔ Forall (λ f, ¬ empty_window len off f.2) (zip labels paths))
  ∧ (r.2 = None ∨ r.2 = Some AssertionError)
  ∧ (∀ (st : gmap string wav_t) (label path : string),
       is_Some (st !! label) →
       ((file_to_utterances len off vad slide st label path).2 = Raise AssertionError
        ↔ empty_window len off path)).
Proof.
  intros r.
  assert (Forall (λ f : string * string,
            is_Some ((gset_to_gmap [] (list_to_set labels) : gmap string wav_t) !! f.1))
            (zip labels paths)) as Hdom.
  { apply Forall_forall. intros [l p] Hin. simpl.
    exists []. apply lookup_gset_to_gmap_Some. split; [|done].
    apply elem_of_list_to_set.
    apply list_elem_of_lookup in Hin as [i Hi].
    apply lookup_zip_with_Some in Hi as (l' & p' & [= <- <-] & Hl & _).
    by eapply list_elem_of_lookup_2. }
  destruct (files_to_utterances_outcome len off vad slide _ _ Hdom) as [H1 H2].
  fold (speech_dataset_to_utterances labels paths len off vad slide) in H1, H2.
  fold r in H1, H2.
  split_and!; [done | done | |].
  - destruct (decide (Forall (λ f, ¬ empty_window len off f.2) (zip labels paths)))
      as [Hall|Hsome].
    + left. by apply H2.
    + right. apply H1. apply not_Forall_Exists in Hsome; [|solve_decision].
      eapply Exists_impl; [exact Hsome|]. simpl. intros f Hf.
      by apply dec_stable in Hf.
  - intros st label path Hlabel.
    destruct (file_to_utterances_outcome len off vad slide st label path Hlabel)
      as [[Hbad ->]|[Hgood (ys & w & ->)]]; simpl; split; done.
Qed.
End assertion_facts.

(** A window of 100 ms at 2 samples per second has no samples. *)
Example assertion_error_example :
  speech_dataset_to_utterances (sys := example_system)
    ["en"; "fi"] ["speech.wav"; "puhe.wav"] 100 1000 false true
  = ([], Some AssertionError).
Proof. reflexivity. Qed.

(** With a window of 2 s and a step of 1 s a file of ten samples gives
    three utterances; the four samples that remain go to the next file of
    the label, where they are the fourth utterance.  The four samples
    that remain then are not more than a window and are not yielded. *)
Example sliding_example :
  speech_dataset_to_utterances (sys := example_system)
    ["en"; "en"] ["speech.wav"; "ab"] 2000 1000 false true
  = ([("en", ([1; 2; 3; 4]%Z, 2%Z)); ("en", ([3; 4; 5; 6]%Z, 2%Z));
      ("en", ([5; 6; 7; 8]%Z, 2%Z)); ("en", ([7; 8; 9; 10]%Z, 2%Z))], None).
Proof. reflexivity. Qed.

(** ** Features of utterances *)

Lemma and_then_Ok {A B : Type} (r : result A) (f : A → result B) (b : B) :
  and_then r f = Ok b ↔ ∃ a, r = Ok a ∧ f a = Ok b.
Proof.
  destruct r as [a|e]; simpl; split.
  - intros Hf. by exists a.
  - by intros (a' & [= ->] & Hf).
  - done.
  - by intros (a' & ? & _).
Qed.

Ltac and_then_inv H :=
  repeat (let a := fresh "v" in
          let Ha := fresh "Hv" in
          apply and_then_Ok in H as (a & Ha & H)).

Lemma ndarray_setitem_zeros (n : nat) (i : Z) (a : ndarray) :
  ndarray_setitem (np_zeros n) i 1 = Ok a →
  ∃ pos : nat,
    pos < n
    ∧ (Z.of_nat pos = i ∨ Z.of_nat pos = (Z.of_nat n + i)%Z)
    ∧ shape a = [n]
    ∧ data a = <[pos := 1%Z]> (replicate n 0%Z).
Proof.
  unfold ndarray_setitem, np_zeros. simpl. rewrite length_replicate.
  repeat case_decide; intros [= <-]; simpl.
  - exists (Z.to_nat i). split_and!; [lia | left; lia | done | done].
  - exists (Z.to_nat (Z.of_nat n + i)). split_and!; [lia | right; lia | done | done].
Qed.

Lemma partition_into_sequences_Ok (d p : ndarray) (l : Z) :
  partition_into_sequences d l = Ok p →
  ∃ r c : nat,
    shape d = [r; c] ∧ (1 ≤ l)%Z
    ∧ shape p = [Z.to_nat ((Z.of_nat r + l - 1) / l); Z.to_nat l; c].
Proof.
  unfold partition_into_sequences, ndim, ndarray_resize.
  destruct (shape d) as [|r [|c [|? ?]]] eqn:Hshape; simpl;
    repeat case_decide; try done.
  intros [= <-]. exists r, c. simpl. rewrite Nat2Z.id.
  split_and!; try done.
  match goal with Hall : Forall _ _ |- _ =>
    apply Forall_cons in Hall as [_ [Hl _]%Forall_cons] end. lia.
Qed.

Section features_facts.
Context {feat : Features}.

Lemma utterance_to_features_yields (label_to_index : gmap string Z)
    (extractors : list pyval) (sequence_length : Z) (label : string)
    (utt : utterance) (ys : list (ndarray * ndarray)) (sequence onehot : ndarray) :
  utterance_to_features label_to_index extractors sequence_length label utt = Ok ys →
  (sequence, onehot) ∈ ys →
  yielded_from label_to_index extractors sequence_length label utt sequence onehot.
Proof.
  unfold utterance_to_features. intros Hrun Hin.
  and_then_inv Hrun. injection Hrun as <-.
  rename v into index, v0 into oh, v1 into extractor, v2 into name,
    v3 into kwargs, v4 into feats, v5 into sequences, v6 into seqs.
  apply list_elem_of_fmap in Hin as (sq & [= <- <-] & Hsq).
  destruct (label_to_index !! label) as [index'|] eqn:Hindex; [|done].
  injection Hv as ->.
  destruct (head extractors) as [extractor'|] eqn:Hhead; [|done].
  injection Hv1 as ->.
  apply ndarray_setitem_zeros in Hv0 as (pos & Hpos & Hidx & Hshape & Hdata).
  destruct (partition_into_sequences_Ok _ _ _ Hv5) as (r & c & Hfeats & Hl & Hseqs).
  unfold ndarray_iter in Hv6. rewrite Hseqs in Hv6. injection Hv6 as <-.
  apply list_elem_of_fmap in Hsq as (i & -> & Hi%elem_of_seq).
  exists extractor, name, kwargs, feats, sequences, index.
  split_and!; try done.
  - exists (Z.to_nat ((Z.of_nat r + sequence_length - 1) / sequence_length)), c, i.
    split_and!; [done | lia | done].
  - by rewrite Hdata, length_insert, length_replicate.
  - exists pos. split_and!; try done.
    + unfold ndarray_getitem. rewrite Hdata, length_insert, length_replicate.
      destruct Hidx as [Hidx|Hidx].
      * rewrite decide_True by lia. f_equal.
        replace (Z.to_nat index) with pos by lia.
        apply list_lookup_total_correct, list_lookup_insert_eq.
        by rewrite length_replicate.
      * rewrite decide_False by lia. rewrite decide_True by lia. f_equal.
        replace (Z.to_nat (Z.of_nat (size label_to_index) + index)) with pos by lia.
        apply list_lookup_total_correct, list_lookup_insert_eq.
        by rewrite length_replicate.
    + intros j Hj. rewrite Hdata. case_decide as Hjp.
      * subst j. apply list_lookup_insert_eq. by rewrite length_replicate.
      * rewrite list_lookup_insert_ne by done. by apply lookup_replicate_2.
Qed.

(** C7.  Every pair that [utterances_to_features] yields comes from one
    of the utterances: the sequence is one of the chunks of
    [sequence_length] rows of the partition of the features extracted
    from that utterance, and the one-hot vector has [len(label_to_index)]
    entries, 1 at the index of the label and 0 everywhere else. *)
Theorem utterances_to_features_spec (utterances : gen (string * utterance))
    (label_to_index : gmap string Z) (extractors : list pyval)
    (sequence_length : Z) (sequence onehot : ndarray) :
  (sequence, onehot)
    ∈ (utterances_to_features utterances label_to_index extractors
         sequence_length).1 →
  ∃ (label : string) (utt : utterance),
    (label, utt) ∈ utterances.1
    ∧ yielded_from label_to_index extractors sequence_length label utt
        sequence onehot.
Proof.
  unfold utterances_to_features. destruct utterances as [us e]. simpl.
  case_decide; [|by intros ?%elem_of_nil].
  induction us as [|[label utt] us IH]; simpl; [by intros ?%elem_of_nil|].
  destruct (utterance_to_features label_to_index extractors sequence_length
              label utt) as [ys|err] eqn:Hone; [|by intros ?%elem_of_nil].
  destruct (utterances_loop label_to_index extractors sequence_length us e)
    as [zs e'] eqn:Hrest. simpl in *.
  intros [Hin|Hin]%elem_of_app.
  - exists label, utt. split; [by left|].
    by eapply utterance_to_features_yields.
  - destruct (IH Hin) as (label' & utt' & Hmem & Hy).
    exists label', utt'. split; [by right | done].
Qed.
End features_facts.

Lemma utterances_to_features_witness :
  (mk_ndarray [2; 1] [3; 0]%Z, mk_ndarray [2] [1; 0]%Z)
    ∈ (utterances_to_features (feat := example_features)
         (gen_done [("en", ([1; 2; 3]%Z, 2%Z))])
         (<["en" := 0%Z]> {["fi" := 1%Z]})
         [PDict {["name" := PStr "mfcc"]}] 2).1
  ∧ ∃ (label : string) (utt : utterance),
      (label, utt) ∈ [("en", ([1; 2; 3]%Z, 2%Z))]
      ∧ yielded_from (feat := example_features)
          (<["en" := 0%Z]> {["fi" := 1%Z]})
          [PDict {["name" := PStr "mfcc"]}] 2 label utt
          (mk_ndarray [2; 1] [3; 0]%Z) (mk_ndarray [2] [1; 0]%Z).
Proof.
  assert ((mk_ndarray [2; 1] [3; 0]%Z, mk_ndarray [2] [1; 0]%Z)
            ∈ (utterances_to_features (feat := example_features)
                 (gen_done [("en", ([1; 2; 3]%Z, 2%Z))])
                 (<["en" := 0%Z]> {["fi" := 1%Z]})
                 [PDict {["name" := PStr "mfcc"]}] 2).1) as Hin.
  { vm_compute. apply list_elem_of_further, list_elem_of_here. }
  split; [exact Hin|].
  exact (utterances_to_features_spec (feat := example_features)
           (gen_done [("en", ([1; 2; 3]%Z, 2%Z))])
           (<["en" := 0%Z]> {["fi" := 1%Z]})
           [PDict {["name" := PStr "mfcc"]}] 2
           (mk_ndarray [2; 1] [3; 0]%Z) (mk_ndarray [2] [1; 0]%Z) Hin).
Defined.

(** ** Dataset splits *)

Lemma filter3_Permutation {A : Type} (P Q R : A → Prop)
    `{∀ x, Decision (P x)} `{∀ x, Decision (Q x)} `{∀ x, Decision (R x)}
    (l : list A) :
  (∀ x, x ∈ l → exactly_one (P x) (Q x) (R x)) →
  filter P l ++ filter Q l ++ filter R l ≡ₚ l.
Proof.
  induction l as [|x l IH]; intros Hone; [done|].
  assert (filter P l ++ filter Q l ++ filter R l ≡ₚ l) as IH'.
  { apply IH. intros y Hy. apply Hone. by right. }
  destruct (Hone x ltac:(by left)) as [(HP & HQ & HR)|[(HP & HQ & HR)|(HP & HQ & HR)]].
  - rewrite (filter_cons_True P) by done.
    rewrite (filter_cons_False Q), (filter_cons_False R) by done.
    simpl. by rewrite IH'.
  - rewrite (filter_cons_True Q) by done.
    rewrite (filter_cons_False P), (filter_cons_False R) by done.
    simpl. rewrite <- Permutation_middle. by rewrite IH'.
  - rewrite (filter_cons_True R) by done.
    rewrite (filter_cons_False P), (filter_cons_False Q) by done.
    rewrite app_assoc, <- Permutation_middle, <- app_assoc. by rewrite IH'.
Qed.

Lemma example_sklearn_partition : split_is_partition example_sklearn.
Proof.
  intros A g g' xs tr te random_state test_size. simpl.
  case_decide; [|done]. intros [= <- <- <-].
  rewrite Permutation_app_comm, take_drop.
  unfold rotate. by rewrite Permutation_app_comm, take_drop.
Qed.

Section splits_facts.
Context {sk : Sklearn}.
Hypothesis sk_partition : split_is_partition sk.

(** Two splits in a row cut a list into three parts. *)
Lemma two_splits_Permutation {A : Type} (g g1 g2 : rng_state)
    (xs tr0 te tr va : list A) (rs : option Z) (q1 q2 : Q) :
  train_test_split g xs rs q1 = Ok (tr0, te, g1) →
  train_test_split g1 tr0 rs q2 = Ok (tr, va, g2) →
  tr ++ va ++ te ≡ₚ xs.
Proof.
  intros H1%sk_partition H2%sk_partition.
  by rewrite app_assoc, H2, H1.
Qed.

(** C5.  When sklearn can serve both splits, [dataset_split_samples]
    returns three lists that together are a rearrangement of the input:
    every input sample is in the three lists exactly as often as in the
    input.  For samples that are all different the three lists have no
    sample in common and none has a sample twice. *)
Theorem dataset_split_samples_partition {A : Type} (g g1 g2 : rng_state)
    (samples tr0 te tr va : list A) (validation_ratio test_ratio : Q)
    (random_state : option Z) :
  train_test_split g samples random_state test_ratio = Ok (tr0, te, g1) →
  Qeq_bool (1 - test_ratio) 0 = false →
  train_test_split g1 tr0 random_state (validation_ratio / (1 - test_ratio))
  = Ok (tr, va, g2) →
  ∃ s : split A,
    dataset_split_samples g samples validation_ratio test_ratio random_state
    = Ok (s, g2)
    ∧ training s ++ validation s ++ test s ≡ₚ samples
    ∧ (NoDup samples →
       NoDup (training s) ∧ NoDup (validation s) ∧ NoDup (test s)
       ∧ (∀ x, x ∈ training s → x ∉ validation s)
       ∧ (∀ x, x ∈ training s → x ∉ test s)
       ∧ (∀ x, x ∈ validation s → x ∉ test s)).
Proof.
  intros H1 Hq H2. exists (mk_split tr va te).
  pose proof (two_splits_Permutation _ _ _ _ _ _ _ _ _ _ _ H1 H2) as Hperm.
  split_and!.
  - unfold dataset_split_samples, float_div. rewrite H1. simpl.
    rewrite Hq. simpl. by rewrite H2.
  - done.
  - simpl. intros Hnodup. rewrite <- Hperm in Hnodup.
    apply NoDup_app in Hnodup as (Htr & Hdisj1 & Hrest).
    apply NoDup_app in Hrest as (Hva & Hdisj2 & Hte).
    split_and!; try done.
    + intros x Hx Hx'. apply (Hdisj1 x Hx), elem_of_app. by left.
    + intros x Hx Hx'. apply (Hdisj1 x Hx), elem_of_app. by right.
Qed.
End splits_facts.

Lemma dataset_split_samples_witness :
  ∃ s : split nat,
    dataset_split_samples (sk := example_sklearn) 0
      [1; 2; 3; 4; 5; 6; 7; 8; 9; 10] (1 # 10) (1 # 10) None
    = Ok (s, 2)
    ∧ training s ++ validation s ++ test s ≡ₚ [1; 2; 3; 4; 5; 6; 7; 8; 9; 10]
    ∧ (NoDup [1; 2; 3; 4; 5; 6; 7; 8; 9; 10] →
       NoDup (training s) ∧ NoDup (validation s) ∧ NoDup (test s)
       ∧ (∀ x, x ∈ training s → x ∉ validation s)
       ∧ (∀ x, x ∈ training s → x ∉ test s)
       ∧ (∀ x, x ∈ validation s → x ∉ test s)).
Proof.
  exact (dataset_split_samples_partition (sk := example_sklearn)
           example_sklearn_partition 0 1 2
           [1; 2; 3; 4; 5; 6; 7; 8; 9; 10] [2; 3; 4; 5; 6; 7; 8; 9; 10] [1]
           [4; 5; 6; 7; 8; 9; 10; 2] [3] (1 # 10) (1 # 10) None
           eq_refl eq_refl eq_refl).
Defined.

Section speaker_facts.
Context {sk : Sklearn}.
Hypothesis sk_partition : split_is_partition sk.
Context {A B K : Type} `{Countable K}.

(** C2.  When sklearn can serve both splits of the speakers,
    [dataset_split_samples_by_speaker] returns three lists whose speakers
    are pairwise different, and every input sample whose speaker is in one
    of the three groups of speakers is in exactly one of the three lists.
    Every speaker of the input is in one of the groups, so this holds for
    every input sample, and the three lists together are a rearrangement
    of the input. *)
Theorem dataset_split_by_speaker_disjoint (g g1 g2 : rng_state)
    (samples : list (A * B)) (parse_speaker_id : A → K)
    (tr0 te tr va : list K) (validation_ratio test_ratio : Q)
    (random_state : option Z) :
  let speaker (sample : A * B) : K := parse_speaker_id sample.1 in
  let speakers : list K := elements (list_to_set (speaker <$> samples) : gset K) in
  train_test_split g speakers random_state test_ratio = Ok (tr0, te, g1) →
  Qeq_bool (1 - test_ratio) 0 = false →
  train_test_split g1 tr0 random_state (validation_ratio / (1 - test_ratio))
  = Ok (tr, va, g2) →
  ∃ s : split (A * B),
    dataset_split_samples_by_speaker g samples parse_speaker_id
      validation_ratio test_ratio random_state = Ok (s, g2)
    ∧ (∀ x y, x ∈ training s → y ∈ validation s → speaker x ≠ speaker y)
    ∧ (∀ x y, x ∈ training s → y ∈ test s → speaker x ≠ speaker y)
    ∧ (∀ x y, x ∈ validation s → y ∈ test s → speaker x ≠ speaker y)
    ∧ (∀ x, x ∈ samples →
         speaker x ∈ tr ∨ speaker x ∈ va ∨ speaker x ∈ te →
         exactly_one (x ∈ training s) (x ∈ validation s) (x ∈ test s))
    ∧ (∀ x, x ∈ samples → speaker x ∈ tr ∨ speaker x ∈ va ∨ speaker x ∈ te)
    ∧ training s ++ validation s ++ test s ≡ₚ samples.
Proof.
  intros speaker speakers H1 Hq H2.
  pose proof (two_splits_Permutation sk_partition _ _ _ _ _ _ _ _ _ _ _ H1 H2)
    as Hperm.
  assert (NoDup (tr ++ va ++ te)) as Hnodup.
  { rewrite Hperm. apply NoDup_elements. }
  apply NoDup_app in Hnodup as (_ & Hdisj1 & Hrest).
  apply NoDup_app in Hrest as (_ & Hdisj2 & _).
  assert (∀ k, k ∈ tr → k ∉ va) as Htv.
  { intros k Hk Hk'. apply (Hdisj1 k Hk), elem_of_app. by left. }
  assert (∀ k, k ∈ tr → k ∉ te) as Htt.
  { intros k Hk Hk'. apply (Hdisj1 k Hk), elem_of_app. by right. }
  assert (∀ x, x ∈ samples → speaker x ∈ tr ∨ speaker x ∈ va ∨ speaker x ∈ te)
    as Hassigned.
  { intros x Hx.
    assert (speaker x ∈ tr ++ va ++ te) as Hin.
    { rewrite Hperm. apply elem_of_elements, elem_of_list_to_set.
      by apply list_elem_of_fmap_2. }
    by rewrite !elem_of_app in Hin. }
  set (select := λ group : list K,
         filter (λ sample : A * B, speaker sample ∈ (list_to_set group : gset K))
                samples).
  assert (∀ group x, x ∈ select group ↔ speaker x ∈ group ∧ x ∈ samples) as Hsel.
  { intros group x. unfold select.
    by rewrite list_elem_of_filter, elem_of_list_to_set. }
  assert (∀ x, x ∈ samples →
            speaker x ∈ tr ∨ speaker x ∈ va ∨ speaker x ∈ te →
            exactly_one (x ∈ select tr) (x ∈ select va) (x ∈ select te)) as Hone.
  { intros x Hx Hgroup. unfold exactly_one. rewrite !Hsel.
    destruct Hgroup as [Hk|[Hk|Hk]]; [left | right; left | right; right];
      split_and!; try done; intros [Hk' _].
    - by apply (Htv _ Hk).
    - by apply (Htt _ Hk).
    - by apply (Htv _ Hk').
    - by apply (Hdisj2 _ Hk).
    - by apply (Htt _ Hk').
    - by apply (Hdisj2 _ Hk'). }
  exists (mk_split (select tr) (select va) (select te)). simpl.
  split_and!.
  - unfold dataset_split_samples_by_speaker, float_div.
    fold speaker. fold speakers. rewrite H1. simpl. rewrite Hq. simpl.
    by rewrite H2.
  - intros x y [Hx _]%Hsel [Hy _]%Hsel Heq. rewrite Heq in Hx. by apply (Htv _ Hx).
  - intros x y [Hx _]%Hsel [Hy _]%Hsel Heq. rewrite Heq in Hx. by apply (Htt _ Hx).
  - intros x y [Hx _]%Hsel [Hy _]%Hsel Heq. rewrite Heq in Hx. by apply (Hdisj2 _ Hx).
  - done.
  - done.
  - unfold select. apply filter3_Permutation.
    intros x Hx. specialize (Hone x Hx (Hassigned x Hx)).
    unfold exactly_one in *. rewrite !Hsel in Hone.
    rewrite !elem_of_list_to_set. tauto.
Qed.
End speaker_facts.

Lemma dataset_split_by_speaker_witness :
  let samples : list (string * string) :=
    [("s1_a", "en"); ("s2_a", "fi"); ("s1_b", "en"); ("s3_a", "en")] in
  let speaker (sample : string * string) : string := speaker_prefix sample.1 in
  ∃ s : split (string * string),
    dataset_split_samples_by_speaker (sk := example_sklearn) 0 samples
      speaker_prefix (1 # 3) (1 # 3) None = Ok (s, 2)
    ∧ (∀ x y, x ∈ training s → y ∈ validation s → speaker x ≠ speaker y)
    ∧ (∀ x y, x ∈ training s → y ∈ test s → speaker x ≠ speaker y)
    ∧ (∀ x y, x ∈ validation s → y ∈ test s → speaker x ≠ speaker y)
    ∧ (∀ x, x ∈ samples →
         speaker x ∈ ["s1"] ∨ speaker x ∈ ["s2"] ∨ speaker x ∈ ["s3"] →
         exactly_one (x ∈ training s) (x ∈ validation s) (x ∈ test s))
    ∧ (∀ x, x ∈ samples →
         speaker x ∈ ["s1"] ∨ speaker x ∈ ["s2"] ∨ speaker x ∈ ["s3"])
    ∧ training s ++ validation s ++ test s ≡ₚ samples.
Proof.
  exact (dataset_split_by_speaker_disjoint (sk := example_sklearn)
           example_sklearn_partition 0 1 2
           [("s1_a", "en"); ("s2_a", "fi"); ("s1_b", "en"); ("s3_a", "en")]
           speaker_prefix ["s1"; "s2"] ["s3"] ["s1"] ["s2"] (1 # 3) (1 # 3) None
           eq_refl eq_refl eq_refl).
Defined.

(** ** Features of files *)

(** The keywords that [speech_dataset_to_utterances] declares bind. *)
Lemma bind_arguments_declared :
  bind_arguments speech_dataset_to_utterances_params
    speech_dataset_to_utterances_defaults 2
    ["utterance_length_ms"; "utterance_offset_ms"; "apply_vad"; "print_progress"]
  = Ok ().
Proof. reflexivity. Qed.

(** [resample_to] is not among them. *)
Lemma bind_arguments_resample_to :
  bind_arguments speech_dataset_to_utterances_params
    speech_dataset_to_utterances_defaults 2
    ["utterance_length_ms"; "utterance_offset_ms"; "apply_vad"; "print_progress";
     "resample_to"]
  = Raise TypeError.
Proof. reflexivity. Qed.

Section files_facts.
Context {sys : System} {feat : Features}.

(** C6 does not hold of the code.  For every non-empty list of paths
    with labels and every config, [files_to_features] ends in a
    [TypeError] at the first file and yields nothing: it calls
    [speech_dataset_to_utterances] with the keyword [resample_to], which
    that function does not declare. *)
Theorem files_to_features_type_error (path label : string)
    (paths labels : list string) (config : experiment_config)
    (label_to_index : gmap string Z) :
  files_to_features (path :: paths) (label :: labels) config label_to_index
  = gen_raise [] TypeError.
Proof.
  cbn [files_to_features]. unfold file_to_features.
  by rewrite bind_arguments_resample_to.
Qed.
End files_facts.

Example files_to_features_example :
  files_to_features (sys := example_system) (feat := example_features)
    ["speech.wav"] ["en"] example_config (<["en" := 0%Z]> {["fi" := 1%Z]})
  = ([], Some TypeError).
Proof. reflexivity. Qed.

(** ** The feature dimension *)

(** C8 does not hold of the code.  For a config of type "spectrogram"
    whose sub-config is a dictionary, [patch_feature_dim] raises a
    [TypeError]: it divides the dictionary [config["spectrogram"]] by 2. *)
Theorem patch_feature_dim_spectrogram :
  patch_feature_dim spectrogram_config = Raise TypeError.
Proof. reflexivity. Qed.

(** Evaluate the comparisons of the type string, leaving lookups alone. *)
Ltac eval_type_tests :=
  repeat match goal with
         | |- context [py_eq_str (PStr ?a) ?b] =>
             let v := eval vm_compute in (py_eq_str (PStr a) b) in
             change (py_eq_str (PStr a) b) with v
         end;
  cbn [orb].

Ltac patch_step H := unfold py_getitem; rewrite H; cbn [and_then].

(** The same for every config of that type with a dictionary under
    "spectrogram". *)
Lemma patch_feature_dim_spectrogram_dict (m sub : gmap string pyval) :
  m !! "type" = Some (PStr "spectrogram") →
  m !! "spectrogram" = Some (PDict sub) →
  patch_feature_dim (PDict m) = Raise TypeError.
Proof.
  intros Htype Hsub. unfold patch_feature_dim.
  patch_step Htype. eval_type_tests. by patch_step Hsub.
Qed.

(** [Train.train] reads "spectrogram" as a dictionary: for a config whose
    "spectrogram" is a number, which is what [patch_feature_dim] can
    divide, the lines after [patch_feature_dim] raise. *)
Lemma copy_spectrogram_frames_number (m : gmap string pyval) (v : pyval) :
  m !! "spectrogram" = Some v →
  is_Some (py_number v) →
  copy_spectrogram_frames (PDict m) = Raise TypeError.
Proof.
  intros Hv Hnum. unfold copy_spectrogram_frames, py_contains at 1.
  rewrite Hv. cbn [and_then bool_decide decide_rel]. 
  rewrite bool_decide_eq_true_2 by eauto.
  cbn [foldl and_then]. patch_step Hv.
  by destruct v; destruct Hnum as [? [=]].
Qed.

(** The other three types of C8: the dimension is read from the
    sub-config. *)
Lemma patch_feature_dim_mfcc (m sub : gmap string pyval) (n : pyval) :
  m !! "type" = Some (PStr "mfcc") →
  m !! "mfcc" = Some (PDict sub) →
  sub !! "num_coefs" = Some n →
  patch_feature_dim (PDict m) = Ok (PDict (<["feature_dim" := n]> m)).
Proof.
  intros Htype Hsub Hn. unfold patch_feature_dim.
  patch_step Htype. eval_type_tests. patch_step Hsub. by patch_step Hn.
Qed.

Lemma patch_feature_dim_melspectrogram (m sub : gmap string pyval) (n : pyval)
    (type : string) :
  type = "melspectrogram" ∨ type = "logmelspectrogram" →
  m !! "type" = Some (PStr type) →
  m !! "melspectrogram" = Some (PDict sub) →
  sub !! "num_mel_bins" = Some n →
  patch_feature_dim (PDict m) = Ok (PDict (<["feature_dim" := n]> m)).
Proof.
  intros Hty Htype Hsub Hn. unfold patch_feature_dim.
  patch_step Htype.
  destruct Hty as [-> | ->]; eval_type_tests; patch_step Hsub; by patch_step Hn.
Qed.

(** * Further properties of the code *)

(** ** The sequence partition: exceptions, padding, iteration *)

(** X1.  What [partition_into_sequences] does with each kind of input.
    An array that is not 2-D fails the assertion, whatever the sequence
    length.  For a 2-D array with r rows: the length 0 is a division by
    zero; a length of at least 1 returns an array; a negative length L is
    a negative dimension in [resize] when r < 2 or r > 1 - L, where the
    number of sequences is not 0 (for 2 <= r <= 1 - L it is 0, and numpy
    stops reading the shape there). *)
Theorem partition_into_sequences_outcome (d : ndarray) (l : Z) :
  (ndim d ≠ 2 → partition_into_sequences d l = Raise AssertionError)
  ∧ (ndim d = 2 → l = 0%Z → partition_into_sequences d l = Raise ZeroDivisionError)
  ∧ (ndim d = 2 → (1 ≤ l)%Z → ∃ p, partition_into_sequences d l = Ok p)
  ∧ (ndim d = 2 → (l < 0)%Z →
     (Z.of_nat (shape d !!! 0%nat) < 2 ∨ 1 - l < Z.of_nat (shape d !!! 0%nat))%Z →
     ((Z.of_nat (shape d !!! 0%nat) + l - 1) / l ≠ 0)%Z
     ∧ partition_into_sequences d l = Raise ValueError).
Proof.
  unfold partition_into_sequences, ndarray_resize.
  destruct (decide (ndim d = 2)) as [Hdim|Hdim]; [|by split_and!].
  split_and!; [done | by intros _ -> | |].
  - intros _ Hl. rewrite decide_False by lia.
    rewrite decide_True; [eauto|].
    repeat constructor; try lia. apply Z.div_pos; lia.
  - intros _ Hl Hrows. split.
    + intros Hzero.
      pose proof (Z.div_mod (Z.of_nat (shape d !!! 0%nat) + l - 1) l ltac:(lia)) as Hdiv.
      pose proof (Z.mod_neg_bound (Z.of_nat (shape d !!! 0%nat) + l - 1) l Hl) as Hmod.
      rewrite Hzero in Hdiv. lia.
    + rewrite decide_False by lia. rewrite decide_False; [done|].
      intros Hall. apply Forall_cons in Hall as [_ [? _]%Forall_cons]. lia.
Qed.

(** X2.  The padding is less than one sequence: the result has
    n sequences with r <= n*L < r + L rows.  When L divides r there are
    r/L sequences and the entries are those of the matrix, with nothing
    added; a matrix without rows gives no sequence. *)
Theorem partition_pads_less_than_a_sequence (d : ndarray) (r c : nat) (l : Z) :
  shape d = [r; c] → wf_ndarray d → (1 ≤ l)%Z →
  ∃ (p : ndarray) (n : nat),
    partition_into_sequences d l = Ok p
    ∧ shape p = [n; Z.to_nat l; c]
    ∧ r ≤ n * Z.to_nat l < r + Z.to_nat l
    ∧ length (data p) = length (data d) + (n * Z.to_nat l - r) * c
    ∧ (r mod Z.to_nat l = 0 → n = r / Z.to_nat l ∧ data p = data d)
    ∧ (r = 0 → n = 0 ∧ data p = []).
Proof.
  intros Hshape Hwf Hl.
  assert (length (data d) = r * c) as Hlen.
  { unfold wf_ndarray in Hwf. rewrite Hshape in Hwf. simpl in Hwf. lia. }
  set (ln := Z.to_nat l).
  set (n := Z.to_nat ((Z.of_nat r + l - 1) / l)).
  assert (r ≤ n * ln < r + ln) as Hn.
  { pose proof (Z.div_mod (Z.of_nat r + l - 1) l ltac:(lia)) as H1.
    pose proof (Z.mod_pos_bound (Z.of_nat r + l - 1) l ltac:(lia)) as H2.
    assert (0 ≤ (Z.of_nat r + l - 1) / l)%Z by (apply Z.div_pos; lia).
    subst n ln. nia. }
  assert (partition_into_sequences d l
          = Ok (mk_ndarray [n; ln; c] (resize (n * (ln * (c * 1))) 0%Z (data d))))
    as Hrun.
  { unfold partition_into_sequences, ndim, ndarray_resize.
    rewrite Hshape. simpl.
    rewrite decide_False by lia.
    rewrite decide_True.
    - simpl. by rewrite Nat2Z.id.
    - repeat constructor; try lia. apply Z.div_pos; lia. }
  exists (mk_ndarray [n; ln; c] (resize (n * (ln * (c * 1))) 0%Z (data d))), n.
  simpl. split_and!; try done; try lia.
  - rewrite length_resize, Hlen. nia.
  - intros Hmod.
    assert (ln ≠ 0) as Hln by (subst ln; lia).
    pose proof (Nat.div_mod r ln Hln) as Hdiv. rewrite Hmod in Hdiv.
    assert (n = r / ln) as Hq by nia.
    split; [done|]. apply resize_all_alt. rewrite Hlen. nia.
  - intros ->. assert (n = 0) as -> by nia. split; [done|].
    by rewrite resize_0.
Qed.

Lemma partition_pads_less_than_a_sequence_witness :
  ∃ (p : ndarray) (n : nat),
    partition_into_sequences (mk_ndarray [4; 1] [1; 2; 3; 4]%Z) 2 = Ok p
    ∧ shape p = [n; 2; 1]
    ∧ 4 ≤ n * 2 < 4 + 2
    ∧ length (data p) = 4 + (n * 2 - 4) * 1
    ∧ (4 mod 2 = 0 → n = 4 / 2 ∧ data p = [1; 2; 3; 4]%Z)
    ∧ (4 = 0 → n = 0 ∧ data p = []).
Proof.
  exact (partition_pads_less_than_a_sequence
           (mk_ndarray [4; 1] [1; 2; 3; 4]%Z) 4 1 2 eq_refl eq_refl
           ltac:(lia)).
Defined.

Lemma concat_chunks {A : Type} (sz n : nat) (l : list A) :
  length l = n * sz →
  concat ((λ i, take sz (drop (i * sz) l)) <$> seq 0 n) = l.
Proof.
  revert l. induction n as [|n IH]; intros l Hlen.
  - by destruct l.
  - cbn [seq fmap list_fmap concat]. rewrite <- fmap_S_seq, <- list_fmap_compose.
    rewrite Nat.mul_0_l, drop_0.
    transitivity (take sz l ++ drop sz l); [|apply take_drop]. f_equal.
    rewrite <- (IH (drop sz l)) by (rewrite length_drop; lia).
    f_equal. apply list_fmap_ext. intros _ i _. simpl.
    rewrite drop_drop. f_equal; f_equal; lia.
Qed.

(** X3.  The loop [for sequence in sequences] of [utterances_to_features]
    goes through as many sequences as the partition has, each one an array
    of L rows and c columns, and [np.array] of these sequences, as in
    [files_to_features], is the partition again when the matrix has at
    least one row. *)
Theorem partition_iter_roundtrip (d p : ndarray) (r c : nat) (l : Z) :
  shape d = [r; c] → wf_ndarray d → 0 < r →
  partition_into_sequences d l = Ok p →
  ∃ seqs : list ndarray,
    ndarray_iter p = Ok seqs
    ∧ length seqs = ceil_ratio r (Z.to_nat l)
    ∧ Forall (λ s, shape s = [Z.to_nat l; c] ∧ wf_ndarray s) seqs
    ∧ np_array seqs = p.
Proof.
  intros Hshape Hwf Hr Hrun.
  destruct (partition_into_sequences_Ok _ _ _ Hrun) as (r' & c' & Hshape' & Hl & Hp).
  rewrite Hshape in Hshape'. injection Hshape' as <- <-.
  rewrite num_sequences_ceil in Hp by done.
  pose proof (ceil_ratio_covers r l Hl) as Hcover.
  set (n := ceil_ratio r (Z.to_nat l)) in *.
  set (ln := Z.to_nat l) in *.
  assert (length (data p) = n * (ln * (c * 1))) as Hlen.
  { revert Hrun. unfold partition_into_sequences, ndim, ndarray_resize.
    rewrite Hshape. simpl. repeat case_decide; try done.
    intros [= <-]. simpl. rewrite length_resize.
    rewrite num_sequences_ceil by done. by rewrite Nat2Z.id. }
  unfold ndarray_iter. rewrite Hp. eexists. split; [done|].
  split_and!.
  - by rewrite length_fmap, length_seq.
  - apply Forall_fmap, Forall_forall. intros i Hi%elem_of_seq. simpl.
    split; [done|]. unfold wf_ndarray. simpl.
    rewrite length_take, length_drop, Hlen.
    assert (S i ≤ n) as Hin by lia.
    assert (S i * (ln * (c * 1)) ≤ n * (ln * (c * 1)))
      by (apply Nat.mul_le_mono_r; exact Hin).
    lia.
  - unfold np_array. destruct p as [ps pd]. simpl in *. subst ps. f_equal.
    + rewrite length_fmap, length_seq. f_equal.
      destruct n as [|n]; [lia|]. done.
    + rewrite <- list_fmap_compose. by apply concat_chunks.
Qed.

Lemma partition_iter_roundtrip_witness :
  ∃ seqs : list ndarray,
    ndarray_iter (mk_ndarray [2; 2; 1] [1; 2; 3; 0]%Z) = Ok seqs
    ∧ length seqs = ceil_ratio 3 (Z.to_nat 2)
    ∧ Forall (λ s, shape s = [Z.to_nat 2; 1] ∧ wf_ndarray s) seqs
    ∧ np_array seqs = mk_ndarray [2; 2; 1] [1; 2; 3; 0]%Z.
Proof.
  exact (partition_iter_roundtrip (mk_ndarray [3; 1] [1; 2; 3]%Z)
           (mk_ndarray [2; 2; 1] [1; 2; 3; 0]%Z) 3 1 2
           eq_refl eq_refl ltac:(lia) eq_refl).
Defined.

(** ** The sliding window: count, overlap, files in a row *)

Lemma window_loop_count (b : nat) (o : positive) (wav : wav_t) :
  length (window_loop b o wav).1
  = if decide (length wav ≤ b) then 0
    else (length wav - b + Pos.to_nat o - 1) / Pos.to_nat o.
Proof.
  destruct (window_loop_spec b o wav) as (n & -> & _ & Hmore & Hlast).
  rewrite length_fmap, length_seq.
  pose proof (Pos2Nat.is_pos o) as Ho.
  rewrite length_drop in Hlast.
  case_decide as Hshort.
  - destruct n as [|n]; [done|].
    specialize (Hmore 0 ltac:(lia)). rewrite length_drop in Hmore. lia.
  - destruct n as [|n]; [lia|].
    specialize (Hmore n ltac:(lia)). rewrite length_drop in Hmore.
    apply Nat.div_unique with (r := length wav - b - 1 - n * Pos.to_nat o); nia.
Qed.

Section count_facts.
Context {sys : System}.

(** X4.  With [slide_over_all=False] and both assertions passing, a file
    of at most b samples yields no utterance, and a longer file of s
    samples yields ceil((s - b) / o) utterances: a file of exactly b
    samples, one full window, yields nothing. *)
Theorem utterances_per_file (len off : Q) (vad : bool)
    (st : gmap string wav_t) (label path : string) :
  let b := Z.to_nat (int_rate_ms (file_rate path) len) in
  let o := Z.to_nat (int_rate_ms (file_rate path) off) in
  let s := length (file_wav vad path) in
  (0 < int_rate_ms (file_rate path) len)%Z →
  (0 < int_rate_ms (file_rate path) off)%Z →
  length (file_to_utterances len off vad false st label path).1
  = if decide (s ≤ b) then 0 else (s - b + o - 1) / o.
Proof.
  intros b o s Hb Ho. rewrite file_to_utterances_cases. simpl.
  rewrite decide_True by done. simpl.
  rewrite length_fmap, window_loop_count.
  replace (Pos.to_nat (Z.to_pos (int_rate_ms (file_rate path) off))) with o
    by (subst o; by destruct (int_rate_ms (file_rate path) off)).
  done.
Qed.
End count_facts.

Lemma utterances_per_file_witness :
  length (file_to_utterances (sys := example_system) 2000 1000 false false ∅
            "en" "speech.wav").1
  = if decide (10 ≤ 4) then 0 else (10 - 4 + 2 - 1) / 2.
Proof.
  exact (utterances_per_file (sys := example_system) 2000 1000 false ∅
           "en" "speech.wav" eq_refl eq_refl).
Defined.

Lemma window_loop_covers_witness :
  (∃ u : wav_t,
     (window_loop 4 2 [1; 2; 3; 4; 5; 6; 7; 8; 9; 10]%Z).1 !! (5 / Pos.to_nat 2)
     = Some u
     ∧ u !! (5 mod Pos.to_nat 2) = Some 6%Z)
  ∨ (window_loop 4 2 [1; 2; 3; 4; 5; 6; 7; 8; 9; 10]%Z).2
      !! (5 - length (window_loop 4 2 [1; 2; 3; 4; 5; 6; 7; 8; 9; 10]%Z).1
              * Pos.to_nat 2) = Some 6%Z
    ∧ length (window_loop 4 2 [1; 2; 3; 4; 5; 6; 7; 8; 9; 10]%Z).1 * Pos.to_nat 2
      ≤ 5.
Proof.
  exact (window_loop_covers 4 2 [1; 2; 3; 4; 5; 6; 7; 8; 9; 10]%Z 5 6%Z
           ltac:(vm_compute; lia) eq_refl).
Defined.

(** X6.  When the step o is not longer than the window b, consecutive
    utterances of a signal overlap: the last b - o samples of one are the
    first b - o samples of the next. *)
Theorem consecutive_windows_overlap (b : nat) (o : positive) (wav u v : wav_t)
    (k : nat) :
  Pos.to_nat o ≤ b →
  (window_loop b o wav).1 !! k = Some u →
  (window_loop b o wav).1 !! S k = Some v →
  drop (Pos.to_nat o) u = take (b - Pos.to_nat o) v.
Proof.
  intros Hstep Hu Hv.
  destruct (window_loop_spec b o wav) as (n & Hys & _ & _ & _).
  rewrite Hys in Hu, Hv.
  rewrite list_lookup_fmap in Hu, Hv.
  destruct (seq 0 n !! k) as [k'|] eqn:Hk; [|done].
  destruct (seq 0 n !! S k) as [k''|] eqn:Hk'; [|done].
  apply lookup_seq in Hk as [-> _]. apply lookup_seq in Hk' as [-> _].
  simpl in Hu, Hv. injection Hu as <-. injection Hv as <-.
  unfold py_slice.
  replace (k * Pos.to_nat o + b - k * Pos.to_nat o) with b by lia.
  replace (Pos.to_nat o + k * Pos.to_nat o + b - (Pos.to_nat o + k * Pos.to_nat o))
    with b by lia.
  rewrite take_take, Nat.min_l by lia.
  replace (drop (Pos.to_nat o + k * Pos.to_nat o) wav)
    with (drop (Pos.to_nat o) (drop (k * Pos.to_nat o) wav))
    by (rewrite drop_drop; f_equal; lia).
  rewrite (take_drop_commute (drop (k * Pos.to_nat o) wav)).
  by replace (Pos.to_nat o + (b - Pos.to_nat o)) with b by lia.
Qed.

Lemma consecutive_windows_overlap_witness :
  drop (Pos.to_nat 2) [1; 2; 3; 4]%Z = take (4 - Pos.to_nat 2) [3; 4; 5; 6]%Z.
Proof.
  exact (consecutive_windows_overlap 4 2 [1; 2; 3; 4; 5; 6; 7; 8; 9; 10]%Z
           [1; 2; 3; 4]%Z [3; 4; 5; 6]%Z 0 ltac:(vm_compute; lia) eq_refl eq_refl).
Defined.

(** Sliding over a signal that continues: when the step is not longer
    than the window, the windows of [w1 ++ w2] are the windows of [w1]
    followed by the windows of what [w1] leaves, put before [w2]. *)
Lemma window_loop_app (b : nat) (o : positive) (w1 w2 : wav_t) :
  Pos.to_nat o ≤ b →
  window_loop b o (w1 ++ w2)
  = ((window_loop b o w1).1 ++ (window_loop b o ((window_loop b o w1).2 ++ w2)).1,
     (window_loop b o ((window_loop b o w1).2 ++ w2)).2).
Proof.
  intros Hstep.
  remember (length w1) as m eqn:Hm. revert w1 Hm.
  induction m as [m IH] using lt_wf_ind. intros w1 ->.
  destruct (decide (b < length w1)) as [Hlt|Hge].
  - rewrite (window_loop_yield b o w1) by done.
    rewrite (window_loop_yield b o (w1 ++ w2)) by (rewrite length_app; lia).
    rewrite take_app_le, drop_app_le by lia. simpl.
    rewrite (IH (length (drop (Pos.to_nat o) w1))) with (w1 := drop (Pos.to_nat o) w1);
      [done | | done].
    rewrite length_drop. pose proof (Pos2Nat.is_pos o). lia.
  - rewrite (window_loop_stop b o w1) by lia. simpl.
    by destruct (window_loop b o (w1 ++ w2)).
Qed.

Section run_facts.
Context {sys : System}.

(** X7.  With [slide_over_all=True], two files of one label and one
    sample rate, whose step is not longer than the window, give the
    utterances of the two signals put together: the window slides over
    the boundary between the files. *)
Theorem sliding_over_two_files (len off : Q) (vad : bool)
    (label path1 path2 : string) :
  let rate := file_rate path1 in
  let b := int_rate_ms rate len in
  let o := int_rate_ms rate off in
  file_rate path2 = rate →
  (0 < o ≤ b)%Z →
  speech_dataset_to_utterances [label; label] [path1; path2] len off vad true
  = gen_done ((λ u, (label, (u, rate)))
                <$> (window_loop (Z.to_nat b) (Z.to_pos o)
                       (file_wav vad path1 ++ file_wav vad path2)).1).
Proof.
  intros rate b o Hrate Hpos.
  unfold speech_dataset_to_utterances. simpl zip.
  cbn [files_to_utterances]. rewrite !file_to_utterances_cases.
  assert ((gset_to_gmap [] (list_to_set [label; label]) : gmap string wav_t)
            !! label = Some []) as ->.
  { apply lookup_gset_to_gmap_Some. split; [|done].
    apply elem_of_list_to_set, list_elem_of_here. }
  fold rate b o. cbn zeta. rewrite decide_True by lia. cbn [fst snd].
  rewrite file_to_utterances_cases, lookup_insert_eq, Hrate.
  fold b o. cbn zeta. rewrite decide_True by lia. cbn [fst snd].
  unfold gen_done. rewrite app_nil_r, app_nil_l. f_equal.
  rewrite <- fmap_app. f_equal.
  rewrite (window_loop_app _ _ (file_wav vad path1) (file_wav vad path2)); [done|].
  subst o. destruct (int_rate_ms rate off); simpl; lia.
Qed.

Lemma files_to_utterances_no_slide (len off : Q) (vad : bool)
    (files : list (string * string)) (st st' : gmap string wav_t) :
  files_to_utterances len off vad false st files
  = files_to_utterances len off vad false st' files.
Proof.
  revert st st'. induction files as [|[label path] files IH]; intros st st';
    [done|].
  cbn [files_to_utterances]. rewrite !file_to_utterances_cases.
  cbn zeta. case_decide; [|done]. cbn [fst snd].
  by rewrite (IH _ (<[label:=[]]> st')).
Qed.

(** X8.  With [slide_over_all=False] the files do not influence each
    other: the utterances of a dataset are the utterances of its first
    file alone followed by the utterances of the rest of the dataset, and
    an exception in the first file ends the run. *)
Theorem dataset_without_sliding_is_file_by_file (len off : Q) (vad : bool)
    (label path : string) (labels paths : list string) :
  speech_dataset_to_utterances (label :: labels) (path :: paths) len off vad false
  = match speech_dataset_to_utterances [label] [path] len off vad false with
    | (ys, None) =>
        let r := speech_dataset_to_utterances labels paths len off vad false in
        (ys ++ r.1, r.2)
    | (ys, Some e) => (ys, Some e)
    end.
Proof.
  unfold speech_dataset_to_utterances. simpl zip.
  cbn [files_to_utterances]. rewrite !file_to_utterances_cases.
  cbn zeta. case_decide; [|done]. cbn [fst snd gen_done].
  rewrite app_nil_r.
  rewrite (files_to_utterances_no_slide len off vad (zip labels paths) _
             (gset_to_gmap [] (list_to_set labels))).
  by destruct (files_to_utterances len off vad false
                 (gset_to_gmap [] (list_to_set labels)) (zip labels paths)).
Qed.
End run_facts.

Lemma sliding_over_two_files_witness :
  speech_dataset_to_utterances (sys := example_system)
    ["en"; "en"] ["speech.wav"; "ab"] 2000 1000 false true
  = gen_done ((λ u, ("en", (u, file_rate (sys := example_system) "speech.wav")))
                <$> (window_loop
                       (Z.to_nat (int_rate_ms (System := example_system) 2 2000))
                       (Z.to_pos (int_rate_ms (System := example_system) 2 1000))
                       (file_wav (sys := example_system) false "speech.wav"
                        ++ file_wav (sys := example_system) false "ab")).1).
Proof.
  exact (sliding_over_two_files (sys := example_system) 2000 1000 false
           "en" "speech.wav" "ab" eq_refl ltac:(vm_compute; split; congruence)).
Defined.

(** ** Features of utterances: targets, counts, exceptions *)

Section features_more.
Context {feat : Features}.

Lemma utterance_to_features_target (label_to_index : gmap string Z)
    (extractors : list pyval) (sequence_length : Z) (label : string)
    (utt : utterance) (ys : list (ndarray * ndarray)) (y : ndarray * ndarray) :
  utterance_to_features label_to_index extractors sequence_length label utt = Ok ys →
  y ∈ ys →
  ∃ index : Z,
    label_to_index !! label = Some index
    ∧ ndarray_setitem (np_zeros (size label_to_index)) index 1 = Ok y.2.
Proof.
  unfold utterance_to_features. intros Hrun Hin.
  and_then_inv Hrun. injection Hrun as <-.
  apply list_elem_of_fmap in Hin as (sq & -> & _). simpl.
  destruct (label_to_index !! label) as [index|] eqn:Hindex; [|done].
  injection Hv as <-. by exists index.
Qed.

Lemma utterances_loop_target (label_to_index : gmap string Z)
    (extractors : list pyval) (sequence_length : Z)
    (us : list (string * utterance)) (e : option exn) (y : ndarray * ndarray) :
  y ∈ (utterances_loop label_to_index extractors sequence_length us e).1 →
  ∃ (label : string) (utt : utterance) (index : Z),
    (label, utt) ∈ us
    ∧ label_to_index !! label = Some index
    ∧ ndarray_setitem (np_zeros (size label_to_index)) index 1 = Ok y.2.
Proof.
  induction us as [|[label utt] us IH]; simpl; [by intros ?%elem_of_nil|].
  destruct (utterance_to_features label_to_index extractors sequence_length
              label utt) as [ys|err] eqn:Hone; [|by intros ?%elem_of_nil].
  destruct (utterances_loop label_to_index extractors sequence_length us e)
    as [zs e'] eqn:Hrest. simpl in *.
  intros [Hin|Hin]%elem_of_app.
  - destruct (utterance_to_features_target _ _ _ _ _ _ _ Hone Hin) as (index & ? & ?).
    exists label, utt, index. split_and!; [by left | done | done].
  - destruct (IH Hin) as (label' & utt' & index & ? & ? & ?).
    exists label', utt', index. split_and!; [by right | done | done].
Qed.

Lemma utterances_loop_app (label_to_index : gmap string Z)
    (extractors : list pyval) (sequence_length : Z)
    (us1 us2 : list (string * utterance)) (e : option exn) :
  utterances_loop label_to_index extractors sequence_length (us1 ++ us2) e
  = match utterances_loop label_to_index extractors sequence_length us1 None with
    | (ys, None) =>
        let r := utterances_loop label_to_index extractors sequence_length us2 e in
        (ys ++ r.1, r.2)
    | (ys, Some err) => (ys, Some err)
    end.
Proof.
  induction us1 as [|[label utt] us1 IH]; simpl.
  - by destruct (utterances_loop label_to_index extractors sequence_length us2 e).
  - destruct (utterance_to_features label_to_index extractors sequence_length
                label utt) as [ys|err]; [|done].
    rewrite IH.
    destruct (utterances_loop label_to_index extractors sequence_length us1 None)
      as [zs [err|]]; simpl; [done|].
    by rewrite app_assoc.
Qed.


(** X11.  A label that [label_to_index] does not have ends the generator
    with a [KeyError]: the pairs of the utterances before it have been
    yielded, the utterances after it are not looked at. *)
Theorem unknown_label_stops_features (label_to_index : gmap string Z)
    (extractors : list pyval) (sequence_length : Z)
    (us1 us2 : list (string * utterance)) (label : string) (utt : utterance)
    (e : option exn) (ys : list (ndarray * ndarray)) :
  0 < length extractors →
  utterances_to_features (gen_done us1) label_to_index extractors sequence_length
  = gen_done ys →
  label_to_index !! label = None →
  utterances_to_features (us1 ++ (label, utt) :: us2, e) label_to_index
    extractors sequence_length
  = gen_raise ys KeyError.
Proof.
  unfold utterances_to_features, gen_done, gen_raise. intros Hex Hus1 Hlabel.
  rewrite decide_True in * by done. simpl in *.
  rewrite utterances_loop_app, Hus1. simpl.
  unfold utterance_to_features. rewrite Hlabel. simpl.
  by rewrite app_nil_r.
Qed.
End features_more.

Section file_targets.
Context {sys : System} {feat : Features}.

(** X9.  All the pairs that come from one file have the same one-hot
    target, so the assertion of [files_to_features] on the targets of a
    file cannot fail. *)
Theorem targets_of_a_file_are_equal (len off : Q) (vad slide : bool)
    (label_to_index : gmap string Z) (extractors : list pyval)
    (sequence_length : Z) (label path : string) (y1 y2 : ndarray * ndarray) :
  let pairs :=
    (utterances_to_features
       (speech_dataset_to_utterances [label] [path] len off vad slide)
       label_to_index extractors sequence_length).1 in
  y1 ∈ pairs → y2 ∈ pairs → y1.2 = y2.2.
Proof.
  unfold utterances_to_features.
  case_decide; [|by intros ?%elem_of_nil]. simpl.
  assert (∀ y, y ∈ (utterances_loop label_to_index extractors sequence_length
                      (speech_dataset_to_utterances [label] [path] len off vad slide).1
                      (speech_dataset_to_utterances [label] [path] len off vad slide).2).1 →
               ∃ index, label_to_index !! label = Some index
                 ∧ ndarray_setitem (np_zeros (size label_to_index)) index 1 = Ok y.2)
    as Htarget.
  { intros y (l & utt & index & Hin & Hindex & Hset)%utterances_loop_target.
    exists index. split; [|done].
    unfold speech_dataset_to_utterances in Hin. simpl zip in Hin.
    apply files_to_utterances_yields in Hin as (i & p & Hi & _). simpl in Hi.
    destruct i as [|i]; [|done]. by injection Hi as -> _. }
  intros (i1 & Hi1 & Hs1)%Htarget (i2 & Hi2 & Hs2)%Htarget.
  rewrite Hi1 in Hi2. injection Hi2 as <-. rewrite Hs1 in Hs2. by injection Hs2.
Qed.

(** X12.  [files_to_features] never yields a triple: it ends in a
    [TypeError] when there is a first file, and without yielding when
    [paths] or [labels] is empty. *)
Theorem files_to_features_never_yields (paths labels : list string)
    (config : experiment_config) (label_to_index : gmap string Z) :
  (files_to_features paths labels config label_to_index).1 = []
  ∧ ((files_to_features paths labels config label_to_index).2 = Some TypeError
     ↔ paths ≠ [] ∧ labels ≠ [])
  ∧ ((files_to_features paths labels config label_to_index).2 = None
     ↔ paths = [] ∨ labels = []).
Proof.
  destruct paths as [|path paths], labels as [|label labels];
    cbn [files_to_features]; unfold file_to_features;
    try rewrite bind_arguments_resample_to; simpl; split_and!; try done;
    split; try done; try tauto; try (intros [? ?]; done); try (intros [?|?]; done).
Qed.
End file_targets.


Lemma unknown_label_stops_features_witness :
  utterances_to_features (feat := example_features)
    ([("en", ([1; 2; 3]%Z, 2%Z))] ++ ("sv", ([4; 5]%Z, 2%Z)) :: [("fi", ([6]%Z, 2%Z))],
     None)
    (<["en" := 0%Z]> {["fi" := 1%Z]}) [PDict {["name" := PStr "mfcc"]}] 2
  = gen_raise [(mk_ndarray [2; 1] [1; 2]%Z, mk_ndarray [2] [1; 0]%Z);
               (mk_ndarray [2; 1] [3; 0]%Z, mk_ndarray [2] [1; 0]%Z)] KeyError.
Proof.
  exact (unknown_label_stops_features (feat := example_features)
           (<["en" := 0%Z]> {["fi" := 1%Z]}) [PDict {["name" := PStr "mfcc"]}] 2
           [("en", ([1; 2; 3]%Z, 2%Z))] [("fi", ([6]%Z, 2%Z))] "sv" ([4; 5]%Z, 2%Z)
           None
           [(mk_ndarray [2; 1] [1; 2]%Z, mk_ndarray [2] [1; 0]%Z);
            (mk_ndarray [2; 1] [3; 0]%Z, mk_ndarray [2] [1; 0]%Z)]
           ltac:(simpl; lia) eq_refl eq_refl).
Defined.

Lemma targets_of_a_file_are_equal_witness :
  (mk_ndarray [2; 1] [1; 2]%Z, mk_ndarray [2] [1; 0]%Z).2
  = (mk_ndarray [2; 1] [3; 4]%Z, mk_ndarray [2] [1; 0]%Z).2.
Proof.
  apply (targets_of_a_file_are_equal (sys := example_system)
           (feat := example_features) 2000 1000 false true
           (<["en" := 0%Z]> {["fi" := 1%Z]}) [PDict {["name" := PStr "mfcc"]}] 2
           "en" "speech.wav").
  - vm_compute. apply list_elem_of_here.
  - vm_compute. apply list_elem_of_further, list_elem_of_here.
Defined.

(** ** Splits by speaker: what holds for every splitter *)

Section speaker_more.
Context {sk : Sklearn} {A B K : Type} `{Countable K}.

Lemma dataset_split_by_speaker_Ok (g g' : rng_state) (samples : list (A * B))
    (parse_speaker_id : A → K) (validation_ratio test_ratio : Q)
    (random_state : option Z) (s : split (A * B)) :
  dataset_split_samples_by_speaker g samples parse_speaker_id
    validation_ratio test_ratio random_state = Ok (s, g') →
  ∃ tr va te : list K,
    s = mk_split
          (filter (λ sample, parse_speaker_id sample.1 ∈ (list_to_set tr : gset K))
                  samples)
          (filter (λ sample, parse_speaker_id sample.1 ∈ (list_to_set va : gset K))
                  samples)
          (filter (λ sample, parse_speaker_id sample.1 ∈ (list_to_set te : gset K))
                  samples).
Proof.
  unfold dataset_split_samples_by_speaker. intros Hrun.
  apply and_then_Ok in Hrun as ([[tr0 te] g1] & _ & Hrun).
  apply and_then_Ok in Hrun as (q & _ & Hrun).
  apply and_then_Ok in Hrun as ([[tr va] g2] & _ & Hrun).
  injection Hrun as <- <-. by exists tr, va, te.
Qed.

(** X13.  Whatever the splitter does, [dataset_split_samples_by_speaker]
    keeps the samples of a speaker together: two input samples of one
    speaker are in the same lists of the result. *)
Theorem speakers_are_not_separated (g g' : rng_state) (samples : list (A * B))
    (parse_speaker_id : A → K) (validation_ratio test_ratio : Q)
    (random_state : option Z) (s : split (A * B)) (x y : A * B) :
  dataset_split_samples_by_speaker g samples parse_speaker_id
    validation_ratio test_ratio random_state = Ok (s, g') →
  x ∈ samples → y ∈ samples →
  parse_speaker_id x.1 = parse_speaker_id y.1 →
  (x ∈ training s ↔ y ∈ training s)
  ∧ (x ∈ validation s ↔ y ∈ validation s)
  ∧ (x ∈ test s ↔ y ∈ test s).
Proof.
  intros (tr & va & te & ->)%dataset_split_by_speaker_Ok Hx Hy Heq. simpl.
  rewrite !list_elem_of_filter, Heq. tauto.
Qed.

(** X14.  Each of the three lists is the input with some samples left
    out: the samples keep the order they have in the input, and a sample
    is in a list as often as in the input or not at all. *)
Theorem split_by_speaker_keeps_order (g g' : rng_state) (samples : list (A * B))
    (parse_speaker_id : A → K) (validation_ratio test_ratio : Q)
    (random_state : option Z) (s : split (A * B)) :
  dataset_split_samples_by_speaker g samples parse_speaker_id
    validation_ratio test_ratio random_state = Ok (s, g') →
  training s `sublist_of` samples
  ∧ validation s `sublist_of` samples
  ∧ test s `sublist_of` samples.
Proof.
  intros (tr & va & te & ->)%dataset_split_by_speaker_Ok. simpl.
  split_and!; apply sublist_filter.
Qed.

(** X15.  With [test_ratio] equal to 1 the second test size,
    validation_ratio / (1.0 - test_ratio), is a division by zero: whenever
    the first split is served, [dataset_split_samples] and
    [dataset_split_samples_by_speaker] raise [ZeroDivisionError]. *)
Theorem test_ratio_one_divides_by_zero (validation_ratio test_ratio : Q)
    (random_state : option Z) :
  (test_ratio == 1)%Q →
  (∀ (C : Type) (g g1 : rng_state) (xs tr0 te : list C),
     train_test_split g xs random_state test_ratio = Ok (tr0, te, g1) →
     dataset_split_samples g xs validation_ratio test_ratio random_state
     = Raise ZeroDivisionError)
  ∧ (∀ (g g1 : rng_state) (samples : list (A * B)) (parse_speaker_id : A → K)
       (tr0 te : list K),
       train_test_split g
         (elements (list_to_set ((λ sample, parse_speaker_id sample.1) <$> samples)
                      : gset K))
         random_state test_ratio = Ok (tr0, te, g1) →
       dataset_split_samples_by_speaker g samples parse_speaker_id
         validation_ratio test_ratio random_state
       = Raise ZeroDivisionError).
Proof.
  intros Hone.
  assert (Qeq_bool (1 - test_ratio) 0 = true) as Hzero.
  { apply Qeq_bool_iff. rewrite Hone. reflexivity. }
  split.
  - intros C g g1 xs tr0 te H1.
    unfold dataset_split_samples, float_div. rewrite H1. simpl. by rewrite Hzero.
  - intros g g1 samples parse_speaker_id tr0 te H1.
    unfold dataset_split_samples_by_speaker, float_div.
    rewrite H1. simpl. by rewrite Hzero.
Qed.
End speaker_more.

Lemma speakers_are_not_separated_witness :
  let s := mk_split [("s1_a", "en"); ("s1_b", "en")] [("s2_a", "fi")]
                    [("s3_a", "en")] in
  (("s1_a", "en") ∈ training s ↔ ("s1_b", "en") ∈ training s)
  ∧ (("s1_a", "en") ∈ validation s ↔ ("s1_b", "en") ∈ validation s)
  ∧ (("s1_a", "en") ∈ test s ↔ ("s1_b", "en") ∈ test s).
Proof.
  exact (speakers_are_not_separated (sk := example_sklearn) 0 2
           [("s1_a", "en"); ("s2_a", "fi"); ("s1_b", "en"); ("s3_a", "en")]
           speaker_prefix (1 # 3) (1 # 3) None
           (mk_split [("s1_a", "en"); ("s1_b", "en")] [("s2_a", "fi")]
                     [("s3_a", "en")])
           ("s1_a", "en") ("s1_b", "en") eq_refl
           ltac:(repeat constructor) ltac:(repeat constructor) eq_refl).
Defined.

Lemma split_by_speaker_keeps_order_witness :
  let samples := [("s1_a", "en"); ("s2_a", "fi"); ("s1_b", "en"); ("s3_a", "en")] in
  let s := mk_split [("s1_a", "en"); ("s1_b", "en")] [("s2_a", "fi")]
                    [("s3_a", "en")] in
  training s `sublist_of` samples
  ∧ validation s `sublist_of` samples
  ∧ test s `sublist_of` samples.
Proof.
  exact (split_by_speaker_keeps_order (sk := example_sklearn) 0 2
           [("s1_a", "en"); ("s2_a", "fi"); ("s1_b", "en"); ("s3_a", "en")]
           speaker_prefix (1 # 3) (1 # 3) None
           (mk_split [("s1_a", "en"); ("s1_b", "en")] [("s2_a", "fi")]
                     [("s3_a", "en")])
           eq_refl).
Defined.

Lemma test_ratio_one_divides_by_zero_witness :
  dataset_split_samples (sk := count_sklearn) () [1; 2; 3; 4; 5] (1 # 10) 1 None
  = Raise ZeroDivisionError.
Proof.
  exact (proj1 (test_ratio_one_divides_by_zero (sk := count_sklearn)
                  (A := string) (B := string) (K := string)
                  (1 # 10) 1 None ltac:(reflexivity))
           nat () () [1; 2; 3; 4; 5] [2; 3; 4; 5] [1] eq_refl).
Defined.

(** ** The feature dimension: what a successful patch is *)

Lemma py_getitem_Ok (d v : pyval) (key : string) :
  py_getitem d key = Ok v ↔ ∃ m, d = PDict m ∧ m !! key = Some v.
Proof.
  split.
  - destruct d; simpl; try done.
    destruct (d !! key) as [v'|] eqn:Hkey; [|done].
    intros [= ->]. eauto.
  - intros (m & -> & Hkey). simpl. by rewrite Hkey.
Qed.

(** The four ways in which [patch_feature_dim] returns. *)
Lemma patch_feature_dim_Ok (config config' : pyval) :
  patch_feature_dim config = Ok config' →
  ∃ (m : gmap string pyval) (type : pyval),
    config = PDict m ∧ m !! "type" = Some type
    ∧ ((py_eq_str type "mfcc" = true
        ∧ ∃ sub n, m !! "mfcc" = Some (PDict sub) ∧ sub !! "num_coefs" = Some n
                   ∧ config' = PDict (<["feature_dim" := n]> m))
       ∨ ((py_eq_str type "melspectrogram" = true
           ∨ py_eq_str type "logmelspectrogram" = true)
          ∧ ∃ sub n, m !! "melspectrogram" = Some (PDict sub)
                     ∧ sub !! "num_mel_bins" = Some n
                     ∧ config' = PDict (<["feature_dim" := n]> m))
       ∨ (py_eq_str type "spectrogram" = true
          ∧ ∃ v half n, m !! "spectrogram" = Some v
                        ∧ py_floordiv v (PInt 2) = Ok half
                        ∧ py_add half (PInt 1) = Ok n
                        ∧ config' = PDict (<["feature_dim" := n]> m))
       ∨ (py_eq_str type "sparsespeech" = true
          ∧ is_Some (m !! "feature_dim") ∧ config' = config)).
Proof.
  unfold patch_feature_dim. intros Hrun.
  apply and_then_Ok in Hrun as (type & Htype & Hrun).
  apply py_getitem_Ok in Htype as (m & -> & Htype).
  exists m, type. split_and!; try done.
  destruct (py_eq_str type "mfcc") eqn:Hmfcc.
  { left. split; [done|]. and_then_inv Hrun.
    apply py_getitem_Ok in Hv as (m' & [= <-] & Hsub).
    apply py_getitem_Ok in Hv0 as (sub & -> & Hn).
    injection Hrun as <-. eauto 10. }
  destruct (py_eq_str type "melspectrogram" || py_eq_str type "logmelspectrogram")
    eqn:Hmel.
  { right; left. split; [by apply orb_true_iff|]. and_then_inv Hrun.
    apply py_getitem_Ok in Hv as (m' & [= <-] & Hsub).
    apply py_getitem_Ok in Hv0 as (sub & -> & Hn).
    injection Hrun as <-. eauto 10. }
  destruct (py_eq_str type "spectrogram") eqn:Hspec.
  { right; right; left. split; [done|]. and_then_inv Hrun.
    apply py_getitem_Ok in Hv as (m' & [= <-] & Hsub).
    injection Hrun as <-. eauto 10. }
  destruct (py_eq_str type "sparsespeech") eqn:Hsparse; [|done].
  right; right; right. split; [done|].
  apply and_then_Ok in Hrun as (present & Hpresent & Hrun).
  simpl in Hpresent. injection Hpresent as <-.
  case_bool_decide; [|done]. by injection Hrun as <-.
Qed.

(** X16.  When [patch_feature_dim] returns, the result is the config with
    the key "feature_dim" present and every other key as it was. *)
Theorem patch_feature_dim_changes_one_key (config config' : pyval) :
  patch_feature_dim config = Ok config' →
  ∃ m m' : gmap string pyval,
    config = PDict m ∧ config' = PDict m'
    ∧ is_Some (m' !! "feature_dim")
    ∧ ∀ key : string, key ≠ "feature_dim" → m' !! key = m !! key.
Proof.
  intros (m & type & -> & _ & Hcase)%patch_feature_dim_Ok.
  destruct Hcase as [(_ & sub & n & _ & _ & ->)
                    |[(_ & sub & n & _ & _ & ->)
                     |[(_ & v & half & n & _ & _ & _ & ->)
                      |(_ & Hdim & ->)]]].
  1-3: exists m, (<["feature_dim" := n]> m); split_and!; try done;
    [by rewrite lookup_insert_eq | by intros key Hkey; rewrite lookup_insert_ne].
  by exists m, m.
Qed.

Lemma patch_feature_dim_changes_one_key_witness :
  ∃ m m' : gmap string pyval,
    PDict (<["type" := PStr "mfcc"]> {["mfcc" := PDict {["num_coefs" := PInt 20]}]})
    = PDict m
    ∧ PDict (<["feature_dim" := PInt 20]>
             (<["type" := PStr "mfcc"]>
              {["mfcc" := PDict {["num_coefs" := PInt 20]}]})) = PDict m'
    ∧ is_Some (m' !! "feature_dim")
    ∧ ∀ key : string, key ≠ "feature_dim" → m' !! key = m !! key.
Proof.
  exact (patch_feature_dim_changes_one_key
           (PDict (<["type" := PStr "mfcc"]>
                   {["mfcc" := PDict {["num_coefs" := PInt 20]}]}))
           (PDict (<["feature_dim" := PInt 20]>
                   (<["type" := PStr "mfcc"]>
                    {["mfcc" := PDict {["num_coefs" := PInt 20]}]})))
           eq_refl).
Defined.

Lemma py_eq_str_true (v : pyval) (s : string) :
  py_eq_str v s = true ↔ v = PStr s.
Proof.
  destruct v; simpl; try (split; done).
  rewrite bool_decide_eq_true. split; [by intros -> | by intros [= ->]].
Qed.

Lemma patch_feature_dim_spectrogram_value (m : gmap string pyval)
    (v half n : pyval) :
  m !! "type" = Some (PStr "spectrogram") →
  m !! "spectrogram" = Some v →
  py_floordiv v (PInt 2) = Ok half →
  py_add half (PInt 1) = Ok n →
  patch_feature_dim (PDict m) = Ok (PDict (<["feature_dim" := n]> m)).
Proof.
  intros Htype Hv Hhalf Hn. unfold patch_feature_dim.
  patch_step Htype. eval_type_tests. patch_step Hv.
  rewrite Hhalf. cbn [and_then]. rewrite Hn. by cbn [and_then].
Qed.

Lemma patch_feature_dim_sparsespeech (m : gmap string pyval) :
  m !! "type" = Some (PStr "sparsespeech") →
  patch_feature_dim (PDict m)
  = if decide (is_Some (m !! "feature_dim")) then Ok (PDict m)
    else Raise AssertionError.
Proof.
  intros Htype. unfold patch_feature_dim.
  patch_step Htype. eval_type_tests. unfold py_contains. cbn [and_then].
  by case_bool_decide; case_decide.
Qed.

(** X17.  [patch_feature_dim] is idempotent: a config that it has returned
    is returned as it is when it is patched again. *)
Theorem patch_feature_dim_idempotent (config config' : pyval) :
  patch_feature_dim config = Ok config' →
  patch_feature_dim config' = Ok config'.
Proof.
  intros (m & type & -> & Htype & Hcase)%patch_feature_dim_Ok.
  destruct Hcase as [(Hty%py_eq_str_true & sub & n & Hsub & Hn & ->)
                    |[(Hty & sub & n & Hsub & Hn & ->)
                     |[(Hty%py_eq_str_true & v & half & n & Hv & Hhalf & Hn & ->)
                      |(Hty%py_eq_str_true & Hdim & ->)]]]; subst.
  - rewrite (patch_feature_dim_mfcc _ sub n);
      [by rewrite insert_insert_eq | by rewrite lookup_insert_ne .. | done].
  - rewrite !py_eq_str_true in Hty.
    assert (∃ t, type = PStr t ∧ (t = "melspectrogram" ∨ t = "logmelspectrogram"))
      as (t & -> & Ht) by (destruct Hty as [-> | ->]; eauto).
    rewrite (patch_feature_dim_melspectrogram _ sub n t);
      [by rewrite insert_insert_eq | done | by rewrite lookup_insert_ne ..| done].
  - rewrite (patch_feature_dim_spectrogram_value _ v half n);
      [by rewrite insert_insert_eq | by rewrite lookup_insert_ne .. | done | done].
  - rewrite patch_feature_dim_sparsespeech by done. by rewrite decide_True.
Qed.

Lemma patch_feature_dim_idempotent_witness :
  patch_feature_dim
    (PDict (<["feature_dim" := PInt 20]>
            (<["type" := PStr "mfcc"]>
             {["mfcc" := PDict {["num_coefs" := PInt 20]}]})))
  = Ok (PDict (<["feature_dim" := PInt 20]>
               (<["type" := PStr "mfcc"]>
                {["mfcc" := PDict {["num_coefs" := PInt 20]}]}))).
Proof.
  exact (patch_feature_dim_idempotent
           (PDict (<["type" := PStr "mfcc"]>
                   {["mfcc" := PDict {["num_coefs" := PInt 20]}]}))
           (PDict (<["feature_dim" := PInt 20]>
                   (<["type" := PStr "mfcc"]>
                    {["mfcc" := PDict {["num_coefs" := PInt 20]}]})))
           eq_refl).
Defined.

Lemma and_then_Raise {A B : Type} (r : result A) (f : A → result B) (e : exn) :
  and_then r f = Raise e ↔ r = Raise e ∨ ∃ a, r = Ok a ∧ f a = Raise e.
Proof.
  destruct r as [a|e']; simpl; split.
  - intros Hf. right. by exists a.
  - by intros [?|(a' & [= ->] & Hf)].
  - intros [= ->]. by left.
  - by intros [[= ->]|(a' & ? & _)].
Qed.

Lemma py_getitem_not_assertion (d : pyval) (key : string) :
  py_getitem d key ≠ Raise AssertionError.
Proof. destruct d; simpl; try done. by destruct (d !! key). Qed.

Lemma py_floordiv_not_assertion (a b : pyval) :
  py_floordiv a b ≠ Raise AssertionError.
Proof.
  unfold py_floordiv.
  destruct (py_number a) as [[x|x]|]; destruct (py_number b) as [[y|y]|];
    try done; try case_decide; try done; by destruct (Qeq_bool _ _).
Qed.

Lemma py_add_not_assertion (a b : pyval) : py_add a b ≠ Raise AssertionError.
Proof.
  unfold py_add.
  by destruct (py_number a) as [[x|x]|]; destruct (py_number b) as [[y|y]|].
Qed.

(** X18.  [patch_feature_dim] fails its assertions in two cases only:
    the type is none of "mfcc", "melspectrogram", "logmelspectrogram",
    "spectrogram" and "sparsespeech", or the type is "sparsespeech" and
    there is no "feature_dim".  A config without "type" is a [KeyError]. *)
Theorem patch_feature_dim_assertion (m : gmap string pyval) :
  (m !! "type" = None → patch_feature_dim (PDict m) = Raise KeyError)
  ∧ ∀ type : pyval,
      m !! "type" = Some type →
      (patch_feature_dim (PDict m) = Raise AssertionError
       ↔ type ∉ PStr <$> ["mfcc"; "melspectrogram"; "logmelspectrogram";
                          "spectrogram"; "sparsespeech"]
         ∨ (type = PStr "sparsespeech" ∧ m !! "feature_dim" = None)).
Proof.
  split.
  { intros Htype. unfold patch_feature_dim. by patch_step Htype. }
  intros type Htype.
  assert (∀ s, type = PStr s ∨ py_eq_str type s = false) as Hstr.
  { intros s. destruct (py_eq_str type s) eqn:Heq; [|by right].
    left. by apply py_eq_str_true. }
  unfold patch_feature_dim.
  change (py_getitem (PDict m) "type")
    with (match m !! "type" with Some v => Ok v | None => Raise KeyError end).
  rewrite Htype. cbn [and_then]. clear Htype.
  destruct (Hstr "mfcc") as [->|Hmfcc].
  { eval_type_tests. split.
    - intros [Hbad|(a & _ & [Hbad|(n & _ & Hbad)]%and_then_Raise)]%and_then_Raise.
      + by apply py_getitem_not_assertion in Hbad.
      + by apply py_getitem_not_assertion in Hbad.
      + done.
    - intros [Hnot|[[=] _]]. exfalso. apply Hnot. repeat constructor. }
  rewrite Hmfcc.
  destruct (Hstr "melspectrogram") as [->|Hmel].
  { eval_type_tests. split.
    - intros [Hbad|(a & _ & [Hbad|(n & _ & Hbad)]%and_then_Raise)]%and_then_Raise.
      + by apply py_getitem_not_assertion in Hbad.
      + by apply py_getitem_not_assertion in Hbad.
      + done.
    - intros [Hnot|[[=] _]]. exfalso. apply Hnot. repeat constructor. }
  rewrite Hmel.
  destruct (Hstr "logmelspectrogram") as [->|Hlog].
  { eval_type_tests. split.
    - intros [Hbad|(a & _ & [Hbad|(n & _ & Hbad)]%and_then_Raise)]%and_then_Raise.
      + by apply py_getitem_not_assertion in Hbad.
      + by apply py_getitem_not_assertion in Hbad.
      + done.
    - intros [Hnot|[[=] _]]. exfalso. apply Hnot. repeat constructor. }
  rewrite Hlog. cbn [orb].
  destruct (Hstr "spectrogram") as [->|Hspec].
  { eval_type_tests. split.
    - intros [Hbad|(a & _ & [Hbad|(h & _ & [Hbad|(n & _ & Hbad)]%and_then_Raise)
                                 ]%and_then_Raise)]%and_then_Raise.
      + by apply py_getitem_not_assertion in Hbad.
      + by apply py_floordiv_not_assertion in Hbad.
      + by apply py_add_not_assertion in Hbad.
      + done.
    - intros [Hnot|[[=] _]]. exfalso. apply Hnot. repeat constructor. }
  rewrite Hspec.
  destruct (Hstr "sparsespeech") as [->|Hsparse].
  { eval_type_tests. unfold py_contains. cbn [and_then].
    case_bool_decide as Hdim.
    - split; [done|]. intros [Hnot|[_ Hnone]].
      + exfalso. apply Hnot. repeat constructor.
      + rewrite Hnone in Hdim. by destruct Hdim.
    - split; [|done]. intros _. right. split; [done|].
      by apply eq_None_not_Some. }
  rewrite Hsparse. split; [|done]. intros _. left.
  intros Hin. repeat (apply elem_of_cons in Hin as [->|Hin]; [done|]).
  by apply elem_of_nil in Hin.
Qed.

(** ** The feature config in [Train.train] *)

Lemma py_floordiv_two (v : pyval) :
  (∃ half, py_floordiv v (PInt 2) = Ok half ∧ is_Some (py_number v)
           ∧ is_Some (py_number half))
  ∨ (py_floordiv v (PInt 2) = Raise TypeError ∧ py_number v = None).
Proof.
  unfold py_floordiv. destruct (py_number v) as [[x|x]|] eqn:Hnum; simpl.
  - left. eexists. split_and!; [done | eauto | by eexists].
  - left. eexists. split_and!; [done | eauto | by eexists].
  - by right.
Qed.

Lemma py_add_one (half : pyval) :
  is_Some (py_number half) → ∃ n, py_add half (PInt 1) = Ok n.
Proof.
  intros [[x|x] Hnum]; unfold py_add; rewrite Hnum; simpl; eauto.
Qed.

Lemma py_in_number (key : string) (v : pyval) :
  is_Some (py_number v) → py_in key v = Raise TypeError.
Proof. by destruct v; intros [? [=]]. Qed.

Lemma spectrogram_frames_to_vad_number (m : gmap string pyval) (v : pyval) :
  m !! "spectrogram" = Some v →
  is_Some (py_number v) →
  spectrogram_frames_to_vad (PDict m) = Raise TypeError.
Proof.
  intros Hv Hnum. unfold spectrogram_frames_to_vad, py_in at 1.
  rewrite Hv. cbn [and_then].
  rewrite bool_decide_eq_true_2 by eauto.
  cbn [foldl and_then]. patch_step Hv.
  by rewrite (py_in_number _ _ Hnum).
Qed.

(** X19.  No config of type "spectrogram" gets through the lines of
    [Train.train] that prepare the feature config: [patch_feature_dim]
    divides the value under "spectrogram" by 2, the lines after it look
    for keys in that value, and no value allows both.  The exception is a
    [KeyError] or a [TypeError]. *)
Theorem spectrogram_config_never_trains (experiment_config : pyval)
    (m : gmap string pyval) :
  py_getitem experiment_config "features" = Ok (PDict m) →
  m !! "type" = Some (PStr "spectrogram") →
  train_feature_config experiment_config = Raise KeyError
  ∨ train_feature_config experiment_config = Raise TypeError.
Proof.
  intros Hfeat Htype. unfold train_feature_config.
  apply py_getitem_Ok in Hfeat as (ec & -> & Hfeat).
  unfold py_getitem. destruct (ec !! "experiment") as [training_config|];
    [|by left]. cbn [and_then].
  rewrite Hfeat. cbn [and_then].
  destruct (m !! "spectrogram") as [v|] eqn:Hv.
  - destruct (py_floordiv_two v) as [(half & Hhalf & Hnum & Hnum')|[Hhalf _]].
    + destruct (py_add_one half Hnum') as [n Hn].
      rewrite (patch_feature_dim_spectrogram_value m v half n) by done.
      cbn [and_then]. right.
      unfold melspectrogram_sample_rate.
      assert ((<["feature_dim" := n]> m) !! "type" = Some (PStr "spectrogram"))
        as Htype' by (by rewrite lookup_insert_ne).
      patch_step Htype'. eval_type_tests. cbn [and_then].
      apply (spectrogram_frames_to_vad_number _ v); [|done].
      by rewrite lookup_insert_ne.
    + right. unfold patch_feature_dim.
      patch_step Htype. eval_type_tests. patch_step Hv.
      rewrite Hhalf. done.
  - left. unfold patch_feature_dim.
    patch_step Htype. eval_type_tests. by patch_step Hv.
Qed.

Lemma spectrogram_config_never_trains_witness :
  train_feature_config
    (PDict (<["experiment" := PDict ∅]> {["features" := spectrogram_config]}))
  = Raise KeyError
  ∨ train_feature_config
      (PDict (<["experiment" := PDict ∅]> {["features" := spectrogram_config]}))
    = Raise TypeError.
Proof.
  exact (spectrogram_config_never_trains
           (PDict (<["experiment" := PDict ∅]> {["features" := spectrogram_config]}))
           (<["type" := PStr "spectrogram"]>
            (<["spectrogram" :=
                 PDict (<["frame_length" := PInt 400]>
                        (<["frame_step" := PInt 160]>
                         {["fft_length" := PInt 512]}))]>
             {["voice_activity_detection" := PDict ∅]}))
           eq_refl eq_refl).
Defined.

Lemma spectrogram_frames_to_vad_rounds (m : gmap string pyval) :
  is_Some (m !! "spectrogram") →
  spectrogram_frames_to_vad (PDict m)
  = let! feat_config := copy_frame (PDict m) "frame_length" in
    copy_frame feat_config "frame_step".
Proof.
  intros Hspec. unfold spectrogram_frames_to_vad, py_in at 1. cbn [and_then].
  rewrite bool_decide_eq_true_2 by done. cbn [foldl and_then].
  fold (copy_frame (PDict m) "frame_length").
  by destruct (copy_frame (PDict m) "frame_length").
Qed.

Lemma copy_frame_dicts (m sub vad : gmap string pyval) (k : string) :
  m !! "spectrogram" = Some (PDict sub) →
  m !! "voice_activity_detection" = Some (PDict vad) →
  copy_frame (PDict m) k
  = Ok (PDict (<["voice_activity_detection" :=
                   PDict (match sub !! k with
                          | Some v => <[k := v]> vad
                          | None => vad
                          end)]> m)).
Proof.
  intros Hsub Hvad. unfold copy_frame. patch_step Hsub. unfold py_in.
  cbn [and_then]. destruct (sub !! k) as [v|] eqn:Hk.
  - rewrite bool_decide_eq_true_2 by eauto. cbn [and_then].
    rewrite Hvad. by cbn [and_then py_setitem].
  - rewrite bool_decide_eq_false_2 by (by intros [? ?]).
    by rewrite insert_id.
Qed.

(** X20.  When the feature config has the sub-configs "spectrogram" and
    "voice_activity_detection", lines 193 to 196 of [Train.train] copy
    "frame_length" and "frame_step" from the first to the second, where
    the first has them: the voice activity detection gets the frames of
    the spectrogram, keeps its other keys, and nothing else in the config
    changes. *)
Theorem vad_gets_spectrogram_frames (m sub vad : gmap string pyval) :
  m !! "spectrogram" = Some (PDict sub) →
  m !! "voice_activity_detection" = Some (PDict vad) →
  ∃ vad' : gmap string pyval,
    spectrogram_frames_to_vad (PDict m)
    = Ok (PDict (<["voice_activity_detection" := PDict vad']> m))
    ∧ ∀ k : string,
        vad' !! k
        = if decide (k = "frame_length" ∨ k = "frame_step")
          then match sub !! k with
               | Some v => Some v
               | None => vad !! k
               end
          else vad !! k.
Proof.
  intros Hsub Hvad.
  rewrite spectrogram_frames_to_vad_rounds by eauto.
  rewrite (copy_frame_dicts m sub vad) by done. cbn [and_then].
  erewrite (copy_frame_dicts _ sub);
    [| by rewrite lookup_insert_ne | by rewrite lookup_insert_eq].
  rewrite insert_insert_eq. eexists. split; [done|].
  intros k.
  destruct (decide (k = "frame_step")) as [->|Hstep].
  { rewrite decide_True by auto.
    destruct (sub !! "frame_step") as [v2|]; [by rewrite lookup_insert_eq|].
    destruct (sub !! "frame_length") as [v1|]; [by rewrite lookup_insert_ne|done]. }
  assert (match sub !! "frame_step" with
          | Some v =>
              <["frame_step" := v]>
                match sub !! "frame_length" with
                | Some v0 => <["frame_length" := v0]> vad
                | None => vad
                end
          | None =>
              match sub !! "frame_length" with
              | Some v0 => <["frame_length" := v0]> vad
              | None => vad
              end
          end !! k
          = match sub !! "frame_length" with
            | Some v0 => <["frame_length" := v0]> vad
            | None => vad
            end !! k) as ->.
  { destruct (sub !! "frame_step"); [by rewrite lookup_insert_ne|done]. }
  destruct (decide (k = "frame_length")) as [->|Hlen].
  - rewrite decide_True by auto.
    by destruct (sub !! "frame_length") as [v1|]; [rewrite lookup_insert_eq|].
  - rewrite decide_False by tauto.
    by destruct (sub !! "frame_length") as [v1|]; [rewrite lookup_insert_ne|].
Qed.

Lemma vad_gets_spectrogram_frames_witness :
  ∃ vad' : gmap string pyval,
    spectrogram_frames_to_vad
      (PDict (<["spectrogram" := PDict {["frame_length" := PInt 400]}]>
              {["voice_activity_detection" := PDict {["frame_length" := PInt 10]}]}))
    = Ok (PDict (<["voice_activity_detection" := PDict vad']>
                 (<["spectrogram" := PDict {["frame_length" := PInt 400]}]>
                  {["voice_activity_detection" :=
                      PDict {["frame_length" := PInt 10]}]})))
    ∧ ∀ k : string,
        vad' !! k
        = if decide (k = "frame_length" ∨ k = "frame_step")
          then match ({["frame_length" := PInt 400]} : gmap string pyval) !! k with
               | Some v => Some v
               | None => ({["frame_length" := PInt 10]} : gmap string pyval) !! k
               end
          else ({["frame_length" := PInt 10]} : gmap string pyval) !! k.
Proof.
  exact (vad_gets_spectrogram_frames
           (<["spectrogram" := PDict {["frame_length" := PInt 400]}]>
            {["voice_activity_detection" := PDict {["frame_length" := PInt 10]}]})
           {["frame_length" := PInt 400]} {["frame_length" := PInt 10]}
           eq_refl eq_refl).
Defined.

(** X21.  A "spectrogram" sub-config that has "frame_length" or
    "frame_step" needs the section "voice_activity_detection": without
    it, lines 193 to 196 raise a [KeyError]. *)
Theorem spectrogram_frames_need_vad (m sub : gmap string pyval) :
  m !! "spectrogram" = Some (PDict sub) →
  is_Some (sub !! "frame_length") ∨ is_Some (sub !! "frame_step") →
  m !! "voice_activity_detection" = None →
  spectrogram_frames_to_vad (PDict m) = Raise KeyError.
Proof.
  intros Hsub Hframes Hvad.
  rewrite spectrogram_frames_to_vad_rounds by eauto.
  assert (∀ k, is_Some (sub !! k) → copy_frame (PDict m) k = Raise KeyError)
    as Hraise.
  { intros k [v Hk]. unfold copy_frame. patch_step Hsub. unfold py_in.
    cbn [and_then]. rewrite bool_decide_eq_true_2 by eauto. cbn [and_then].
    rewrite Hk. cbn [and_then]. by rewrite Hvad. }
  destruct (sub !! "frame_length") as [v|] eqn:Hlen.
  - by rewrite Hraise by eauto.
  - destruct Hframes as [[? [=]]|Hstep].
    assert (copy_frame (PDict m) "frame_length" = Ok (PDict m)) as ->.
    { unfold copy_frame. patch_step Hsub. unfold py_in. cbn [and_then].
      rewrite Hlen. by rewrite bool_decide_eq_false_2 by (by intros [? ?]). }
    cbn [and_then]. by apply Hraise.
Qed.

Lemma spectrogram_frames_need_vad_witness :
  spectrogram_frames_to_vad
    (PDict {["spectrogram" := PDict {["frame_step" := PInt 160]}]})
  = Raise KeyError.
Proof.
  exact (spectrogram_frames_need_vad
           {["spectrogram" := PDict {["frame_step" := PInt 160]}]}
           {["frame_step" := PInt 160]} eq_refl
           (or_intror (ex_intro _ (PInt 160) eq_refl)) eq_refl).
Defined.

(** X22.  For the types "melspectrogram", "logmelspectrogram" and "mfcc",
    and a dataset config with "sample_rate", lines 188 to 192 of
    [Train.train] put the sample rate of the dataset under
    "sample_rate" of the sub-config "melspectrogram", which is made when
    the feature config has none; its other keys and the other keys of the
    feature config stay. *)
Theorem melspectrogram_gets_sample_rate (experiment_config : pyval)
    (ds m : gmap string pyval) (type : string) (rate : pyval) :
  type ∈ ["melspectrogram"; "logmelspectrogram"; "mfcc"] →
  py_getitem experiment_config "dataset" = Ok (PDict ds) →
  ds !! "sample_rate" = Some rate →
  m !! "type" = Some (PStr type) →
  (∀ v, m !! "melspectrogram" = Some v → ∃ mel, v = PDict mel) →
  ∃ mel : gmap string pyval,
    (m !! "melspectrogram" = Some (PDict mel)
     ∨ m !! "melspectrogram" = None ∧ mel = ∅)
    ∧ melspectrogram_sample_rate experiment_config (PDict m)
      = Ok (PDict (<["melspectrogram" := PDict (<["sample_rate" := rate]> mel)]> m)).
Proof.
  intros Htype Hds Hrate Hty Hmel. unfold melspectrogram_sample_rate.
  patch_step Hty.
  assert (py_eq_str (PStr type) "melspectrogram"
          || py_eq_str (PStr type) "logmelspectrogram"
          || py_eq_str (PStr type) "mfcc" = true) as ->.
  { repeat (apply elem_of_cons in Htype as [->|Htype]; [done|]).
    by apply elem_of_nil in Htype. }
  apply py_getitem_Ok in Hds as (ec & -> & Hds).
  rewrite Hds. cbn [and_then py_in]. rewrite bool_decide_eq_true_2 by eauto.
  rewrite Hrate. cbn [and_then].
  destruct (m !! "melspectrogram") as [v|] eqn:Hv.
  - destruct (Hmel v eq_refl) as [mel ->]. exists mel. split; [by left|].
    rewrite bool_decide_eq_true_2 by eauto. cbn [and_then].
    rewrite Hv. by cbn [and_then py_setitem].
  - exists ∅. split; [by right|].
    rewrite bool_decide_eq_false_2 by (by intros [? ?]).
    cbn [and_then py_setitem]. rewrite lookup_insert_eq.
    cbn [and_then py_setitem]. by rewrite insert_insert_eq.
Qed.

Lemma melspectrogram_gets_sample_rate_witness :
  ∃ mel : gmap string pyval,
    (({["type" := PStr "mfcc"]} : gmap string pyval) !! "melspectrogram"
     = Some (PDict mel)
     ∨ ({["type" := PStr "mfcc"]} : gmap string pyval) !! "melspectrogram" = None
       ∧ mel = ∅)
    ∧ melspectrogram_sample_rate
        (PDict {["dataset" := PDict {["sample_rate" := PInt 16000]}]})
        (PDict {["type" := PStr "mfcc"]})
      = Ok (PDict (<["melspectrogram" := PDict (<["sample_rate" := PInt 16000]> mel)]>
                   {["type" := PStr "mfcc"]})).
Proof.
  exact (melspectrogram_gets_sample_rate
           (PDict {["dataset" := PDict {["sample_rate" := PInt 16000]}]})
           {["sample_rate" := PInt 16000]} {["type" := PStr "mfcc"]} "mfcc"
           (PInt 16000) ltac:(repeat constructor) eq_refl eq_refl eq_refl
           ltac:(intros v Hv; vm_compute in Hv; discriminate)).
Defined.

(** X23.  For these three types a dataset config without "sample_rate"
    fails the assertion of line 189; for a type that is none of the three
    the dataset config is not read and the feature config stays as it
    is. *)
Theorem sample_rate_is_asserted (experiment_config : pyval)
    (m : gmap string pyval) (type : string) :
  m !! "type" = Some (PStr type) →
  (type ∈ ["melspectrogram"; "logmelspectrogram"; "mfcc"] →
   ∀ ds : gmap string pyval,
     py_getitem experiment_config "dataset" = Ok (PDict ds) →
     ds !! "sample_rate" = None →
     melspectrogram_sample_rate experiment_config (PDict m) = Raise AssertionError)
  ∧ (type ∉ ["melspectrogram"; "logmelspectrogram"; "mfcc"] →
     melspectrogram_sample_rate experiment_config (PDict m) = Ok (PDict m)).
Proof.
  intros Hty. unfold melspectrogram_sample_rate. patch_step Hty. split.
  - intros Htype ds Hds Hrate.
    assert (py_eq_str (PStr type) "melspectrogram"
            || py_eq_str (PStr type) "logmelspectrogram"
            || py_eq_str (PStr type) "mfcc" = true) as ->.
    { repeat (apply elem_of_cons in Htype as [->|Htype]; [done|]).
      by apply elem_of_nil in Htype. }
    apply py_getitem_Ok in Hds as (ec & -> & Hds).
    rewrite Hds. cbn [and_then py_in].
    by rewrite bool_decide_eq_false_2 by (rewrite Hrate; by intros [? ?]).
  - intros Htype.
    assert (py_eq_str (PStr type) "melspectrogram"
            || py_eq_str (PStr type) "logmelspectrogram"
            || py_eq_str (PStr type) "mfcc" = false) as ->; [|done].
    rewrite !orb_false_iff. simpl.
    split_and!; apply bool_decide_eq_false; intros ->; apply Htype;
      repeat constructor.
Qed.

Lemma sample_rate_is_asserted_witness :
  ("mfcc" ∈ ["melspectrogram"; "logmelspectrogram"; "mfcc"] →
   ∀ ds : gmap string pyval,
     py_getitem (PDict {["dataset" := PDict ∅]}) "dataset" = Ok (PDict ds) →
     ds !! "sample_rate" = None →
     melspectrogram_sample_rate (PDict {["dataset" := PDict ∅]})
       (PDict {["type" := PStr "mfcc"]}) = Raise AssertionError)
  ∧ ("mfcc" ∉ ["melspectrogram"; "logmelspectrogram"; "mfcc"] →
     melspectrogram_sample_rate (PDict {["dataset" := PDict ∅]})
       (PDict {["type" := PStr "mfcc"]}) = Ok (PDict {["type" := PStr "mfcc"]})).
Proof.
  exact (sample_rate_is_asserted (PDict {["dataset" := PDict ∅]})
           {["type" := PStr "mfcc"]} "mfcc" eq_refl).
Defined.

(** ** Files of space separated columns *)

Section text_facts.
Context {char : Type} (isspace : char → bool).

Lemma split_from_concat (word s : list char) :
  concat (split_from isspace word s) = word ++ visible isspace s.
Proof.
  revert word. induction s as [|c s IH]; intros word; simpl.
  - destruct word; simpl; by rewrite ?app_nil_r.
  - unfold visible in *. destruct (isspace c) eqn:Hc.
    + rewrite filter_cons_False by (by rewrite Hc).
      destruct word; simpl; by rewrite IH.
    + rewrite filter_cons_True by done. by rewrite IH, <- app_assoc.
Qed.

Lemma split_from_tokens (word s : list char) :
  Forall (λ c, isspace c = false) word →
  Forall (λ tok, tok ≠ [] ∧ Forall (λ c, isspace c = false) tok)
         (split_from isspace word s).
Proof.
  revert word. induction s as [|c s IH]; intros word Hword; simpl.
  - destruct word; [constructor|]. constructor; [done|constructor].
  - destruct (isspace c) eqn:Hc.
    + destruct word; [by apply IH|].
      constructor; [done|]. by apply IH.
    + apply IH, Forall_app. split; [done|]. by repeat constructor.
Qed.

Lemma lstrip_visible (s : list char) :
  visible isspace (lstrip isspace s) = visible isspace s.
Proof.
  induction s as [|c s IH]; simpl; [done|].
  destruct (isspace c) eqn:Hc; [|done].
  unfold visible in *. by rewrite filter_cons_False by (by rewrite Hc).
Qed.

Lemma lstrip_head (s : list char) :
  lstrip isspace s = []
  ∨ ∃ c s', lstrip isspace s = c :: s' ∧ isspace c = false.
Proof.
  induction s as [|c s IH]; simpl; [by left|].
  destruct (isspace c) eqn:Hc; [done|]. right. eauto.
Qed.

Lemma strip_visible (s : list char) :
  visible isspace (py_strip isspace s) = visible isspace s.
Proof.
  unfold py_strip, visible.
  rewrite filter_reverse. fold (visible isspace (lstrip isspace (reverse (lstrip isspace s)))).
  rewrite lstrip_visible. unfold visible. rewrite filter_reverse, reverse_involutive.
  apply lstrip_visible.
Qed.

Lemma strip_nil (s : list char) :
  py_strip isspace s = [] ↔ visible isspace s = [].
Proof.
  split.
  - intros Hs. by rewrite <- strip_visible, Hs.
  - intros Hs. unfold py_strip.
    destruct (lstrip_head s) as [->|(c & s' & Hl & Hc)]; [done|].
    rewrite <- lstrip_visible, Hl in Hs. unfold visible in Hs.
    by rewrite filter_cons_True in Hs.
Qed.

(** X24.  [parse_space_separated] loses no visible character and adds
    none: the rows, each with its columns joined, are the lines without
    their whitespace, in the order of the file, and the lines that are
    empty or all whitespace give no row. *)
Theorem parse_space_separated_content (lines : list (list char)) :
  (λ row, concat row) <$> parse_space_separated isspace lines
  = filter (λ l, 0 < length l) (visible isspace <$> lines).
Proof.
  induction lines as [|l lines IH]; [done|].
  cbn [parse_space_separated fmap list_fmap].
  destruct (py_strip isspace l) as [|c s] eqn:Hstrip.
  - apply strip_nil in Hstrip. rewrite Hstrip.
    rewrite filter_cons_False by (simpl; lia). exact IH.
  - assert (visible isspace l ≠ []) as Hvis.
    { intros Hnil%strip_nil. by rewrite Hnil in Hstrip. }
    rewrite filter_cons_True by (destruct (visible isspace l); simpl; [done | lia]).
    cbn [fmap list_fmap]. f_equal; [|exact IH].
    unfold py_split. by rewrite split_from_concat, <- Hstrip, strip_visible.
Qed.

(** X25.  Every row that [parse_space_separated] yields has at least one
    column, and every column has at least one character and no
    whitespace. *)
Theorem parse_space_separated_rows (lines : list (list char)) :
  Forall (λ row,
            row ≠ []
            ∧ Forall (λ column,
                        column ≠ [] ∧ Forall (λ c, isspace c = false) column) row)
         (parse_space_separated isspace lines).
Proof.
  induction lines as [|l lines IH]; [constructor|].
  cbn [parse_space_separated].
  destruct (py_strip isspace l) as [|c s] eqn:Hstrip; [done|].
  constructor; [|done]. split.
  - intros Hrow.
    assert (visible isspace (c :: s) = []) as Hvis.
    { by rewrite <- (app_nil_l (visible _ _)),
        <- (split_from_concat [] (c :: s)), <- Hstrip; fold (py_split isspace (py_strip isspace l));
        rewrite Hstrip, Hrow. }
    rewrite <- Hstrip, strip_visible in Hvis.
    apply strip_nil in Hvis. by rewrite Hvis in Hstrip.
  - unfold py_split. by apply split_from_tokens.
Qed.
End text_facts.

(** ** The files of a datagroup *)

Section select_facts.
Context {T : Type} `{EqDecision T}.

Lemma od_get_set (d : list (T * T)) (k v k' : T) :
  od_get (od_set d k v) k' = if decide (k = k') then Ok v else od_get d k'.
Proof.
  induction d as [|[k0 v0] d IH]; simpl.
  - by destruct (decide (k = k')).
  - destruct (decide (k0 = k)) as [->|Hne]; simpl.
    + by destruct (decide (k = k')).
    + destruct (decide (k0 = k')) as [->|Hne'].
      * by rewrite decide_False by done.
      * exact IH.
Qed.

Lemma od_set_keys (d : list (T * T)) (k v : T) :
  (od_set d k v).*1 = if decide (k ∈ d.*1) then d.*1 else d.*1 ++ [k].
Proof.
  induction d as [|[k0 v0] d IH]; [done|].
  cbn [od_set]. rewrite fmap_cons. cbn [fst].
  destruct (decide (k0 = k)) as [->|Hne].
  - rewrite fmap_cons. cbn [fst]. by rewrite decide_True by left.
  - rewrite fmap_cons, IH. cbn [fst].
    destruct (decide (k ∈ d.*1)) as [Hin|Hout].
    + by rewrite decide_True by (by right).
    + rewrite decide_False; [done|].
      by intros [->|?]%elem_of_cons.
Qed.

Lemma od_set_NoDup (d : list (T * T)) (k v : T) :
  NoDup d.*1 → NoDup (od_set d k v).*1.
Proof.
  intros Hd. rewrite od_set_keys. case_decide as Hin; [done|].
  apply NoDup_app. split_and!; [done | | apply NoDup_singleton].
  intros x Hx ->%list_elem_of_singleton. done.
Qed.

Lemma od_get_Ok (d : list (T * T)) (k : T) :
  k ∈ d.*1 ↔ ∃ v, od_get d k = Ok v.
Proof.
  induction d as [|[k0 v0] d IH]; simpl.
  - split; [by intros ?%elem_of_nil | by intros [? ?]].
  - destruct (decide (k0 = k)) as [->|Hne].
    + split; [eauto | by left].
    + rewrite elem_of_cons, IH. split; [by intros [?|?] | by right].
Qed.

Lemma od_get_Raise (d : list (T * T)) (k : T) (e : exn) :
  od_get d k = Raise e → e = KeyError ∧ k ∉ d.*1.
Proof.
  intros Hget. split.
  - induction d as [|[k0 v0] d IH]; simpl in *; [congruence|].
    destruct (decide (k0 = k)); [done | auto].
  - intros [v Hv]%od_get_Ok. congruence.
Qed.

Lemma ordered_dict_from_spec (d0 : list (T * T)) (rows : list (list T)) :
  (Forall (λ row, 2 ≤ length row) rows
   ∧ ∃ d, ordered_dict_from d0 rows = Ok d
          ∧ (NoDup d0.*1 → NoDup d.*1)
          ∧ (∀ k, k ∈ d.*1 ↔ k ∈ d0.*1 ∨ k ∈ omap head rows)
          ∧ ∀ k, od_get d k = match last_value rows k with
                              | Some v => Ok v
                              | None => od_get d0 k
                              end)
  ∨ (Exists (λ row, length row < 2) rows
     ∧ ordered_dict_from d0 rows = Raise ValueError).
Proof.
  revert d0. induction rows as [|row rows IH]; intros d0.
  - left. split; [constructor|]. exists d0. simpl. split_and!; try done.
    intros k. rewrite elem_of_nil. tauto.
  - destruct row as [|k [|v row]].
    + right. split; [left; simpl; lia | done].
    + right. split; [left; simpl; lia | done].
    + cbn [ordered_dict_from take].
      destruct (IH (od_set d0 k v)) as [(Hall & d & Hrun & Hnd & Hkeys & Hget)|[Hex Hrun]].
      * left. split; [constructor; [simpl; lia | done]|].
        exists d. split_and!; [done | | |].
        -- intros Hd0. by apply Hnd, od_set_NoDup.
        -- intros k'. rewrite Hkeys, od_set_keys. simpl.
           rewrite elem_of_cons. case_decide as Hin.
           ++ split; [tauto|]. intros [?|[->|?]]; tauto.
           ++ rewrite elem_of_app, list_elem_of_singleton.
              split; [intros [[?| ->]|?]; tauto | intros [?|[->|?]]; tauto].
        -- intros k'. rewrite Hget, od_get_set. unfold last_value. simpl.
           destruct (decide (k = k')) as [->|Hne].
           ++ rewrite last_cons. unfold omap. by destruct (last _).
           ++ done.
      * right. split; [by right | done].
Qed.

(** What the loop adds to the three results. *)
Lemma select_loop_spec (d1 d2 : list (T * T)) (labels keys : list T)
    (acc sel : selection) :
  select_loop d1 d2 labels keys acc = Ok sel →
  ∃ (ps : list T) (ms : list (T * T)) (dropped : nat),
    sel = mk_selection (sel_paths acc ++ ps) (sel_paths_meta acc ++ ms)
                       (sel_num_dropped acc + dropped)
    ∧ length ps = length ms
    ∧ length ps + dropped = length keys
    ∧ ms.*1 `sublist_of` keys
    ∧ ∀ i utt label,
        ms !! i = Some (utt, label) →
        label ∈ labels ∧ od_get d2 utt = Ok label
        ∧ ∃ p, ps !! i = Some p ∧ od_get d1 utt = Ok p.
Proof.
  revert acc. induction keys as [|utt keys IH]; intros acc; simpl.
  - intros [= <-]. exists [], [], 0. rewrite !app_nil_r, Nat.add_0_r.
    destruct acc. split_and!; try done.
  - intros Hrun. apply and_then_Ok in Hrun as (label & Hlabel & Hrun).
    case_decide as Hin.
    + apply and_then_Ok in Hrun as (path & Hpath & Hrun).
      apply IH in Hrun as (ps & ms & dropped & -> & Hlen & Hcount & Hsub & Hitems).
      simpl. exists (path :: ps), ((utt, label) :: ms), dropped.
      rewrite <- !app_assoc. simpl.
      split_and!; [done | lia | lia | by constructor |].
      intros [|i] utt' label' Hi; simpl in *.
      * injection Hi as <- <-. eauto.
      * by apply Hitems.
    + apply IH in Hrun as (ps & ms & dropped & -> & Hlen & Hcount & Hsub & Hitems).
      simpl. exists ps, ms, (S dropped).
      split_and!; [f_equal; lia | done | lia | by constructor | done].
Qed.

Lemma select_loop_total (d1 d2 : list (T * T)) (labels keys : list T)
    (acc : selection) :
  keys ⊆ d1.*1 → keys ⊆ d2.*1 →
  ∃ sel, select_loop d1 d2 labels keys acc = Ok sel.
Proof.
  revert acc. induction keys as [|utt keys IH]; intros acc H1 H2; simpl.
  - eauto.
  - apply list_subseteq_cons_iff in H1 as [Hk1 H1].
    apply list_subseteq_cons_iff in H2 as [Hk2 H2].
    apply od_get_Ok in Hk1 as [p ->]. apply od_get_Ok in Hk2 as [label ->].
    simpl. case_decide; by apply IH.
Qed.
End select_facts.

Section select_paths_facts.
Context {T : Type} `{EqDecision T}.
Variable shuffle : list T → list T.
Hypothesis shuffle_Permutation : ∀ l, shuffle l ≡ₚ l.

(** The keys that the loop goes through. *)
Lemma select_paths_keys (args : train_args) (keys : list T) :
  let keys' := if shuffle_file_list args then shuffle keys else keys in
  let keys'' :=
    match file_limit args with
    | Some n => if decide (n = 0%Z) then keys' else py_prefix n keys'
    | None => keys'
    end in
  keys'' ⊆ keys
  ∧ (NoDup keys → NoDup keys'')
  ∧ length keys''
    = match file_limit args with
      | Some n =>
          if decide (n = 0%Z) then length keys
          else if decide (0 ≤ n)%Z then Z.to_nat n `min` length keys
               else length keys - Z.to_nat (- n)
      | None => length keys
      end.
Proof.
  intros keys' keys''.
  assert (keys' ≡ₚ keys) as Hperm.
  { subst keys'. by destruct (shuffle_file_list args). }
  assert (∀ n, py_prefix n keys' `sublist_of` keys') as Hsub.
  { intros n. unfold py_prefix. case_decide; apply sublist_take. }
  assert (keys'' `sublist_of` keys') as Hsub'.
  { subst keys''. destruct (file_limit args) as [n|]; [|done]. by case_decide. }
  split_and!.
  - intros k Hk. rewrite <- Hperm. by eapply sublist_submseteq, elem_of_submseteq in Hsub'.
  - intros Hnd. apply (sublist_NoDup keys'' keys'); [by rewrite Hperm | done].
  - subst keys''. rewrite <- (Permutation_length Hperm).
    destruct (file_limit args) as [n|]; [|done].
    case_decide; [done|]. unfold py_prefix.
    case_decide; rewrite length_take; lia.
Qed.

Lemma select_paths_cases (args : train_args) (labels : list T)
    (rows1 rows2 : list (list T)) :
  (Exists (λ row, length row < 2) (rows1 ++ rows2)
   ∧ select_paths shuffle args labels rows1 rows2 = Raise ValueError)
  ∨ (Forall (λ row, 2 ≤ length row) (rows1 ++ rows2)
     ∧ ∃ d1 d2 : list (T * T),
         NoDup d1.*1
         ∧ (∀ k, k ∈ d1.*1 ↔ k ∈ omap head rows1)
         ∧ (∀ k, k ∈ d2.*1 ↔ k ∈ omap head rows2)
         ∧ (∀ k v, od_get d1 k = Ok v ↔ last_value rows1 k = Some v)
         ∧ (∀ k v, od_get d2 k = Ok v ↔ last_value rows2 k = Some v)
         ∧ ((¬ (∀ k, k ∈ omap head rows1 ↔ k ∈ omap head rows2)
             ∧ select_paths shuffle args labels rows1 rows2 = Raise AssertionError)
            ∨ ((∀ k, k ∈ omap head rows1 ↔ k ∈ omap head rows2)
               ∧ ∃ (keys : list T) (sel : selection),
                   keys ⊆ d1.*1 ∧ NoDup keys
                   ∧ length keys
                     = match file_limit args with
                       | Some n =>
                           if decide (n = 0%Z) then length d1
                           else if decide (0 ≤ n)%Z
                                then Z.to_nat n `min` length d1
                                else length d1 - Z.to_nat (- n)
                       | None => length d1
                       end
                   ∧ select_loop d1 d2 labels keys (mk_selection [] [] 0) = Ok sel
                   ∧ select_paths shuffle args labels rows1 rows2 = Ok sel))).
Proof.
  unfold select_paths, ordered_dict.
  destruct (ordered_dict_from_spec [] rows1)
    as [(Hall1 & d1 & -> & Hnd1 & Hkeys1 & Hget1)|[Hex1 ->]];
    [|left; split; [apply Exists_app; by left | done]].
  cbn [and_then].
  destruct (ordered_dict_from_spec [] rows2)
    as [(Hall2 & d2 & -> & Hnd2 & Hkeys2 & Hget2)|[Hex2 ->]];
    [|left; split; [apply Exists_app; by right | done]].
  cbn [and_then]. right. split; [by apply Forall_app|].
  exists d1, d2.
  assert (∀ k, k ∈ d1.*1 ↔ k ∈ omap head rows1) as Hk1.
  { intros k. rewrite Hkeys1. simpl. rewrite elem_of_nil. tauto. }
  assert (∀ k, k ∈ d2.*1 ↔ k ∈ omap head rows2) as Hk2.
  { intros k. rewrite Hkeys2. simpl. rewrite elem_of_nil. tauto. }
  split_and!; [by apply Hnd1, NoDup_nil | done | done | | |].
  - intros k v. rewrite Hget1. simpl. destruct (last_value rows1 k); split; intros [=]; by subst.
  - intros k v. rewrite Hget2. simpl. destruct (last_value rows2 k); split; intros [=]; by subst.
  - case_decide as Heq.
    + right. destruct Heq as [H12 H21].
      split; [intros k; rewrite <- Hk1, <- Hk2; split; [apply H12 | apply H21]|].
      destruct (select_paths_keys args d1.*1) as (Hsub & Hnd & Hlen).
      rewrite length_fmap in Hlen.
      destruct (select_loop_total d1 d2 labels _ (mk_selection [] [] 0) Hsub)
        as [sel Hsel]; [by etrans|].
      eexists _, sel. split_and!; [exact Hsub | | exact Hlen | exact Hsel | exact Hsel].
      by apply Hnd, Hnd1, NoDup_nil.
    + left. split; [|done]. intros Hall. apply Heq.
      split; intros k; rewrite Hk1, Hk2; apply Hall.
Qed.
End select_paths_facts.

Section select_paths_theorems.
Context {T : Type} `{EqDecision T}.
Variable shuffle : list T → list T.
Hypothesis shuffle_Permutation : ∀ l, shuffle l ≡ₚ l.

(** X26.  Lines 129 to 156 of [Train.extract_features] raise a
    [ValueError] when a row of utt2path or utt2label has less than two
    columns; with two columns everywhere they fail the assertion when the
    two files do not have the same utterance ids, and otherwise the loop
    runs to its end: no utterance id is looked up in vain, with or without
    shuffling and for every file limit. *)
Theorem select_paths_outcome (args : train_args) (labels : list T)
    (rows1 rows2 : list (list T)) :
  let same_ids := ∀ k, k ∈ omap head rows1 ↔ k ∈ omap head rows2 in
  (Exists (λ row, length row < 2) (rows1 ++ rows2) →
   select_paths shuffle args labels rows1 rows2 = Raise ValueError)
  ∧ (Forall (λ row, 2 ≤ length row) (rows1 ++ rows2) → ¬ same_ids →
     select_paths shuffle args labels rows1 rows2 = Raise AssertionError)
  ∧ (Forall (λ row, 2 ≤ length row) (rows1 ++ rows2) → same_ids →
     ∃ sel, select_paths shuffle args labels rows1 rows2 = Ok sel)
  ∧ select_paths shuffle args labels rows1 rows2 ≠ Raise KeyError.
Proof.
  intros same_ids.
  assert (Forall (λ row : list T, 2 ≤ length row) (rows1 ++ rows2) →
          Exists (λ row : list T, length row < 2) (rows1 ++ rows2) → False)
    as Hexcl.
  { intros Hall (row & Hin & Hshort)%Exists_exists.
    rewrite Forall_forall in Hall. specialize (Hall row Hin). lia. }
  destruct (select_paths_cases shuffle shuffle_Permutation args labels rows1 rows2)
    as [[Hex ->]|(Hall & d1 & d2 & _ & _ & _ & _ & _ & Hcase)].
  - split_and!; [done | intros Hall; by destruct (Hexcl Hall Hex)
                 | intros Hall; by destruct (Hexcl Hall Hex) | done].
  - destruct Hcase as [[Hdiff ->]|(Hsame & keys & sel & _ & _ & _ & _ & ->)].
    + split_and!; [intros Hex; by destruct (Hexcl Hall Hex) | done
                   | intros _ Hsame; by destruct Hdiff | done].
    + split_and!; [intros Hex; by destruct (Hexcl Hall Hex)
                   | intros _ Hdiff; by destruct Hdiff | eauto | done].
Qed.

(** X27.  When the lines return, there is a path for every pair in
    [paths_meta], and the paths and the dropped files together are the
    utterance ids that were looked at: all the different ids of utt2path
    without a file limit, the first n of them for a limit n > 0, all but
    the last -n for a limit n < 0. *)
Theorem select_paths_counts (args : train_args) (labels : list T)
    (rows1 rows2 : list (list T)) (sel : selection) :
  select_paths shuffle args labels rows1 rows2 = Ok sel →
  ∃ ids : list T,
    NoDup ids ∧ (∀ k, k ∈ ids ↔ k ∈ omap head rows1)
    ∧ length (sel_paths sel) = length (sel_paths_meta sel)
    ∧ length (sel_paths sel) + sel_num_dropped sel
      = match file_limit args with
        | Some n =>
            if decide (n = 0%Z) then length ids
            else if decide (0 ≤ n)%Z then Z.to_nat n `min` length ids
                 else length ids - Z.to_nat (- n)
        | None => length ids
        end.
Proof.
  intros Hrun.
  destruct (select_paths_cases shuffle shuffle_Permutation args labels rows1 rows2)
    as [[_ Hbad]|(_ & d1 & d2 & Hnd & Hk1 & _ & _ & _ & Hcase)]; [congruence|].
  destruct Hcase as [[_ Hbad]|(_ & keys & sel' & _ & _ & Hlen & Hloop & Hsel)];
    [congruence|].
  rewrite Hrun in Hsel. injection Hsel as <-.
  apply select_loop_spec in Hloop as (ps & ms & dropped & -> & Hpm & Hcount & _).
  exists d1.*1. simpl. rewrite length_fmap, <- Hlen, <- Hcount.
  split_and!; [done | done | by rewrite Hpm | lia].
Qed.

(** X28.  When the lines return, no utterance id is twice in
    [paths_meta], and for every pair (utt, label) in it the label is one
    of the labels of the dataset config and the value of utt in
    utt2label, and the path at the same position is the value of utt in
    utt2path; where a file gives an id more than once, the value is that
    of its last row. *)
Theorem select_paths_content (args : train_args) (labels : list T)
    (rows1 rows2 : list (list T)) (sel : selection) :
  select_paths shuffle args labels rows1 rows2 = Ok sel →
  NoDup (sel_paths_meta sel).*1
  ∧ ∀ (i : nat) (utt label : T),
      sel_paths_meta sel !! i = Some (utt, label) →
      label ∈ labels
      ∧ last_value rows2 utt = Some label
      ∧ ∃ path, sel_paths sel !! i = Some path ∧ last_value rows1 utt = Some path.
Proof.
  intros Hrun.
  destruct (select_paths_cases shuffle shuffle_Permutation args labels rows1 rows2)
    as [[_ Hbad]|(_ & d1 & d2 & _ & _ & _ & Hget1 & Hget2 & Hcase)]; [congruence|].
  destruct Hcase as [[_ Hbad]|(_ & keys & sel' & _ & Hnd & _ & Hloop & Hsel)];
    [congruence|].
  rewrite Hrun in Hsel. injection Hsel as <-.
  apply select_loop_spec in Hloop as (ps & ms & dropped & -> & _ & _ & Hsub & Hitems).
  simpl. split.
  - by apply (sublist_NoDup _ keys).
  - intros i utt label Hi.
    destruct (Hitems i utt label Hi) as (Hlabel & Hl & p & Hp & Hpath).
    split_and!; [done | by apply Hget2 |].
    exists p. split; [done | by apply Hget1].
Qed.
End select_paths_theorems.

Lemma select_paths_outcome_witness :
  let rows1 := [["u1"; "a.wav"]; ["u2"; "b.wav"]; ["u1"; "c.wav"]] in
  let rows2 := [["u2"; "fi"]; ["u1"; "en"]] in
  let same_ids := ∀ k : string, k ∈ omap head rows1 ↔ k ∈ omap head rows2 in
  (Exists (λ row, length row < 2) (rows1 ++ rows2) →
   select_paths reverse (Build_train_args true (Some 5%Z)) ["en"] rows1 rows2
   = Raise ValueError)
  ∧ (Forall (λ row, 2 ≤ length row) (rows1 ++ rows2) → ¬ same_ids →
     select_paths reverse (Build_train_args true (Some 5%Z)) ["en"] rows1 rows2
     = Raise AssertionError)
  ∧ (Forall (λ row, 2 ≤ length row) (rows1 ++ rows2) → same_ids →
     ∃ sel, select_paths reverse (Build_train_args true (Some 5%Z)) ["en"] rows1 rows2
            = Ok sel)
  ∧ select_paths reverse (Build_train_args true (Some 5%Z)) ["en"] rows1 rows2
    ≠ Raise KeyError.
Proof.
  exact (select_paths_outcome (T := string) reverse reverse_Permutation
           (Build_train_args true (Some 5%Z)) ["en"]
           [["u1"; "a.wav"]; ["u2"; "b.wav"]; ["u1"; "c.wav"]]
           [["u2"; "fi"]; ["u1"; "en"]]).
Defined.

Lemma select_paths_counts_witness :
  ∃ ids : list string,
    NoDup ids
    ∧ (∀ k, k ∈ ids
            ↔ k ∈ omap head [["u1"; "a.wav"]; ["u2"; "b.wav"]; ["u1"; "c.wav"]])
    ∧ length ["c.wav"] = length [("u1", "en")]
    ∧ length ["c.wav"] + 1
      = if decide (5 = 0)%Z then length ids
        else if decide (0 ≤ 5)%Z then Z.to_nat 5 `min` length ids
             else length ids - Z.to_nat (- 5).
Proof.
  exact (select_paths_counts (T := string) reverse reverse_Permutation
           (Build_train_args true (Some 5%Z)) ["en"]
           [["u1"; "a.wav"]; ["u2"; "b.wav"]; ["u1"; "c.wav"]]
           [["u2"; "fi"]; ["u1"; "en"]]
           (mk_selection ["c.wav"] [("u1", "en")] 1) eq_refl).
Defined.

Lemma select_paths_content_witness :
  NoDup [("u1", "en")].*1
  ∧ ∀ (i : nat) (utt label : string),
      [("u1", "en")] !! i = Some (utt, label) →
      label ∈ ["en"]
      ∧ last_value [["u2"; "fi"]; ["u1"; "en"]] utt = Some label
      ∧ ∃ path, ["c.wav"] !! i = Some path
                ∧ last_value [["u1"; "a.wav"]; ["u2"; "b.wav"]; ["u1"; "c.wav"]] utt
                  = Some path.
Proof.
  exact (select_paths_content (T := string) reverse reverse_Permutation
           (Build_train_args true (Some 5%Z)) ["en"]
           [["u1"; "a.wav"]; ["u2"; "b.wav"]; ["u1"; "c.wav"]]
           [["u2"; "fi"]; ["u1"; "en"]]
           (mk_selection ["c.wav"] [("u1", "en")] 1) eq_refl).
Defined.

(** ** One-hot labels *)

(** X29.  For labels that are all different, [label2onehot] gives the
    label at position i the vector of [len(labels)] entries that is 1 at i
    and 0 elsewhere, so different labels get different vectors; a label
    that is not among the labels is looked up one past the last row, which
    is an error. *)
Theorem label2onehot_spec (labels : list string) :
  NoDup labels →
  (∀ (i : nat) (label : string),
     labels !! i = Some label →
     ∃ v : list Z,
       label2onehot labels label = Some v
       ∧ length v = length labels
       ∧ ∀ j, j < length labels →
              v !! j = Some (if decide (j = i) then 1%Z else 0%Z))
  ∧ (∀ label : string, label ∉ labels → label2onehot labels label = None)
  ∧ (∀ (label1 label2 : string) (v : list Z),
       label2onehot labels label1 = Some v →
       label2onehot labels label2 = Some v → label1 = label2).
Proof.
  intros Hnd.
  assert (∀ i label, labels !! i = Some label → label2int labels label = i)
    as Hint.
  { intros i label Hi. unfold label2int.
    destruct (list_find (λ l, l = label) labels) as [[i' x]|] eqn:Hfind; simpl.
    - apply list_find_Some in Hfind as (Hi' & -> & _).
      by eapply NoDup_lookup.
    - apply list_find_None in Hfind. rewrite Forall_forall in Hfind.
      destruct (Hfind label); [by eapply list_elem_of_lookup_2 | done]. }
  assert (∀ label, label ∉ labels → label2int labels label = length labels)
    as Hout.
  { intros label Hlabel. unfold label2int.
    destruct (list_find (λ l, l = label) labels) as [[i' x]|] eqn:Hfind; [|done].
    apply list_find_Some in Hfind as (Hi' & -> & _).
    destruct Hlabel. by eapply list_elem_of_lookup_2. }
  assert (∀ i, i < length labels →
            one_hot_rows (length labels) !! i
            = Some ((λ j, if decide (j = i) then 1%Z else 0%Z)
                      <$> seq 0 (length labels))) as Hrow.
  { intros i Hi. unfold one_hot_rows.
    by rewrite list_lookup_fmap, lookup_seq_lt. }
  assert (∀ i label, labels !! i = Some label →
            label2onehot labels label
            = Some ((λ j, if decide (j = i) then 1%Z else 0%Z)
                      <$> seq 0 (length labels))) as Hhot.
  { intros i label Hi. unfold label2onehot, make_label2onehot.
    rewrite decide_True by done. simpl. rewrite (Hint i) by done.
    apply Hrow. by eapply lookup_lt_Some. }
  assert (∀ label, label ∉ labels → label2onehot labels label = None) as Hnone.
  { intros label Hlabel. unfold label2onehot, make_label2onehot.
    rewrite decide_True by done. simpl. rewrite Hout by done.
    apply lookup_ge_None. unfold one_hot_rows.
    by rewrite length_fmap, length_seq. }
  split_and!.
  - intros i label Hi. eexists. split; [by apply Hhot|].
    split; [by rewrite length_fmap, length_seq|].
    intros j Hj. by rewrite list_lookup_fmap, lookup_seq_lt.
  - done.
  - intros label1 label2 v H1 H2.
    destruct (decide (label1 ∈ labels)) as [Hin1|Hout1];
      [|by rewrite Hnone in H1].
    destruct (decide (label2 ∈ labels)) as [Hin2|Hout2];
      [|by rewrite Hnone in H2].
    apply list_elem_of_lookup in Hin1 as [i1 Hi1].
    apply list_elem_of_lookup in Hin2 as [i2 Hi2].
    rewrite (Hhot i1) in H1 by done. rewrite (Hhot i2) in H2 by done.
    injection H1 as <-.
    assert (i1 < length labels) as Hlt by (by eapply lookup_lt_Some).
    assert (((λ j, if decide (j = i1) then 1%Z else 0%Z) <$> seq 0 (length labels))
              !! i1
            = ((λ j, if decide (j = i2) then 1%Z else 0%Z) <$> seq 0 (length labels))
                !! i1) as Hentry.
    { injection H2 as H2. by rewrite H2. }
    rewrite !list_lookup_fmap, lookup_seq_lt in Hentry by done. simpl in Hentry.
    rewrite decide_True in Hentry by done.
    case_decide as Heq; [|done]. subst i2.
    rewrite Hi1 in Hi2. by injection Hi2.
Qed.

Lemma label2onehot_spec_witness :
  (∀ (i : nat) (label : string),
     ["en"; "fi"; "sv"] !! i = Some label →
     ∃ v : list Z,
       label2onehot ["en"; "fi"; "sv"] label = Some v
       ∧ length v = length ["en"; "fi"; "sv"]
       ∧ ∀ j, j < length ["en"; "fi"; "sv"] →
              v !! j = Some (if decide (j = i) then 1%Z else 0%Z))
  ∧ (∀ label : string,
       label ∉ ["en"; "fi"; "sv"] → label2onehot ["en"; "fi"; "sv"] label = None)
  ∧ (∀ (label1 label2 : string) (v : list Z),
       label2onehot ["en"; "fi"; "sv"] label1 = Some v →
       label2onehot ["en"; "fi"; "sv"] label2 = Some v → label1 = label2).
Proof.
  apply (label2onehot_spec ["en"; "fi"; "sv"]).
  apply (bool_decide_unpack (NoDup ["en"; "fi"; "sv"])). vm_compute. exact I.
Defined.

(** ** The callbacks of the model *)

Section create_model_facts.
Variable path_join : string → string → string.

(** X30.  In the arguments that [create_model] makes for the callbacks, a
    key that the config gives for the checkpoints or for the tensorboard
    has the value of the config and the defaults fill the rest, except
    that "format" is never passed on: it is taken out of the config and
    only names the file of the default "filepath", which is the checkpoint
    directory joined with the format, "epoch{epoch:06d}.hdf5" when the
    config has none.  A "filepath" of the config wins over it, and the
    format is then without effect. *)
Theorem callbacks_kwargs_spec (cache_dir model_id now_str : string)
    (config config' : model_config) (cb : callbacks) :
  callbacks_kwargs path_join cache_dir model_id now_str config = Ok (cb, config') →
  let given_cp := default ∅ (cfg_checkpoints config) in
  let given_tb := default ∅ (cfg_tensorboard config) in
  cb_checkpoints cb !! "format" = None
  ∧ cfg_checkpoints config' = delete "format" <$> cfg_checkpoints config
  ∧ (∀ k v, k ≠ "format" → given_cp !! k = Some v → cb_checkpoints cb !! k = Some v)
  ∧ (∀ k, k ≠ "filepath" → given_cp !! k = None → cb_checkpoints cb !! k = None)
  ∧ (given_cp !! "filepath" = None →
     ∃ format : string,
       (given_cp !! "format" = Some (PStr format)
        ∨ given_cp !! "format" = None ∧ format = "epoch{epoch:06d}.hdf5")
       ∧ cb_checkpoints cb !! "filepath"
         = Some (PStr (path_join (get_checkpoint_dir path_join cache_dir model_id)
                                 format)))
  ∧ (∀ k v, given_tb !! k = Some v → cb_tensorboard cb !! k = Some v)
  ∧ (given_tb !! "profile_batch" = None →
     cb_tensorboard cb !! "profile_batch" = Some (PInt 0))
  ∧ (given_tb !! "histogram_freq" = None →
     cb_tensorboard cb !! "histogram_freq" = Some (PInt 1))
  ∧ (given_tb !! "log_dir" = None →
     ∃ dir, cb_tensorboard cb !! "log_dir" = Some (PStr (path_join dir now_str))).
Proof.
  intros Hrun given_cp given_tb. unfold callbacks_kwargs, dict_with in Hrun.
  set (popped := match cfg_checkpoints config with
                 | Some checkpoints =>
                     match checkpoints !! "format" with
                     | Some format => (format, Some (delete "format" checkpoints))
                     | None => (PStr "epoch{epoch:06d}.hdf5", Some checkpoints)
                     end
                 | None => (PStr "epoch{epoch:06d}.hdf5", None)
                 end) in *.
  destruct (popped.1) as [| | | |format| |] eqn:Hformat; try done.
  injection Hrun as <- <-. cbn [cb_checkpoints cb_tensorboard cfg_checkpoints].
  assert (default ∅ popped.2 = delete "format" given_cp
          ∧ popped.2 = delete "format" <$> cfg_checkpoints config
          ∧ (given_cp !! "format" = Some (PStr format)
             ∨ given_cp !! "format" = None ∧ format = "epoch{epoch:06d}.hdf5"))
    as (Hcp & Hcfg & Hfmt).
  { subst popped given_cp. destruct (cfg_checkpoints config) as [cp|]; simpl in *.
    - destruct (cp !! "format") as [f|] eqn:Hf; simpl in *.
      + subst f. split_and!; [done | done | by left].
      + injection Hformat as <-.
        split_and!; [by rewrite delete_id | by rewrite delete_id | by right].
    - injection Hformat as <-.
      split_and!; [by rewrite delete_empty | done | right; by rewrite lookup_empty]. }
  rewrite Hcp.
  split_and!.
  - rewrite lookup_union, lookup_delete_eq.
    by rewrite lookup_singleton_ne.
  - done.
  - intros k v Hk Hv. apply lookup_union_Some_l. by rewrite lookup_delete_ne.
  - intros k Hk Hv. rewrite lookup_union_r by (by rewrite lookup_delete_None; right).
    by rewrite lookup_singleton_ne.
  - intros Hfile. exists format. split; [done|].
    rewrite lookup_union_r by (by rewrite lookup_delete_None; right).
    by rewrite lookup_singleton_eq.
  - intros k v Hv. by apply lookup_union_Some_l.
  - intros Hnone. rewrite lookup_union_r by done.
    by rewrite lookup_insert_ne, lookup_insert_eq.
  - intros Hnone. rewrite lookup_union_r by done.
    by rewrite !lookup_insert_ne, lookup_singleton_eq.
  - intros Hnone. rewrite lookup_union_r by done.
    rewrite lookup_insert_eq. eauto.
Qed.
End create_model_facts.

Lemma callbacks_kwargs_spec_witness :
  let join := λ a b : string, (a +:+ "/" +:+ b)%string in
  let given_cp : gmap string pyval :=
    <["format" := PStr "best.hdf5"]> {["period" := PInt 5]} in
  let given_tb : gmap string pyval := ∅ in
  let cb :=
    mk_callbacks
      (<["filepath" := PStr "cache/lstm/checkpoints/best.hdf5"]>
         {["period" := PInt 5]})
      PNone
      (<["log_dir" := PStr "cache/lstm/tensorboard/logs/1572868800"]>
         (<["profile_batch" := PInt 0]> {["histogram_freq" := PInt 1]})) in
  cb_checkpoints cb !! "format" = None
  ∧ Some ({["period" := PInt 5]} : gmap string pyval)
    = delete "format" <$> Some given_cp
  ∧ (∀ k v, k ≠ "format" → given_cp !! k = Some v → cb_checkpoints cb !! k = Some v)
  ∧ (∀ k, k ≠ "filepath" → given_cp !! k = None → cb_checkpoints cb !! k = None)
  ∧ (given_cp !! "filepath" = None →
     ∃ format : string,
       (given_cp !! "format" = Some (PStr format)
        ∨ given_cp !! "format" = None ∧ format = "epoch{epoch:06d}.hdf5")
       ∧ cb_checkpoints cb !! "filepath"
         = Some (PStr (join (get_checkpoint_dir join "cache" "lstm") format)))
  ∧ (∀ k v, given_tb !! k = Some v → cb_tensorboard cb !! k = Some v)
  ∧ (given_tb !! "profile_batch" = None →
     cb_tensorboard cb !! "profile_batch" = Some (PInt 0))
  ∧ (given_tb !! "histogram_freq" = None →
     cb_tensorboard cb !! "histogram_freq" = Some (PInt 1))
  ∧ (given_tb !! "log_dir" = None →
     ∃ dir, cb_tensorboard cb !! "log_dir" = Some (PStr (join dir "1572868800"))).
Proof.
  exact (callbacks_kwargs_spec (λ a b : string, (a +:+ "/" +:+ b)%string)
           "cache" "lstm" "1572868800"
           (mk_model_config None
              (Some (<["format" := PStr "best.hdf5"]> {["period" := PInt 5]})) None)
           (mk_model_config None (Some {["period" := PInt 5]}) None)
           (mk_callbacks
              (<["filepath" := PStr "cache/lstm/checkpoints/best.hdf5"]>
                 {["period" := PInt 5]})
              PNone
              (<["log_dir" := PStr "cache/lstm/tensorboard/logs/1572868800"]>
                 (<["profile_batch" := PInt 0]> {["histogram_freq" := PInt 1]})))
           eq_refl).
Defined.
